(** * scouts-cli: credential lifecycle and context cache

    A shallow embedding of the credential manager
    ([scouts_cli/client/auth.py]), the browser acquisition orchestrator
    ([scouts_cli/client/browser_auth.py]) and the local context cache
    ([scouts_cli/context.py]), with the properties of the specification
    stated and settled against it.

    The program is dynamically typed: every value read from a file or from
    the upstream API is a JSON value, and every failure is an exception.
    The embedding keeps both: values are terms of [val], and a call either
    returns ([Ok]) or raises ([Raise]). *)

From Stdlib Require Import ZArith List String Ascii Bool Lia DecimalString.
Import ListNotations.

Local Open Scope string_scope.
Local Open Scope Z_scope.

(* ================================================================== *)
(** * The Python values the program manipulates *)
(* ================================================================== *)

Module Py.

(** What [json.load] / [response.json()] produce.  A [VDict] keeps its
    items in insertion order, as Python dictionaries do; its keys are
    strings (JSON objects).  Numbers are integers: identifiers, schema
    versions and epoch seconds. *)
#[warnings="-register-all"]
Inductive val : Type :=
  | VNone
  | VBool (b : bool)
  | VInt (z : Z)
  | VStr (s : string)
  | VList (l : list val)
  | VDict (d : list (string * val)).

(** Exception classes: the three of [client/errors.py] the core raises,
    the built-in ones the dynamic operations raise, and [UpstreamError]
    for whatever a collaborator (HTTP session, browser driver) throws. *)
Inductive exn_class : Type :=
  | AuthenticationError
  | BrowserAuthError
  | AttributeError
  | TypeError
  | KeyError
  | IndexError
  | ValueError
  | UpstreamError.

(** [ScoutingError.__init__] stores [message] and [suggestion]. *)
Record exn : Type := Exn {
  exn_cls : exn_class;
  exn_message : string;
  exn_suggestion : option string
}.

Inductive result (A : Type) : Type :=
  | Ok (a : A)
  | Raise (e : exn).
Arguments Ok {A} a.
Arguments Raise {A} e.

Definition builtin_error (c : exn_class) : exn := Exn c "" None.

Definition bind {A B : Type} (r : result A) (k : A -> result B) : result B :=
  match r with
  | Ok a => k a
  | Raise e => Raise e
  end.

(** Truth value testing: [None], [False], [0], [''], [[]] and [{}] are
    false. *)
Definition truthy (v : val) : bool :=
  match v with
  | VNone => false
  | VBool b => b
  | VInt z => negb (z =? 0)
  | VStr s => negb (s =? "")%string
  | VList l => match l with [] => false | _ => true end
  | VDict d => match d with [] => false | _ => true end
  end.

(** ** Dictionaries *)

Fixpoint dict_get {A : Type} (k : string) (d : list (string * A)) : option A :=
  match d with
  | [] => None
  | (k', v) :: d' => if (k =? k')%string then Some v else dict_get k d'
  end.

(** [d[k] = v]: replaces the value in place, or appends a new item. *)
Fixpoint dict_set {A : Type} (k : string) (v : A) (d : list (string * A))
  : list (string * A) :=
  match d with
  | [] => [(k, v)]
  | (k', v') :: d' =>
      if (k =? k')%string then (k', v) :: d' else (k', v') :: dict_set k v d'
  end.

(** [x.get(k, default)]: only dictionaries have the method. *)
Definition py_get_default (x : val) (k : string) (default : val) : result val :=
  match x with
  | VDict d => Ok (match dict_get k d with Some v => v | None => default end)
  | _ => Raise (builtin_error AttributeError)
  end.

(** [x.get(k)] *)
Definition py_get (x : val) (k : string) : result val :=
  py_get_default x k VNone.

(** [x[k]] with a string key. *)
Definition py_index_str (x : val) (k : string) : result val :=
  match x with
  | VDict d =>
      match dict_get k d with
      | Some v => Ok v
      | None => Raise (builtin_error KeyError)
      end
  | _ => Raise (builtin_error TypeError)
  end.

(** [x[0]] *)
Definition py_index_zero (x : val) : result val :=
  match x with
  | VList (v :: _) => Ok v
  | VList [] => Raise (builtin_error IndexError)
  | VStr (String c _) => Ok (VStr (String c ""))
  | VStr "" => Raise (builtin_error IndexError)
  | VDict _ => Raise (builtin_error KeyError)
  | _ => Raise (builtin_error TypeError)
  end.

(** [for x in v]: the items of a list, the keys of a dictionary, the
    characters of a string. *)
Fixpoint chars (s : string) : list val :=
  match s with
  | "" => []
  | String c s' => VStr (String c "") :: chars s'
  end.

Definition py_iter (v : val) : result (list val) :=
  match v with
  | VList l => Ok l
  | VDict d => Ok (map (fun kv => VStr (fst kv)) d)
  | VStr s => Ok (chars s)
  | _ => Raise (builtin_error TypeError)
  end.

(** ** Equality ([==]) and membership ([in])

    [True == 1] and [False == 0]; lists compare item by item;
    dictionaries compare as maps, whatever the order of their items. *)
Fixpoint py_eq (a b : val) {struct a} : bool :=
  match a, b with
  | VNone, VNone => true
  | VBool x, VBool y => Bool.eqb x y
  | VBool x, VInt y => Z.b2z x =? y
  | VInt x, VBool y => x =? Z.b2z y
  | VInt x, VInt y => x =? y
  | VStr s, VStr t => (s =? t)%string
  | VList l1, VList l2 =>
      (fix items (l1 l2 : list val) : bool :=
         match l1, l2 with
         | [], [] => true
         | x :: l1', y :: l2' => py_eq x y && items l1' l2'
         | _, _ => false
         end) l1 l2
  | VDict d1, VDict d2 =>
      (List.length d1 =? List.length d2)%nat &&
      (fix items (d : list (string * val)) : bool :=
         match d with
         | [] => true
         | (k, v) :: d' =>
             match dict_get k d2 with
             | Some w => py_eq v w
             | None => false
             end && items d'
         end) d1
  | _, _ => false
  end.

(** [x in l] for a list [l]: some item equals [x]. *)
Definition py_in (x : val) (l : list val) : bool :=
  existsb (fun y => py_eq y x) l.

(** Only [None], booleans, integers and strings can be dictionary keys;
    lists and dictionaries are unhashable. *)
Definition hashable (v : val) : bool :=
  match v with
  | VList _ | VDict _ => false
  | _ => true
  end.

(** ** Strings

    A character is a code point below 256. *)

Definition is_space (c : ascii) : bool :=
  let n := nat_of_ascii c in
  ((9 <=? n) && (n <=? 13) || (28 <=? n) && (n <=? 32)
   || (n =? 133) || (n =? 160))%nat.

Fixpoint lstrip (s : string) : string :=
  match s with
  | "" => ""
  | String c s' => if is_space c then lstrip s' else s
  end.

(** Drops the trailing whitespace; the result is empty exactly when the
    whole string is whitespace. *)
Fixpoint rstrip (s : string) : string :=
  match s with
  | "" => ""
  | String c s' =>
      match rstrip s' with
      | "" => if is_space c then "" else String c ""
      | r => String c r
      end
  end.

(** [s.strip()] *)
Definition strip (s : string) : string := rstrip (lstrip s).

Definition lower_char (c : ascii) : ascii :=
  let n := nat_of_ascii c in
  if ((65 <=? n) && (n <=? 90)
      || (192 <=? n) && (n <=? 222) && negb (n =? 215))%nat
  then ascii_of_nat (n + 32) else c.

(** [s.lower()] *)
Fixpoint lower (s : string) : string :=
  match s with
  | "" => ""
  | String c s' => String (lower_char c) (lower s')
  end.

(** [s.startswith(p)] *)
Definition startswith (s p : string) : bool := String.prefix p s.

(** [s.split(sep)] for a one-character separator: always at least one
    part. *)
Fixpoint split (sep : ascii) (s : string) : list string :=
  match s with
  | "" => [""]
  | String c s' =>
      if Ascii.eqb c sep then "" :: split sep s'
      else match split sep s' with
           | [] => [String c ""]
           | p :: ps => String c p :: ps
           end
  end.

(** [c * n] *)
Fixpoint repeat_char (c : ascii) (n : nat) : string :=
  match n with
  | O => ""
  | S n' => String c (repeat_char c n')
  end.

Fixpoint join (sep : string) (l : list string) : string :=
  match l with
  | [] => ""
  | [x] => x
  | x :: l' => x ++ sep ++ join sep l'
  end.

(** ** [str()] and [repr()], as f-strings use them *)

Definition str_of_Z (z : Z) : string := NilZero.string_of_int (Z.to_int z).

Definition hex_digit (n : nat) : ascii :=
  if (n <? 10)%nat then ascii_of_nat (48 + n) else ascii_of_nat (87 + n).

Fixpoint contains_char (c : ascii) (s : string) : bool :=
  match s with
  | "" => false
  | String c' s' => Ascii.eqb c c' || contains_char c s'
  end.

Definition printable (n : nat) : bool :=
  ((32 <=? n) && (n <=? 126) || (161 <=? n) && negb (n =? 173))%nat.

Definition repr_char (quote c : ascii) : string :=
  let n := nat_of_ascii c in
  if Ascii.eqb c quote || Ascii.eqb c "\" then String "\" (String c "")
  else if (n =? 9)%nat then "\t"
  else if (n =? 10)%nat then "\n"
  else if (n =? 13)%nat then "\r"
  else if printable n then String c ""
  else String "\" (String "x"
         (String (hex_digit (n / 16)) (String (hex_digit (n mod 16)) ""))).

Fixpoint repr_chars (quote : ascii) (s : string) : string :=
  match s with
  | "" => ""
  | String c s' => repr_char quote c ++ repr_chars quote s'
  end.

Definition single_quote : ascii := ascii_of_nat 39.
Definition double_quote : ascii := ascii_of_nat 34.

Definition repr_str (s : string) : string :=
  let quote : ascii :=
    if contains_char single_quote s && negb (contains_char double_quote s)
    then double_quote else single_quote in
  String quote (repr_chars quote s) ++ String quote "".

Fixpoint py_repr (v : val) : string :=
  match v with
  | VNone => "None"
  | VBool true => "True"
  | VBool false => "False"
  | VInt z => str_of_Z z
  | VStr s => repr_str s
  | VList l => "[" ++ join ", " (map py_repr l) ++ "]"
  | VDict d =>
      "{" ++ join ", " (map (fun kv => repr_str (fst kv) ++ ": " ++ py_repr (snd kv)) d)
          ++ "}"
  end.

(** [f"{v}"] *)
Definition py_str (v : val) : string :=
  match v with
  | VStr s => s
  | _ => py_repr v
  end.

End Py.

Import Py.

(* ================================================================== *)
(** * The standard-library functions the program calls *)
(* ================================================================== *)

Module Lib.

(** A [datetime] is naive (no offset) or aware; an aware one is kept as
    its instant, in microseconds since the epoch (UTC). *)
Inductive datetime : Type :=
  | Naive (wall : Z)
  | Aware (instant : Z).

(** [a >= b] for an aware [a]: comparing with a naive value raises
    [TypeError]. *)
Definition aware_ge (a : Z) (b : datetime) : result bool :=
  match b with
  | Aware t => Ok (t <=? a)
  | Naive _ => Raise (builtin_error TypeError)
  end.

(** [datetime.fromtimestamp(v, tz=timezone.utc)]: [v] is a number of
    seconds (a [bool] is an [int]); years 1 to 9999 only. *)
Definition fromtimestamp_utc (v : val) : result datetime :=
  let of_seconds (z : Z) :=
    if (-62135596800 <=? z) && (z <=? 253402300799)
    then Ok (Aware (z * 1000000))
    else Raise (builtin_error ValueError) in
  match v with
  | VInt z => of_seconds z
  | VBool b => of_seconds (Z.b2z b)
  | _ => Raise (builtin_error TypeError)
  end.

(** Parsing and printing, taken as given: [datetime.fromisoformat] (on a
    string it raises nothing but [ValueError], and the empty string is
    not a timestamp), [datetime.isoformat], [base64.urlsafe_b64decode]
    and [json.loads].  A failing call raises the exception it returns. *)
Class Stdlib : Type := {
  fromisoformat : string -> result datetime;
  isoformat : datetime -> string;
  urlsafe_b64decode : string -> result string;
  json_loads : string -> result val;
  fromisoformat_empty : forall dt, fromisoformat "" <> Ok dt
}.

End Lib.

Import Lib.

(* ================================================================== *)
(** * config.py *)
(* ================================================================== *)

Module Config.

(** The browser-auth constants, in seconds. *)
Record browser_config : Type := {
  BROWSER_HEADLESS_TIMEOUT : Z;
  BROWSER_HEADED_TIMEOUT : Z;
  BROWSER_POLL_INTERVAL : Z
}.

Definition default_browser_config : browser_config :=
  {| BROWSER_HEADLESS_TIMEOUT := 15;
     BROWSER_HEADED_TIMEOUT := 300;
     BROWSER_POLL_INTERVAL := 2 |}.

End Config.

Import Config.

(* ================================================================== *)
(** * client/errors.py *)
(* ================================================================== *)

Module Errors.

Definition raise_AuthenticationError (message : string) : exn :=
  Exn AuthenticationError message
    (Some ("Run 'scouts auth login' to authenticate via browser, "
           ++ "or 'scouts auth login --token <TOKEN>' for manual token auth.")).

Definition raise_BrowserAuthError (message : string) (suggestion : option string)
  : exn :=
  Exn BrowserAuthError message
    (Some (match suggestion with
           | Some s => if (s =? "")%string
                       then "Try again, or use manual token auth: scouts auth login --token <JWT>"
                       else s
           | None => "Try again, or use manual token auth: scouts auth login --token <JWT>"
           end)).

End Errors.

Import Errors.

(* ================================================================== *)
(** * client/browser_auth.py *)
(* ================================================================== *)

Module BrowserAuth.

(** What one browser launch meets.  Times are in milliseconds.
    [clock i] is the [i]-th reading of [time.time()] after the page has
    loaded ([clock 0] sets the deadline, [clock i] is the test of the
    [i]-th turn of the polling loop); [storage i] is what the [i]-th
    evaluation of [localStorage.getItem('LOGIN_DATA')] gives ([None] is
    JavaScript's [null]). *)
Record session : Type := {
  launch_error : option exn;
  goto_error : option exn;
  storage : nat -> result (option string);
  clock : nat -> Z;
  close_error : option exn
}.

Record world : Type := {
  playwright_installed : bool;
  headless_session : session;
  headed_session : session
}.

Inductive event : Type :=
  | EvLaunch (headless : bool)
  | EvClose (headless : bool)
  | EvPrint (line : string).

Definition newline : string := String (ascii_of_nat 10) "".

Section WithStdlib.
Context `{L : Stdlib}.

Definition _check_playwright_available (w : world) : result unit :=
  if playwright_installed w then Ok tt
  else Raise (raise_BrowserAuthError
                "Playwright is not installed. Browser-based login requires it."
                (Some ("Install with: pip install playwright" ++ newline
                       ++ "Or use manual token auth: scouts auth login --token <JWT>"))).

(** Every exception inside is caught and gives [None]. *)
Definition _extract_token_from_page (raw : result (option string))
  : option string :=
  match raw with
  | Raise _ => None
  | Ok None => None
  | Ok (Some r) =>
      if (r =? "")%string then None
      else match json_loads r with
           | Raise _ => None
           | Ok data =>
               match py_get data "token" with
               | Raise _ => None
               | Ok token =>
                   if truthy token then
                     match token with
                     | VStr t => if startswith t "eyJ" then Some t else None
                     | _ => None
                     end
                   else None
               end
           end
  end.

(** The [while] loop of [_poll_for_token], from its [i]-th turn.  [None]
    only when [fuel] turns were not enough to leave the loop. *)
Fixpoint poll_loop (s : session) (deadline : Z) (i : nat) (fuel : nat)
  : option (option string) :=
  match fuel with
  | O => None
  | S fuel' =>
      if clock s i <? deadline then
        match _extract_token_from_page (storage s i) with
        | Some token => Some (Some token)
        | None => poll_loop s deadline (S i) fuel'
        end
      else Some None
  end.

Definition _poll_for_token (s : session) (timeout_seconds : Z) (fuel : nat)
  : option (option string) :=
  let deadline := clock s 0 + timeout_seconds * 1000 in
  poll_loop s deadline 1 fuel.

(** One launch: the result and the events, in order. *)
Definition _try_acquire (s : session) (headless : bool) (timeout : Z)
    (verbose : bool) (fuel : nat)
  : option (result (option string) * list event) :=
  match launch_error s with
  | Some e => Some (Raise e, [EvLaunch headless])
  | None =>
      let navigating :=
        if verbose
        then [EvPrint ("  Navigating to https://advancements.scouting.org ("
                       ++ (if headless then "headless" else "headed") ++ ")...")]
        else [] in
      let body : option (option string * list event) :=
        match goto_error s with
        | Some e =>
            Some (None,
                  if verbose
                  then [EvPrint ("  Browser error: " ++ exn_message e)] else [])
        | None =>
            match _extract_token_from_page (storage s 0) with
            | Some token => Some (Some token, [])
            | None =>
                match _poll_for_token s timeout fuel with
                | Some r => Some (r, [])
                | None => None
                end
            end
        end in
      match body with
      | None => None
      | Some (r, printed) =>
          let events :=
            ([EvLaunch headless] ++ navigating ++ printed ++ [EvClose headless])%list in
          match close_error s with
          | Some e => Some (Raise e, events)
          | None => Some (Ok r, events)
          end
      end
  end.

Definition timed_out_message (cfg : browser_config) : string :=
  "Timed out waiting for login (" ++ str_of_Z (BROWSER_HEADED_TIMEOUT cfg)
  ++ "s). " ++ "Please try again or use: scouts auth login --token <JWT>".

Definition acquire_token_via_browser (cfg : browser_config) (w : world)
    (verbose : bool) (fuel : nat)
  : option (result string * list event) :=
  match _check_playwright_available w with
  | Raise e => Some (Raise e, [])
  | Ok _ =>
      let start :=
        if verbose then [EvPrint "Attempting headless token refresh..."] else [] in
      match _try_acquire (headless_session w) true
              (BROWSER_HEADLESS_TIMEOUT cfg) verbose fuel with
      | None => None
      | Some (Raise e, ev1) => Some (Raise e, (start ++ ev1)%list)
      | Some (Ok (Some token), ev1) =>
          Some (Ok token,
                (start ++ ev1 ++
                 (if verbose then [EvPrint "Token obtained via headless refresh."]
                  else []))%list)
      | Some (Ok None, ev1) =>
          let opening := [EvPrint "Opening browser for BSA login. Please sign in..."] in
          match _try_acquire (headed_session w) false
                  (BROWSER_HEADED_TIMEOUT cfg) verbose fuel with
          | None => None
          | Some (Raise e, ev2) =>
              Some (Raise e, (start ++ ev1 ++ opening ++ ev2)%list)
          | Some (Ok (Some token), ev2) =>
              Some (Ok token,
                    (start ++ ev1 ++ opening ++ ev2
                     ++ [EvPrint "Login successful. Token captured."])%list)
          | Some (Ok None, ev2) =>
              Some (Raise (raise_BrowserAuthError (timed_out_message cfg) None),
                    (start ++ ev1 ++ opening ++ ev2)%list)
          end
      end
  end.

End WithStdlib.

End BrowserAuth.

(* ================================================================== *)
(** * client/auth.py *)
(* ================================================================== *)

Module Auth.

(** The token file [~/.scouts-cli/token.json]: absent, present but not
    loadable ([json.JSONDecodeError] or [IOError]), or holding a JSON
    value. *)
Inductive file : Type :=
  | Missing
  | Unreadable
  | Content (v : val).

(** The wall clock ([datetime.now(timezone.utc)], microseconds) at the
    three places [get_token] can read it: the first expiry check, the
    stamping of a new record, the second expiry check. *)
Record clock : Type := {
  t_check : Z;
  t_login : Z;
  t_recheck : Z
}.

Inductive event : Type :=
  | EvAcquire
  | EvStore.

Section WithStdlib.
Context `{L : Stdlib}.

Definition _load_cached_token (f : file) : val :=
  match f with
  | Missing => VDict []
  | Unreadable => VDict []
  | Content v => v
  end.

(** Only [ValueError] is caught: a [TypeError] from [fromisoformat] (the
    value is not a string) or from the comparison (the parsed value has
    no offset) leaves the method. *)
Definition _is_expired (now : Z) (token_data : val) : result bool :=
  bind (py_get token_data "expires_at") (fun expires_at =>
  if negb (truthy expires_at) then Ok true
  else match expires_at with
       | VStr s =>
           match fromisoformat s with
           | Ok exp_dt => aware_ge now exp_dt
           | Raise _ => Ok true
           end
       | _ => Raise (builtin_error TypeError)
       end).

(** [padding = 4 - len(payload) % 4; if padding != 4: payload += '=' * padding] *)
Definition add_padding (payload : string) : string :=
  let padding := (4 - String.length payload mod 4)%nat in
  if (padding =? 4)%nat then payload
  else payload ++ repeat_char "=" padding.

(** Whatever goes wrong inside is turned into [AuthenticationError]. *)
Definition _decode_jwt_claims (token : string) : result val :=
  let parts := split "." token in
  match parts with
  | [_; payload; _] =>
      match urlsafe_b64decode (add_padding payload) with
      | Raise e =>
          Raise (raise_AuthenticationError
                   ("Failed to decode JWT token: " ++ exn_message e))
      | Ok decoded =>
          match json_loads decoded with
          | Raise e =>
              Raise (raise_AuthenticationError
                       ("Failed to decode JWT token: " ++ exn_message e))
          | Ok claims => Ok claims
          end
      end
  | _ => Raise (raise_AuthenticationError "Invalid JWT format (expected 3 parts).")
  end.

(** Returns the outcome and the token file afterwards: the file is
    written last, when nothing has raised. *)
Definition login_with_token (now : Z) (token : string) (f : file)
  : result unit * file :=
  if negb (startswith token "eyJ") then
    (Raise (raise_AuthenticationError
              ("Invalid token format. JWT tokens start with 'eyJ'. "
               ++ "Make sure you copied the full token from LOGIN_DATA.")), f)
  else
    match _decode_jwt_claims token with
    | Raise e => (Raise e, f)
    | Ok claims =>
        match py_get claims "exp" with
        | Raise e => (Raise e, f)
        | Ok exp =>
            if negb (truthy exp) then
              (Raise (raise_AuthenticationError "Token has no expiration claim."), f)
            else
              match fromtimestamp_utc exp with
              | Raise e => (Raise e, f)
              | Ok exp_dt =>
                  let field k default :=
                    match py_get_default claims k default with
                    | Ok v => v
                    | Raise _ => default
                    end in
                  let token_data := VDict [
                    ("token", VStr token);
                    ("obtained_at", VStr (isoformat (Aware now)));
                    ("expires_at", VStr (isoformat exp_dt));
                    ("user", field "user" (VStr "unknown"));
                    ("uid", field "uid" VNone);
                    ("mid", field "mid" VNone);
                    ("pgu", field "pgu" VNone);
                    ("scope", field "scope" (VList []))
                  ] in
                  (Ok tt, Content token_data)
              end
        end
    end.

(** [os.environ.get('SCOUTS_NO_BROWSER', '').lower() in ('1', 'true', 'yes')] *)
Definition no_browser (env : option string) : bool :=
  let v := lower (match env with Some s => s | None => "" end) in
  (v =? "1")%string || (v =? "true")%string || (v =? "yes")%string.

(** [cached and e]: [e] is evaluated only for a true [cached]. *)
Definition cached_and (cached : val) (e : result bool) : result bool :=
  if truthy cached then e else Ok false.

(** [f"Token expired at {cached.get('expires_at', 'unknown')}."] *)
Definition expired_message (cached : val) : string :=
  let expires_at :=
    match py_get_default cached "expires_at" (VStr "unknown") with
    | Ok v => v
    | Raise _ => VStr "unknown"
    end in
  "Token expired at " ++ py_str expires_at ++ ".".

(** The end of [get_token]: the error raised when no token was
    obtained. *)
Definition no_token_error (now : Z) (cached : val) : exn :=
  match cached_and cached (_is_expired now cached) with
  | Raise e => e
  | Ok true => raise_AuthenticationError (expired_message cached)
  | Ok false => raise_AuthenticationError "No authentication token found."
  end.

(** [acquire] is what the call of [acquire_token_via_browser()] does:
    return a token or raise.  The result comes with the token file
    afterwards and the events, in order. *)
Definition get_token (env : option string) (clk : clock)
    (acquire : result string) (f : file)
  : result val * file * list event :=
  let cached := _load_cached_token f in
  match cached_and cached
          (bind (_is_expired (t_check clk) cached) (fun b => Ok (negb b))) with
  | Raise e => (Raise e, f, [])
  | Ok true => (py_index_str cached "token", f, [])
  | Ok false =>
      if no_browser env then
        (Raise (no_token_error (t_recheck clk) cached), f, [])
      else
        match acquire with
        | Raise _ =>
            (Raise (no_token_error (t_recheck clk) cached), f, [EvAcquire])
        | Ok token =>
            match login_with_token (t_login clk) token f with
            | (Ok _, f') => (Ok (VStr token), f', [EvAcquire; EvStore])
            | (Raise _, f') =>
                (Raise (no_token_error (t_recheck clk) cached), f', [EvAcquire])
            end
        end
  end.

(** [get_token_info]: the cached record with its computed flag. *)
Definition get_token_info (now : Z) (f : file) : result val :=
  let cached := _load_cached_token f in
  if negb (truthy cached) then Ok (VDict [])
  else
    bind (_is_expired now cached) (fun b =>
    match cached with
    | VDict d => Ok (VDict (dict_set "is_expired" (VBool b) d))
    | _ => Raise (builtin_error TypeError)
    end).

Definition logout (f : file) : file := Missing.

End WithStdlib.

End Auth.

(* ================================================================== *)
(** * context.py *)
(* ================================================================== *)

Module Context.

Definition CONTEXT_VERSION : Z := 1.

(** ** Dictionaries keyed by values

    [orgs] and [seen] are Python dictionaries keyed by whatever the
    upstream records carry.  Items stay in insertion order
    ([list(d.values())]); a key is looked up with [==]. *)
Definition odict (A : Type) : Type := list (val * A).

Section ODict.
Context {A : Type}.

Fixpoint od_get (k : val) (d : odict A) : option A :=
  match d with
  | [] => None
  | (k', v) :: d' => if py_eq k' k then Some v else od_get k d'
  end.

Definition od_mem (k : val) (d : odict A) : bool :=
  existsb (fun kv => py_eq (fst kv) k) d.

(** [d[k] = v] for a key that is not in [d] yet. *)
Definition od_add (k : val) (v : A) (d : odict A) : odict A :=
  (d ++ [(k, v)])%list.

(** In-place change of the value stored under [k]. *)
Fixpoint od_update (k : val) (f : A -> A) (d : odict A) : odict A :=
  match d with
  | [] => []
  | (k', v) :: d' =>
      if py_eq k' k then (k', f v) :: d' else (k', v) :: od_update k f d'
  end.

Definition od_values (d : odict A) : list A := map snd d.

End ODict.

(** ** The entries [refresh] builds *)

(** [{'name': ..., 'userId': ..., 'memberId': ...}] *)
Record scout_ref : Type := {
  ref_name : val;
  ref_userId : val;
  ref_memberId : val
}.

(** An item of [orgs].  [org_program] is [None] while the dictionary has
    no ['program'] key. *)
Record org_entry : Type := {
  org_orgGuid : val;
  org_name : val;
  org_unitType : val;
  org_unitNumber : val;
  org_program : option val;
  org_roles : list val;
  org_scouts : list scout_ref
}.

(** An item of [seen], then of [scouts]. *)
Record scout_entry : Type := {
  sc_firstName : val;
  sc_lastName : val;
  sc_fullName : val;
  sc_userId : val;
  sc_memberId : val;
  sc_personGuid : val;
  sc_orgGuid : val;
  sc_unitType : val;
  sc_unitNumber : val;
  sc_program : val;
  sc_organization : val;
  sc_positions : list val
}.

Definition with_roles (roles : list val) (o : org_entry) : org_entry :=
  {| org_orgGuid := org_orgGuid o; org_name := org_name o;
     org_unitType := org_unitType o; org_unitNumber := org_unitNumber o;
     org_program := org_program o; org_roles := roles;
     org_scouts := org_scouts o |}.

Definition with_program (program : val) (o : org_entry) : org_entry :=
  {| org_orgGuid := org_orgGuid o; org_name := org_name o;
     org_unitType := org_unitType o; org_unitNumber := org_unitNumber o;
     org_program := Some program; org_roles := org_roles o;
     org_scouts := org_scouts o |}.

Definition with_scouts (refs : list scout_ref) (o : org_entry) : org_entry :=
  {| org_orgGuid := org_orgGuid o; org_name := org_name o;
     org_unitType := org_unitType o; org_unitNumber := org_unitNumber o;
     org_program := org_program o; org_roles := org_roles o;
     org_scouts := refs |}.

Definition with_positions (positions : list val) (e : scout_entry) : scout_entry :=
  {| sc_firstName := sc_firstName e; sc_lastName := sc_lastName e;
     sc_fullName := sc_fullName e; sc_userId := sc_userId e;
     sc_memberId := sc_memberId e; sc_personGuid := sc_personGuid e;
     sc_orgGuid := sc_orgGuid e; sc_unitType := sc_unitType e;
     sc_unitNumber := sc_unitNumber e; sc_program := sc_program e;
     sc_organization := sc_organization e; sc_positions := positions |}.

(** ** The collaborator *)

Inductive call : Type :=
  | GetPersonProfile (user_id : val)
  | GetMyScouts (user_id : val)
  | GetRoleTypes (person_guid : val).

(** What the client answers to a call, given the calls made before it:
    a JSON value, or an exception. *)
Definition client : Type := list call -> call -> result val.

(** ** Local state of one [refresh] pass, and its monad *)

Record locals : Type := {
  user : list (string * val);
  orgs : odict org_entry;
  seen : odict scout_entry;
  scouts : list scout_entry;
  calls : list call
}.

Definition M (A : Type) : Type := locals -> result A * locals.

Definition ret {A : Type} (a : A) : M A := fun s => (Ok a, s).

Definition mbind {A B : Type} (m : M A) (k : A -> M B) : M B :=
  fun s =>
    match m s with
    | (Ok a, s') => k a s'
    | (Raise e, s') => (Raise e, s')
    end.

Definition lift {A : Type} (r : result A) : M A := fun s => (r, s).

Definition gets {A : Type} (f : locals -> A) : M A := fun s => (Ok (f s), s).

Definition modify (f : locals -> locals) : M unit := fun s => (Ok tt, f s).

(** [try: m / except Exception: pass]: what [m] did before raising
    stays done. *)
Definition try_pass (m : M unit) : M unit :=
  fun s => (Ok tt, snd (m s)).

Fixpoint for_each {A : Type} (l : list A) (body : A -> M unit) : M unit :=
  match l with
  | [] => ret tt
  | x :: l' => mbind (body x) (fun _ => for_each l' body)
  end.

Definition when (b : bool) (m : M unit) : M unit := if b then m else ret tt.

Declare Scope ctx_scope.
Delimit Scope ctx_scope with ctx.
Notation "x <- m ;; k" := (mbind m (fun x => k))
  (at level 61, m at next level, right associativity) : ctx_scope.
Notation "m >> k" := (mbind m (fun _ => k))
  (at level 61, right associativity) : ctx_scope.
Local Open Scope ctx_scope.

Definition set_user (k : string) (v : val) : M unit :=
  modify (fun s => {| user := dict_set k v (user s); orgs := orgs s;
                      seen := seen s; scouts := scouts s; calls := calls s |}).

Definition set_orgs (f : odict org_entry -> odict org_entry) : M unit :=
  modify (fun s => {| user := user s; orgs := f (orgs s);
                      seen := seen s; scouts := scouts s; calls := calls s |}).

Definition set_seen (f : odict scout_entry -> odict scout_entry) : M unit :=
  modify (fun s => {| user := user s; orgs := orgs s;
                      seen := f (seen s); scouts := scouts s; calls := calls s |}).

Definition set_scouts (l : list scout_entry) : M unit :=
  modify (fun s => {| user := user s; orgs := orgs s;
                      seen := seen s; scouts := l; calls := calls s |}).

(** A call of the client: logged, then answered. *)
Definition request (cl : client) (c : call) : M val :=
  fun s => (cl (calls s) c,
            {| user := user s; orgs := orgs s; seen := seen s;
               scouts := scouts s; calls := (calls s ++ [c])%list |}).

(** [k in d]: an unhashable [k] raises [TypeError]. *)
Definition contains {A : Type} (k : val) (d : odict A) : result bool :=
  if hashable k then Ok (od_mem k d) else Raise (builtin_error TypeError).

(** [d[k]] *)
Definition item {A : Type} (k : val) (d : odict A) : result A :=
  match od_get k d with
  | Some v => Ok v
  | None => Raise (builtin_error KeyError)
  end.

(** [a or b] *)
Definition py_or (a b : val) : val := if truthy a then a else b.

(** [x.get(k, default)] on an [x] that has already answered a [.get]. *)
Definition field (x : val) (k : string) (default : val) : val :=
  match py_get_default x k default with
  | Ok v => v
  | Raise _ => default
  end.

(** [l.append(x)] *)
Definition append {A : Type} (x : A) (l : list A) : list A := (l ++ [x])%list.

(** ** Step 1: the user section *)

Definition fetch_user_fields (cl : client) (user_id : val) : M unit :=
  profile <- request cl (GetPersonProfile user_id) ;;
  p <- lift (py_get_default profile "profile" (VDict [])) ;;
  v <- lift (py_get p "memberId") ;; set_user "memberId" v >>
  v <- lift (py_get p "firstName") ;; set_user "firstName" v >>
  v <- lift (py_get p "lastName") ;; set_user "lastName" v >>
  v <- lift (py_get p "fullName") ;; set_user "fullName" v >>
  emails <- lift (py_get_default profile "emails" (VList [VDict []])) ;;
  first <- lift (py_index_zero (py_or emails (VList [VDict []]))) ;;
  email <- lift (py_get first "email") ;;
  set_user "email" email.

(** ** Step 2: organizations from the profile's positions *)

(** [[pos.get('name') or pos.get('position') for pos in ...]] *)
Fixpoint position_names (l : list val) : result (list val) :=
  match l with
  | [] => Ok []
  | pos :: l' =>
      bind (py_get pos "name") (fun name =>
      bind (if truthy name then Ok name else py_get pos "position") (fun n =>
      bind (position_names l') (fun ns => Ok (n :: ns))))
  end.

Definition add_role (guid pos : val) : M unit :=
  o <- (fun s => (item guid (orgs s), s)) ;;
  when (truthy pos && negb (py_in pos (org_roles o)))
    (set_orgs (od_update guid (fun o => with_roles (append pos (org_roles o)) o))).

Definition seed_org (org : val) : M unit :=
  guid <- lift (py_get org "organizationGuid") ;;
  if negb (truthy guid) then ret tt
  else
    known <- (fun s => (contains guid (orgs s), s)) ;;
    when (negb known)
      (set_orgs (od_add guid
         {| org_orgGuid := guid;
            org_name := field org "organizationName" VNone;
            org_unitType := field org "unitType" VNone;
            org_unitNumber := field org "unitNumber" VNone;
            org_program := None;
            org_roles := [];
            org_scouts := [] |})) >>
    raw <- lift (py_get_default org "positions" (VList [])) ;;
    items <- lift (py_iter raw) ;;
    positions <- lift (position_names items) ;;
    for_each positions (add_role guid).

Definition fetch_profile_orgs (cl : client) (user_id : val) : M unit :=
  profile <- request cl (GetPersonProfile user_id) ;;
  raw <- lift (py_get_default profile "organizationPositions" (VList [])) ;;
  items <- lift (py_iter raw) ;;
  for_each items seed_org.

(** ** Step 3: the scouts, and the organizations they bring *)

Definition PARENT_GUARDIAN : val := VStr "Parent/Guardian".

(** [f"{a} {b}".strip()] *)
Definition spaced (a b : val) : val :=
  VStr (strip (py_str a ++ " " ++ py_str b)).

Definition new_scout (scout pg guid : val) : scout_entry :=
  {| sc_firstName := field scout "firstName" VNone;
     sc_lastName := field scout "lastName" VNone;
     sc_fullName := spaced (field scout "firstName" (VStr ""))
                           (field scout "lastName" (VStr ""));
     sc_userId := field scout "userId" VNone;
     sc_memberId := field scout "memberId" VNone;
     sc_personGuid := pg;
     sc_orgGuid := guid;
     sc_unitType := field scout "unitType" VNone;
     sc_unitNumber := field scout "unitNumber" VNone;
     sc_program := field scout "program" VNone;
     sc_organization := field scout "organizationName" VNone;
     sc_positions := [field scout "position" VNone] |}.

(** The name a stub organization gets from the scout that brings it. *)
Definition stub_name (scout : val) : val :=
  let unit_type := field scout "unitType" (VStr "") in
  let unit_number := field scout "unitNumber" (VStr "") in
  if truthy unit_type then spaced unit_type unit_number
  else field scout "organizationName" VNone.

Definition stub_org (scout guid : val) : org_entry :=
  {| org_orgGuid := guid;
     org_name := stub_name scout;
     org_unitType := field scout "unitType" (VStr "");
     org_unitNumber := field scout "unitNumber" (VStr "");
     org_program := Some (field scout "program" VNone);
     org_roles := [PARENT_GUARDIAN];
     org_scouts := [] |}.

Definition add_position (pg pos : val) : M unit :=
  e <- (fun s => (item pg (seen s), s)) ;;
  when (truthy pos && negb (py_in pos (sc_positions e)))
    (set_seen (od_update pg
       (fun e => with_positions (append pos (sc_positions e)) e))).

Definition enrich_org (scout guid : val) : M unit :=
  known <- (fun s => (contains guid (orgs s), s)) ;;
  if negb known then set_orgs (od_add guid (stub_org scout guid))
  else
    o <- (fun s => (item guid (orgs s), s)) ;;
    when (negb (py_in PARENT_GUARDIAN (org_roles o)))
      (set_orgs (od_update guid
         (fun o => with_roles (append PARENT_GUARDIAN (org_roles o)) o))).

(** One turn of [for scout in raw_scouts]. *)
Definition merge_scout (scout : val) : M unit :=
  pg <- lift (py_get scout "personGuid") ;;
  guid <- lift (py_get scout "orgGuid") ;;
  is_seen <- (fun s => (contains pg (seen s), s)) ;;
  (if negb is_seen then set_seen (od_add pg (new_scout scout pg guid))
   else add_position pg (field scout "position" VNone)) >>
  when (truthy guid) (enrich_org scout guid).

(** One turn of [for scout in scouts]. *)
Definition add_scout_ref (scout : scout_entry) : M unit :=
  let guid := sc_orgGuid scout in
  when (truthy guid)
    (known <- (fun s => (contains guid (orgs s), s)) ;;
     when known
       (o <- (fun s => (item guid (orgs s), s)) ;;
        let existing_ids := map ref_userId (org_scouts o) in
        when (negb (py_in (sc_userId scout) existing_ids))
          (set_orgs (od_update guid
             (fun o => with_scouts
                (append {| ref_name := sc_fullName scout;
                           ref_userId := sc_userId scout;
                           ref_memberId := sc_memberId scout |}
                        (org_scouts o)) o))))).

Definition fetch_scouts (cl : client) (user_id : val) : M unit :=
  raw_scouts <- request cl (GetMyScouts user_id) ;;
  set_seen (fun _ => []) >>
  items <- lift (py_iter raw_scouts) ;;
  for_each items merge_scout >>
  listed <- gets (fun s => od_values (seen s)) ;;
  set_scouts listed >>
  for_each listed add_scout_ref.

(** ** Step 4: program types from the roles *)

Definition backfill_program (role : val) : M unit :=
  guid <- lift (py_get role "organizationGuid") ;;
  when (truthy guid)
    (known <- (fun s => (contains guid (orgs s), s)) ;;
     when known
       (let program := field role "programType" VNone in
        o <- (fun s => (item guid (orgs s), s)) ;;
        when (truthy program
              && match org_program o with None => true | Some _ => false end)
          (set_orgs (od_update guid (with_program program))))).

Definition fetch_roles (cl : client) (person_guid : val) : M unit :=
  roles <- request cl (GetRoleTypes person_guid) ;;
  items <- lift (py_iter roles) ;;
  for_each items backfill_program.

(** ** The whole pass *)

Definition step_user (cl : client) (user_id : val) : M unit :=
  when (truthy user_id) (try_pass (fetch_user_fields cl user_id)).

Definition step_orgs (cl : client) (user_id : val) : M unit :=
  when (truthy user_id) (try_pass (fetch_profile_orgs cl user_id)).

Definition step_scouts (cl : client) (user_id : val) : M unit :=
  when (truthy user_id) (try_pass (fetch_scouts cl user_id)).

Definition step_roles (cl : client) (person_guid : val) : M unit :=
  when (truthy person_guid) (try_pass (fetch_roles cl person_guid)).

Definition refresh_steps (cl : client) (user_id person_guid : val) : M unit :=
  step_user cl user_id >>
  step_orgs cl user_id >>
  step_scouts cl user_id >>
  step_roles cl person_guid.

Definition initial (user_id person_guid : val) : locals :=
  {| user := [("userId", user_id); ("personGuid", person_guid)];
     orgs := []; seen := []; scouts := []; calls := [] |}.

(** [data], as [_save] stamps it. *)
Record snapshot : Type := {
  snap_user : list (string * val);
  snap_organizations : list org_entry;
  snap_scouts : list scout_entry;
  snap_version : Z;
  snap_lastRefreshed : string
}.

(** The entries as the JSON values [json.dump] writes.  An
    organization's ['program'] item is listed last. *)
Definition ref_to_val (r : scout_ref) : val :=
  VDict [("name", ref_name r); ("userId", ref_userId r);
         ("memberId", ref_memberId r)].

Definition org_to_val (o : org_entry) : val :=
  VDict ([("orgGuid", org_orgGuid o); ("name", org_name o);
          ("unitType", org_unitType o); ("unitNumber", org_unitNumber o);
          ("roles", VList (org_roles o));
          ("scouts", VList (map ref_to_val (org_scouts o)))]
         ++ match org_program o with
            | Some program => [("program", program)]
            | None => []
            end)%list.

Definition scout_to_val (e : scout_entry) : val :=
  VDict [("firstName", sc_firstName e); ("lastName", sc_lastName e);
         ("fullName", sc_fullName e); ("userId", sc_userId e);
         ("memberId", sc_memberId e); ("personGuid", sc_personGuid e);
         ("orgGuid", sc_orgGuid e); ("unitType", sc_unitType e);
         ("unitNumber", sc_unitNumber e); ("program", sc_program e);
         ("organization", sc_organization e);
         ("positions", VList (sc_positions e))].

Definition snapshot_to_val (d : snapshot) : val :=
  VDict [("user", VDict (snap_user d));
         ("organizations", VList (map org_to_val (snap_organizations d)));
         ("scouts", VList (map scout_to_val (snap_scouts d)));
         ("version", VInt (snap_version d));
         ("lastRefreshed", VStr (snap_lastRefreshed d))].

(** ** The [ScoutContext] object

    [_data] is the in-memory copy ([VNone] is Python's [None]);
    [context_file] is [~/.scouts-cli/context.json]. *)
Record context : Type := {
  _data : val;
  context_file : Auth.file
}.

Definition _load (c : context) : val * context :=
  match _data c with
  | VNone =>
      match context_file c with
      | Auth.Missing => (VNone, c)
      | Auth.Unreadable => (VNone, c)
      | Auth.Content v => (v, {| _data := v; context_file := context_file c |})
      end
  | data => (data, c)
  end.

(** [exists()]: [data is not None and data.get('version') == CONTEXT_VERSION] *)
Definition exists_ (c : context) : result bool * context :=
  let (data, c') := _load c in
  match data with
  | VNone => (Ok false, c')
  | _ => (bind (py_get data "version")
            (fun v => Ok (py_eq v (VInt CONTEXT_VERSION))), c')
  end.


Definition get_scouts (c : context) : result val * context :=
  let (data, c') := _load c in
  if negb (truthy data) then (Ok (VList []), c')
  else (py_get_default data "scouts" (VList []), c').

Definition get_organizations (c : context) : result val * context :=
  let (data, c') := _load c in
  if negb (truthy data) then (Ok (VList []), c')
  else (py_get_default data "organizations" (VList []), c').

Definition get_user (c : context) : result val * context :=
  let (data, c') := _load c in
  if negb (truthy data) then (Ok VNone, c')
  else (py_get data "user", c').

Section WithStdlib.
Context `{L : Stdlib}.

(** Seven days, in microseconds. *)
Definition CONTEXT_MAX_AGE : Z := 7 * 86400 * 1000000.

(** [is_stale()]: here both [ValueError] and [TypeError] are caught. *)
Definition is_stale (now : Z) (c : context) : result bool * context :=
  let (data, c') := _load c in
  if negb (truthy data) then (Ok true, c')
  else
    (bind (py_get data "lastRefreshed") (fun refreshed =>
     if negb (truthy refreshed) then Ok true
     else match refreshed with
          | VStr s =>
              match fromisoformat s with
              | Ok (Aware t) => Ok (CONTEXT_MAX_AGE <? now - t)
              | Ok (Naive _) => Ok true
              | Raise _ => Ok true
              end
          | _ => Ok true
          end), c').

(** [_save(data)] stamps the version and the time, writes the file and
    keeps the data in memory. *)
Definition _save (now : Z) (l : locals) : snapshot * context :=
  let data :=
    {| snap_user := user l;
       snap_organizations := od_values (orgs l);
       snap_scouts := scouts l;
       snap_version := CONTEXT_VERSION;
       snap_lastRefreshed := isoformat (Aware now) |} in
  (data, {| _data := snapshot_to_val data;
            context_file := Auth.Content (snapshot_to_val data) |}).

(** [refresh(client)]: the snapshot, the object afterwards, and the
    calls the client received, in order.  [now_info] and [now_save] are
    the clock readings of [get_token_info] and of [_save]. *)
Definition refresh (cl : client) (now_info now_save : Z)
    (token_file : Auth.file) (c : context)
  : result snapshot * context * list call :=
  match Auth.get_token_info now_info token_file with
  | Raise e => (Raise e, c, [])
  | Ok token_info =>
      match py_get token_info "uid", py_get token_info "pgu" with
      | Ok user_id, Ok person_guid =>
          let l := snd (refresh_steps cl user_id person_guid
                          (initial user_id person_guid)) in
          let (data, c') := _save now_save l in
          (Ok data, c', calls l)
      | Raise e, _ => (Raise e, c, [])
      | _, Raise e => (Raise e, c, [])
      end
  end.

End WithStdlib.

End Context.

(* ================================================================== *)
(** * Sample data *)
(* ================================================================== *)

Module Samples.

Definition dq : string := String Py.double_quote "".

(** A finite part of the standard library: the listed inputs get what
    CPython gives them, every other input is rejected. *)
Definition iso_table : list (string * datetime) :=
  [("2999-01-01T00:00:00+00:00", Aware 32472144000000000);
   ("2001-01-01T00:00:00+00:00", Aware 978307200000000);
   ("2999-01-01T00:00:00", Naive 32472144000000000)].

Definition b64_table : list (string * string) :=
  [("WzFd", "[1]");
   ("e30=", "{}");
   ("eyJ1aWQiOjd9", "{" ++ dq ++ "uid" ++ dq ++ ":7}");
   ("eyJleHAiOjMyNDcyMTQ0MDAwfQ==", "{" ++ dq ++ "exp" ++ dq ++ ":32472144000}")].

Definition good_token : string := "eyJ.eyJleHAiOjMyNDcyMTQ0MDAwfQ.sig".

Definition json_table : list (string * val) :=
  [("[1]", VList [VInt 1]);
   ("{}", VDict []);
   ("{" ++ dq ++ "uid" ++ dq ++ ":7}", VDict [("uid", VInt 7)]);
   ("{" ++ dq ++ "exp" ++ dq ++ ":32472144000}", VDict [("exp", VInt 32472144000)]);
   ("{" ++ dq ++ "token" ++ dq ++ ":" ++ dq ++ good_token ++ dq ++ "}",
    VDict [("token", VStr good_token)])].

Definition login_data : string :=
  "{" ++ dq ++ "token" ++ dq ++ ":" ++ dq ++ good_token ++ dq ++ "}".

Definition lookup {A : Type} (table : list (string * A)) (s : string) : result A :=
  match dict_get s table with
  | Some a => Ok a
  | None => Raise (builtin_error ValueError)
  end.

Definition print_iso (dt : datetime) : string :=
  match dt with
  | Aware 32472144000000000 => "2999-01-01T00:00:00+00:00"
  | Aware 978307200000000 => "2001-01-01T00:00:00+00:00"
  | Aware 1793836800000000 => "2026-11-05T00:00:00+00:00"
  | _ => "1970-01-01T00:00:00+00:00"
  end.

Definition stdlib : Stdlib :=
  {| fromisoformat := lookup iso_table;
     isoformat := print_iso;
     urlsafe_b64decode := lookup b64_table;
     json_loads := lookup json_table;
     fromisoformat_empty := fun dt H =>
       match H in (_ = r) return (match r with Ok _ => False | Raise _ => True end)
       with eq_refl => I end |}.

(** Some instant in 2026, in microseconds. *)
Definition now_2026 : Z := 1793836800000000.

Definition clock_2026 : Auth.clock :=
  {| Auth.t_check := now_2026; Auth.t_login := now_2026;
     Auth.t_recheck := now_2026 |}.

Definition record (expires_at : val) : val :=
  VDict [("token", VStr good_token); ("expires_at", expires_at); ("uid", VInt 7);
         ("pgu", VStr "pg-0")].

Definition valid_file : Auth.file :=
  Auth.Content (record (VStr "2999-01-01T00:00:00+00:00")).

Definition expired_file : Auth.file :=
  Auth.Content (record (VStr "2001-01-01T00:00:00+00:00")).

(** A browser session in which the clock advances by the poll interval
    at every reading and the storage stays empty. *)
Definition idle_session : BrowserAuth.session :=
  {| BrowserAuth.launch_error := None;
     BrowserAuth.goto_error := None;
     BrowserAuth.storage := fun _ => Ok None;
     BrowserAuth.clock := fun i => Z.of_nat i * 2000;
     BrowserAuth.close_error := None |}.

(** The token shows up at the third poll. *)
Definition warm_session : BrowserAuth.session :=
  {| BrowserAuth.launch_error := None;
     BrowserAuth.goto_error := None;
     BrowserAuth.storage :=
       fun i => if (i <? 3)%nat then Ok None else Ok (Some login_data);
     BrowserAuth.clock := fun i => Z.of_nat i * 2000;
     BrowserAuth.close_error := None |}.

Definition idle_world : BrowserAuth.world :=
  {| BrowserAuth.playwright_installed := true;
     BrowserAuth.headless_session := idle_session;
     BrowserAuth.headed_session := idle_session |}.

Definition warm_world : BrowserAuth.world :=
  {| BrowserAuth.playwright_installed := true;
     BrowserAuth.headless_session := warm_session;
     BrowserAuth.headed_session := idle_session |}.

(** Upstream answers. *)
Definition dependent (pg guid position : string) : val :=
  VDict [("personGuid", VStr pg); ("orgGuid", VStr guid);
         ("firstName", VStr "Sam"); ("lastName", VStr "Smith");
         ("userId", VInt 10000003); ("memberId", VInt 100000003);
         ("unitType", VStr "Troop"); ("unitNumber", VStr "5678");
         ("program", VStr "Scouts BSA"); ("position", VStr position)].

Definition profile : val :=
  VDict [("profile", VDict [("memberId", VInt 100000001);
                            ("firstName", VStr "Jane");
                            ("lastName", VStr "Smith");
                            ("fullName", VStr "Jane Smith")]);
         ("emails", VList [VDict [("email", VStr "jane@example.org")]]);
         ("organizationPositions",
          VList [VDict [("organizationGuid", VStr "org-1");
                        ("organizationName", VStr "Pack 1234");
                        ("unitType", VStr "Pack");
                        ("unitNumber", VStr "1234");
                        ("positions", VList [VDict [("name", VStr "Den Leader")]])]])].

Definition roles : val :=
  VList [VDict [("organizationGuid", VStr "org-1");
                ("programType", VStr "Cub Scouting")];
         VDict [("organizationGuid", VStr "org-2");
                ("programType", VStr "Overwritten?")]].

(** A client that answers every call the same way. *)
Definition client_of (profile scouts roles : result val) : Context.client :=
  fun _ c =>
    match c with
    | Context.GetPersonProfile _ => profile
    | Context.GetMyScouts _ => scouts
    | Context.GetRoleTypes _ => roles
    end.

Definition two_positions : val :=
  VList [dependent "pg-1" "org-2" "Scouts BSA"; dependent "pg-1" "org-2" "Scribe"].

Definition empty_context : Context.context :=
  {| Context._data := VNone; Context.context_file := Auth.Missing |}.

(** Two records of one person; the second has an empty position. *)
Definition empty_second : val :=
  VList [dependent "pg-1" "org-2" "Scouts BSA";
         dependent "pg-1" "org-2" ""].

(** A dependent whose record names no unit and no organization. *)
Definition unnamed_unit : val :=
  VList [VDict [("personGuid", VStr "pg-2"); ("orgGuid", VStr "org-9");
                ("firstName", VStr "Alex"); ("lastName", VStr "Smith");
                ("userId", VInt 10000004); ("position", VStr "Scout")]].

(** A snapshot on disk written under another schema version. *)
Definition stale_version : Context.context :=
  {| Context._data := VNone;
     Context.context_file :=
       Auth.Content
         (VDict [("user", VDict [("userId", VInt 7)]);
                 ("organizations", VList []);
                 ("scouts", VList [VDict [("firstName", VStr "Sam")]]);
                 ("version", VInt 0);
                 ("lastRefreshed", VStr "2001-01-01T00:00:00+00:00")]) |}.

End Samples.

(* ================================================================== *)
(** * The specification's vocabulary *)
(* ================================================================== *)

Module Spec.

Section Expiry.
Context `{L : Stdlib}.

(** A stored value is a usable expiry when it is a string that parses to
    a timestamp of the data model: an instant on the UTC time line. *)
Definition parses_as_timestamp (v : val) (t : Z) : Prop :=
  exists s, v = VStr s /\ fromisoformat s = Ok (Aware t).

(** "A record is expired if now >= expiresAt, or if expiresAt is absent,
    or if it cannot be parsed." *)
Definition spec_expired (d : list (string * val)) (now : Z) : Prop :=
  match dict_get "expires_at" d with
  | None => True
  | Some v =>
      (forall t, ~ parses_as_timestamp v t)
      \/ (exists t, parses_as_timestamp v t /\ t <= now)
  end.

(** The checks of manual ingestion: the prefix, the three segments, a
    middle segment that decodes. *)
Definition fails_format_checks (token : string) : Prop :=
  startswith token "eyJ" = false
  \/ List.length (split "." token) <> 3%nat
  \/ exists h p sg e,
       split "." token = [h; p; sg]
       /\ (urlsafe_b64decode (Auth.add_padding p) = Raise e
           \/ exists decoded,
                urlsafe_b64decode (Auth.add_padding p) = Ok decoded
                /\ json_loads decoded = Raise e).

(** The claims a well-formed token decodes to. *)
Definition decoded_claims (token : string) (claims : val) : Prop :=
  startswith token "eyJ" = true
  /\ exists h p sg decoded,
       split "." token = [h; p; sg]
       /\ urlsafe_b64decode (Auth.add_padding p) = Ok decoded
       /\ json_loads decoded = Ok claims.

(** A claims map without an expiry. *)
Definition lacks_exp (claims : val) : Prop :=
  exists d, claims = VDict d /\ dict_get "exp" d = None.

End Expiry.

(** A phase exhausts its deadline at the [n]-th reading of the clock:
    the browser starts, the page loads, no token shows before, and the
    [n]-th reading is the first one past the deadline. *)
Definition exhausts `{L : Stdlib} (s : BrowserAuth.session) (timeout : Z)
    (n : nat) : Prop :=
  BrowserAuth.launch_error s = None
  /\ BrowserAuth.goto_error s = None
  /\ BrowserAuth.close_error s = None
  /\ (1 <= n)%nat
  /\ BrowserAuth.clock s 0 + timeout * 1000 <= BrowserAuth.clock s n
  /\ (forall i, (1 <= i < n)%nat ->
        BrowserAuth.clock s i < BrowserAuth.clock s 0 + timeout * 1000)
  /\ (forall i, (i < n)%nat ->
        BrowserAuth._extract_token_from_page (BrowserAuth.storage s i) = None).

(** How many times the profile was requested. *)
Definition profile_calls (cs : list Context.call) : nat :=
  List.length (filter (fun c => match c with
                               | Context.GetPersonProfile _ => true
                               | _ => false
                               end) cs).

(** No two items are equal in Python's sense. *)
Definition py_distinct (l : list val) : Prop :=
  ForallOrdPairs (fun a b => py_eq a b = false) l.

(** How many scout entries carry the person identifier [pg]. *)
Definition entries_for (pg : val) (l : list Context.scout_entry) : nat :=
  List.length (filter (fun e => py_eq (Context.sc_personGuid e) pg) l).

(** An organization entry listed under the identifier [guid]. *)
Definition org_listed (guid : val) (o : Context.org_entry)
    (l : list Context.org_entry) : Prop :=
  In o l /\ py_eq (Context.org_orgGuid o) guid = true.

End Spec.

(* ================================================================== *)
(** * Invariants and frames of a refresh pass *)
(* ================================================================== *)

Module Props.

Import Context Spec.
Local Open Scope ctx_scope.

(** A part of the state that a computation leaves alone. *)
Definition keeps {A B : Type} (proj : locals -> B) (m : M A) : Prop :=
  forall s, proj (snd (m s)) = proj s.

(** No two keys of the dictionary are equal. *)
Definition keys_distinct {A : Type} (d : odict A) : Prop :=
  py_distinct (map fst d).

(** Every key could be hashed when it was stored. *)
Definition keys_hashable {A : Type} (d : odict A) : Prop :=
  forall k, In k (map fst d) -> hashable k = true.

(** [orgs]: distinct keys, each entry stored under its own identifier. *)
Definition OrgInv (d : odict org_entry) : Prop :=
  keys_distinct d /\ keys_hashable d
  /\ forall k o, In (k, o) d -> org_orgGuid o = k.

(** An organization entry only gains roles, a program and scouts. *)
Definition entry_le (o o' : org_entry) : Prop :=
  org_orgGuid o' = org_orgGuid o /\ org_name o' = org_name o
  /\ org_unitType o' = org_unitType o /\ org_unitNumber o' = org_unitNumber o
  /\ incl (org_roles o) (org_roles o').

(** Organizations are never removed. *)
Definition org_le (d d' : odict org_entry) : Prop :=
  forall k o, od_get k d = Some o ->
  exists o', od_get k d' = Some o' /\ entry_le o o'.

(** A scout entry: no repeated position, and an organization for its
    [orgGuid] when it has one. *)
Definition scout_ok (d : odict org_entry) (e : scout_entry) : Prop :=
  py_distinct (sc_positions e)
  /\ (truthy (sc_orgGuid e) = true -> od_mem (sc_orgGuid e) d = true).

(** [seen] between two turns of the loop. *)
Definition SeenInv (d : odict org_entry) (sn : odict scout_entry) : Prop :=
  keys_distinct sn /\ keys_hashable sn
  /\ forall k e, In (k, e) sn -> sc_personGuid e = k /\ scout_ok d e.

(** [scouts] once the loop is over. *)
Definition ScoutsInv (d : odict org_entry) (l : list scout_entry) : Prop :=
  py_distinct (map sc_personGuid l) /\ forall e, In e l -> scout_ok d e.

(** A computation that keeps [OrgInv], only adds to the organizations
    and leaves [scouts] alone, whether it raises or not. *)
Definition tame {A : Type} (m : M A) : Prop :=
  forall s, OrgInv (orgs s) ->
  OrgInv (orgs (snd (m s))) /\ org_le (orgs s) (orgs (snd (m s)))
  /\ scouts (snd (m s)) = scouts s.

(** The entries of [seen] once their turn is half done: the entry of
    the current record may still wait for its organization [guid]. *)
Definition SeenPre (d : odict org_entry) (sn : odict scout_entry) (guid : val)
  : Prop :=
  keys_distinct sn /\ keys_hashable sn
  /\ forall k e, In (k, e) sn ->
       sc_personGuid e = k /\ py_distinct (sc_positions e)
       /\ (truthy (sc_orgGuid e) = true ->
           od_mem (sc_orgGuid e) d = true \/ sc_orgGuid e = guid).

(** The invariant of the loop over the raw scouts. *)
Definition LoopInv (s : locals) : Prop :=
  OrgInv (orgs s) /\ SeenInv (orgs s) (seen s).

(** The invariant between the steps of the pass. *)
Definition PassInv (s : locals) : Prop :=
  OrgInv (orgs s) /\ ScoutsInv (orgs s) (scouts s).

(** What the roles step may do to one item of [orgs]: nothing, or set
    the missing program from a role of [items] that bears its key. *)
Definition filled (items : list val) (ko ko' : val * org_entry) : Prop :=
  fst ko' = fst ko
  /\ (snd ko' = snd ko
      \/ (org_program (snd ko) = None
          /\ exists role guid,
               In role items
               /\ py_get role "organizationGuid" = Ok guid
               /\ py_eq (fst ko) guid = true
               /\ truthy (field role "programType" VNone) = true
               /\ snd ko' = with_program (field role "programType" VNone)
                                         (snd ko))).

(** Same keys in the same order, each item [filled]. *)
Definition program_backfilled (items : list val) (d d' : odict org_entry)
  : Prop :=
  Forall2 (filled items) d d'.

(** The roles step as a relation between the state before and after. *)
Definition roles_frame (items : list val) (s s' : locals) : Prop :=
  user s' = user s /\ seen s' = seen s /\ scouts s' = scouts s
  /\ calls s' = calls s
  /\ program_backfilled items (orgs s) (orgs s').

(** The role entries the step iterates over, if it gets that far. *)
Definition role_entries (cl : client) (person_guid : val) (s : locals)
  : list val :=
  if truthy person_guid then
    match cl (calls s) (GetRoleTypes person_guid) with
    | Ok roles => match py_iter roles with Ok items => items | Raise _ => [] end
    | Raise _ => []
    end
  else [].

(** A raw dependent record: an object whose two identifiers can be
    dictionary keys. *)
Definition is_record (r : val) : bool :=
  match r with
  | VDict _ => hashable (field r "personGuid" VNone)
               && hashable (field r "orgGuid" VNone)
  | _ => false
  end.

(** The entry of [pg] lists the position [p]. *)
Definition has_position (pg : val) (p : string) (sn : odict scout_entry)
  : Prop :=
  exists e, od_get pg sn = Some e /\ In (VStr p) (sc_positions e).

(** One turn of the loop on a record, with the lookups done. *)
Definition merge_record (r : val) : M unit :=
  let pg := field r "personGuid" VNone in
  let guid := field r "orgGuid" VNone in
  (fun s =>
     (if negb (od_mem pg (seen s))
      then set_seen (od_add pg (new_scout r pg guid))
      else add_position pg (field r "position" VNone)) s) >>
  when (truthy guid) (enrich_org r guid).

(** The state when the loop over the raw scouts starts. *)
Definition scouts_start (uid : val) (s : locals) : locals :=
  {| user := user s; orgs := orgs s; seen := []; scouts := scouts s;
     calls := (calls s ++ [GetMyScouts uid])%list |}.

(** The state after [scouts = list(seen.values())]. *)
Definition scouts_listed (s2 : locals) : locals :=
  {| user := user s2; orgs := orgs s2; seen := seen s2;
     scouts := od_values (seen s2); calls := calls s2 |}.

(** The state in which the scouts step starts. *)
Definition before_scouts (cl : client) (uid pgu : val) : locals :=
  snd (step_orgs cl uid (snd (step_user cl uid (initial uid pgu)))).

(** Whitespace only. *)
Fixpoint blank (s : string) : bool :=
  match s with
  | "" => true
  | String c s' => is_space c && blank s'
  end.

(** The organizations the profile brought. *)
Definition profile_orgs (cl : client) (uid pgu : val) : odict org_entry :=
  orgs (before_scouts cl uid pgu).

(** [d.get(k, default)] on the items of a dictionary. *)
Definition or_default (o : option val) (default : val) : val :=
  match o with Some v => v | None => default end.

End Props.

(* ================================================================== *)
(** * client/auth.py, continued *)
(* ================================================================== *)

Module AuthMore.

Import Auth.

Section WithStdlib.
Context `{L : Stdlib}.

(** [login_with_browser]: acquire, store, report.  Nothing is caught.
    [now_login] and [now_info] are the clock readings of
    [login_with_token] and of [get_token_info]. *)
Definition login_with_browser (now_login now_info : Z)
    (acquire : result string) (f : file) : result val * file :=
  match acquire with
  | Raise e => (Raise e, f)
  | Ok token =>
      match login_with_token now_login token f with
      | (Raise e, f') => (Raise e, f')
      | (Ok _, f') => (get_token_info now_info f', f')
      end
  end.

End WithStdlib.

End AuthMore.

(* ================================================================== *)
(** * context.py, continued *)
(* ================================================================== *)

Module ContextMore.

Import Context.

(** [q in s] for two strings: [q] occurs in [s]. *)
Fixpoint is_substring (q s : string) : bool :=
  String.prefix q s
  || match s with
     | "" => false
     | String _ s' => is_substring q s'
     end.

(** [(x or '').lower()]: only a string has the method. *)
Definition lowered (x : val) : result string :=
  match py_or x (VStr "") with
  | VStr s => Ok (lower s)
  | _ => Raise (builtin_error AttributeError)
  end.

(** The test of one turn of the loop of [resolve_scout]; the three
    names are read before any is compared. *)
Definition matches_query (query_lower : string) (scout : val) : result bool :=
  bind (py_get scout "fullName") (fun v =>
  bind (lowered v) (fun full =>
  bind (py_get scout "firstName") (fun v =>
  bind (lowered v) (fun first =>
  bind (py_get scout "lastName") (fun v =>
  bind (lowered v) (fun last =>
  Ok (is_substring query_lower full
      || is_substring query_lower first
      || is_substring query_lower last))))))).

Fixpoint resolve_loop (query_lower : string) (scouts : list val)
  : result (list val) :=
  match scouts with
  | [] => Ok []
  | scout :: rest =>
      bind (matches_query query_lower scout) (fun hit =>
      bind (resolve_loop query_lower rest) (fun matches =>
      Ok (if hit then scout :: matches else matches)))
  end.

(** [resolve_scout(query)] *)
Definition resolve_scout (query : string) (c : context)
  : result (list val) * context :=
  let (r, c') := get_scouts c in
  (bind r (fun scouts =>
   bind (py_iter scouts) (fun items =>
   resolve_loop (lower query) items)), c').



Section WithStdlib.
Context `{L : Stdlib}.


End WithStdlib.

End ContextMore.

(* ================================================================== *)
(** * client/errors.py, continued, and client/scouting_client.py *)
(* ================================================================== *)

Module Client.

(** A [ScoutingError]: the name of its class, and what [__init__]
    stores. *)
Record scouting_error : Type := {
  err_class : string;
  err_message : string;
  err_suggestion : option string;
  err_metadata : list (string * val)
}.

(** The constructors, as [_handle_response] calls them: with the
    message only. *)
Definition ScoutingError (message : string) : scouting_error :=
  {| err_class := "ScoutingError"; err_message := message;
     err_suggestion := None; err_metadata := [] |}.

Definition AuthenticationError (message : string) : scouting_error :=
  {| err_class := "AuthenticationError"; err_message := message;
     err_suggestion :=
       Some ("Run 'scouts auth login' to authenticate via browser, "
             ++ "or 'scouts auth login --token <TOKEN>' for manual token auth.");
     err_metadata := [] |}.

Definition AuthorizationError (message : string) : scouting_error :=
  {| err_class := "AuthorizationError"; err_message := message;
     err_suggestion :=
       Some ("Check that you have the correct role (Den Leader, Scout Master, etc.) "
             ++ "for this unit.");
     err_metadata := [("resource", VNone)] |}.

Definition NotFoundError (message : string) : scouting_error :=
  {| err_class := "NotFoundError"; err_message := message;
     err_suggestion :=
       Some "Check the ID and try again. Use 'scouts rank list' to see valid IDs.";
     err_metadata := [("resource", VNone)] |}.

Definition ValidationError (message : string) : scouting_error :=
  {| err_class := "ValidationError"; err_message := message;
     err_suggestion := None;
     err_metadata := [("field", VNone); ("value", VNone)] |}.

Definition RateLimitError (message : string) : scouting_error :=
  {| err_class := "RateLimitError"; err_message := message;
     err_suggestion := Some "Wait before retrying";
     err_metadata := [("retry_after", VNone)] |}.

(** [result.update(metadata)] *)
Definition dict_update (d m : list (string * val)) : list (string * val) :=
  fold_left (fun acc kv => dict_set (fst kv) (snd kv) acc) m d.

(** [to_dict()] *)
Definition to_dict (e : scouting_error) : list (string * val) :=
  let result := [("error", VStr (err_class e));
                 ("message", VStr (err_message e))] in
  let result :=
    match err_suggestion e with
    | Some s => if (s =? "")%string then result
                else dict_set "suggestion" (VStr s) result
    | None => result
    end in
  dict_update result (err_metadata e).

(** [ERROR_MAP.get(status, ScoutingError)] *)
Definition ERROR_MAP (status : Z) : string -> scouting_error :=
  if status =? 400 then ValidationError
  else if status =? 401 then AuthenticationError
  else if status =? 403 then AuthorizationError
  else if status =? 404 then NotFoundError
  else if status =? 429 then RateLimitError
  else ScoutingError.

(** What [_handle_response] reads of a [requests.Response]: [json] is
    [None] when [response.json()] raises [ValueError]. *)
Record response : Type := {
  ok : bool;
  status_code : Z;
  reason : string;
  content_empty : bool;
  text : string;
  json : option val
}.

Inductive outcome : Type :=
  | Returned (v : val)
  | Raised (e : scouting_error)
  | RaisedBuiltin (c : exn_class).

(** [s[:200]] *)
Definition first_200 (s : string) : string := String.substring 0 200 s.

(** [_handle_response(response)] *)
Definition _handle_response (r : response) : outcome :=
  if ok r then
    if content_empty r then Returned (VDict [])
    else match json r with
         | Some v => Returned v
         | None => Returned (VDict [("raw", VStr (text r))])
         end
  else
    let error_class := ERROR_MAP (status_code r) in
    match json r with
    | Some (VDict body) =>
        let message :=
          match dict_get "message" body with
          | Some m => m
          | None =>
              match dict_get "error" body with
              | Some m => m
              | None => VStr (first_200 (text r))
              end
          end in
        Raised (error_class (str_of_Z (status_code r) ++ ": " ++ py_str message))
    | Some _ => RaisedBuiltin AttributeError
    | None =>
        let message :=
          if negb (text r =? "")%string then first_200 (text r) else reason r in
        Raised (error_class (str_of_Z (status_code r) ++ ": " ++ message))
    end.

End Client.

(* ================================================================== *)
(** * main.py *)
(* ================================================================== *)

Module Main.

Import Context.

Section WithStdlib.
Context `{L : Stdlib}.

(** [scouts auth status]: the result handed to the formatter. *)
Definition auth_status (now : Z) (f : Auth.file) : result val :=
  bind (Auth.get_token_info now f) (fun info =>
  if negb (truthy info) then Ok (VDict [("status", VStr "not_authenticated")])
  else
    bind (py_get info "is_expired") (fun is_expired =>
    bind (py_get info "user") (fun user =>
    bind (py_get info "uid") (fun uid =>
    bind (py_get info "expires_at") (fun expires_at =>
    Ok (VDict [("status", VStr (if truthy is_expired then "expired"
                                else "authenticated"));
               ("user", user); ("uid", uid);
               ("expires_at", expires_at)])))))).

(** The context check that comes before every command that needs the
    client: a new [ScoutContext] on the file [f], refreshed when it does
    not exist or is stale.  The result comes with the object, the calls
    made and the lines printed. *)
Definition auto_refresh (cl : client) (now_stale now_info now_save : Z)
    (token_file : Auth.file) (f : Auth.file)
  : result unit * context * list call * list string :=
  let ctx := {| _data := VNone; context_file := f |} in
  let after_refresh (c : context) (before after : string) :=
    match refresh cl now_info now_save token_file c with
    | (Ok _, c', cs) => (Ok tt, c', cs, [before; after])
    | (Raise e, c', cs) => (Raise e, c', cs, [before])
    end in
  match exists_ ctx with
  | (Raise e, c1) => (Raise e, c1, [], [])
  | (Ok false, c1) =>
      after_refresh c1 "Populating local context (first run)..."
        "Context saved."
  | (Ok true, c1) =>
      match is_stale now_stale c1 with
      | (Raise e, c2) => (Raise e, c2, [], [])
      | (Ok true, c2) =>
          after_refresh c2 "Context is stale, refreshing..."
            "Context refreshed."
      | (Ok false, c2) => (Ok tt, c2, [], [])
      end
  end.

End WithStdlib.

End Main.

(* ================================================================== *)
(** * Vocabulary of the further properties *)
(* ================================================================== *)

Module SpecMore.

(** The session a launch in the given mode meets. *)
Definition session_of (w : BrowserAuth.world) (headless : bool)
  : BrowserAuth.session :=
  if headless then BrowserAuth.headless_session w
  else BrowserAuth.headed_session w.

(** The launch goes well and the token shows at the [k]-th reading of
    the storage ([k = 0] is the check before polling), in time. *)
Definition shows_token_at `{L : Stdlib} (s : BrowserAuth.session)
    (timeout : Z) (k : nat) (token : string) : Prop :=
  BrowserAuth.launch_error s = None
  /\ BrowserAuth.goto_error s = None
  /\ BrowserAuth.close_error s = None
  /\ (forall i, (i < k)%nat ->
        BrowserAuth._extract_token_from_page (BrowserAuth.storage s i) = None)
  /\ BrowserAuth._extract_token_from_page (BrowserAuth.storage s k)
     = Some token
  /\ (forall i, (1 <= i <= k)%nat ->
        BrowserAuth.clock s i
        < BrowserAuth.clock s 0 + timeout * 1000).

(** The test of [resolve_scout] as a filter: a record counts when the
    test returns [True]. *)
Definition hit (query_lower : string) (scout : val) : bool :=
  match ContextMore.matches_query query_lower scout with
  | Ok b => b
  | Raise _ => false
  end.

(** A name as the cache stores it: a string, or [None]. *)
Definition is_name (v : val) : bool :=
  match v with
  | VStr _ | VNone => true
  | _ => false
  end.

(** A cached scout whose three names are strings, [None] or missing. *)
Definition named_scout (scout : val) : bool :=
  match scout with
  | VDict _ =>
      is_name (Context.field scout "fullName" VNone)
      && is_name (Context.field scout "firstName" VNone)
      && is_name (Context.field scout "lastName" VNone)
  | _ => false
  end.

(** The same file, read by a new object. *)
Definition reopened (c : Context.context) : Context.context :=
  {| Context._data := VNone; Context.context_file := Context.context_file c |}.

(** Two states of a pass with the same user, organizations and scouts. *)
Definition same_data (s s' : Context.locals) : Prop :=
  Context.user s' = Context.user s /\ Context.orgs s' = Context.orgs s
  /\ Context.scouts s' = Context.scouts s.

(** An organization entry lists no role twice and no scout twice (by
    user identifier). *)
Definition org_ok (o : Context.org_entry) : Prop :=
  Spec.py_distinct (Context.org_roles o)
  /\ Spec.py_distinct (map Context.ref_userId (Context.org_scouts o)).

Definition OrgsOk (d : Context.odict Context.org_entry) : Prop :=
  forall k o, In (k, o) d -> org_ok o.

(** A computation that keeps [OrgsOk], whether it raises or not. *)
Definition neat {A : Type} (m : Context.M A) : Prop :=
  forall s, OrgsOk (Context.orgs s) -> OrgsOk (Context.orgs (snd (m s))).

(** The organization of the scout [e] has a reference to [e]. *)
Definition listed_under (e : Context.scout_entry)
    (d : Context.odict Context.org_entry) : Prop :=
  exists o,
    Context.od_get (Context.sc_orgGuid e) d = Some o
    /\ py_in (Context.sc_userId e)
         (map Context.ref_userId (Context.org_scouts o)) = true.

(** Organizations stay, and so do the references to scouts under them. *)
Definition refs_le (d d' : Context.odict Context.org_entry) : Prop :=
  forall k o, Context.od_get k d = Some o ->
  exists o',
    Context.od_get k d' = Some o'
    /\ forall x,
         py_in x (map Context.ref_userId (Context.org_scouts o)) = true ->
         py_in x (map Context.ref_userId (Context.org_scouts o')) = true.

Definition grows {A : Type} (m : Context.M A) : Prop :=
  forall s, refs_le (Context.orgs s) (Context.orgs (snd (m s))).

(** Every scout of the state that has an organization and a user
    identifier that can be compared is referred to under it. *)
Definition Listed (s : Context.locals) : Prop :=
  forall e, In e (Context.scouts s) ->
    truthy (Context.sc_orgGuid e) = true ->
    hashable (Context.sc_userId e) = true ->
    listed_under e (Context.orgs s).

(** Printing the instant [t] and parsing it back gives [t]. *)
Definition iso_roundtrip `{L : Stdlib} (t : Z) : Prop :=
  fromisoformat (isoformat (Aware t)) = Ok (Aware t).

End SpecMore.

(* ================================================================== *)
(** * Further sample data *)
(* ================================================================== *)

Module SamplesMore.

(** The first instant of 2001, in microseconds. *)
Definition t_2001 : Z := 978307200000000.

Definition sample_client : Context.client :=
  Samples.client_of (Ok Samples.profile) (Ok Samples.two_positions)
    (Ok Samples.roles).

(** A client whose every call fails. *)
Definition failing_client : Context.client :=
  Samples.client_of (Raise (builtin_error UpstreamError))
    (Raise (builtin_error UpstreamError)) (Raise (builtin_error UpstreamError)).

(** Playwright is not installed. *)
Definition no_playwright : BrowserAuth.world :=
  {| BrowserAuth.playwright_installed := false;
     BrowserAuth.headless_session := Samples.idle_session;
     BrowserAuth.headed_session := Samples.idle_session |}.

(** The page does not load in the headless browser. *)
Definition offline_session : BrowserAuth.session :=
  {| BrowserAuth.launch_error := None;
     BrowserAuth.goto_error := Some (builtin_error UpstreamError);
     BrowserAuth.storage := fun _ => Ok None;
     BrowserAuth.clock := fun i => Z.of_nat i * 2000;
     BrowserAuth.close_error := None |}.

Definition offline_world : BrowserAuth.world :=
  {| BrowserAuth.playwright_installed := true;
     BrowserAuth.headless_session := offline_session;
     BrowserAuth.headed_session := Samples.warm_session |}.

(** A cache with two scouts; the second has no first name. *)
Definition cached_scouts : Context.context :=
  {| Context._data :=
       VDict [("scouts",
               VList [VDict [("fullName", VStr "Sam Smith");
                             ("firstName", VStr "Sam");
                             ("lastName", VStr "Smith")];
                      VDict [("fullName", VStr "Alex Jones");
                             ("firstName", VNone);
                             ("lastName", VStr "Jones")]]);
              ("version", VInt 1)];
     Context.context_file := Auth.Missing |}.

(** A cache in which a name is a number. *)
Definition numbered_scout : Context.context :=
  {| Context._data := VDict [("scouts", VList [VDict [("fullName", VInt 7)]])];
     Context.context_file := Auth.Missing |}.

(** A 401 answer with a JSON object, and one with a JSON string. *)
Definition unauthorized : Client.response :=
  {| Client.ok := false; Client.status_code := 401;
     Client.reason := "Unauthorized"; Client.content_empty := false;
     Client.text := "{...}";
     Client.json := Some (VDict [("message", VStr "Token expired")]) |}.

Definition unauthorized_text : Client.response :=
  {| Client.ok := false; Client.status_code := 401;
     Client.reason := "Unauthorized"; Client.content_empty := false;
     Client.text := "...";
     Client.json := Some (VStr "Unauthorized") |}.

End SamplesMore.

(* ================================================================== *)
(** * auth.py: the cached token and manual ingestion *)
(* ================================================================== *)

Module AuthProofs.

Section AuthFacts.
Context `{L : Stdlib}.
Import Auth Spec.

Lemma parses_unique (v : val) (t t' : Z) :
  parses_as_timestamp v t -> parses_as_timestamp v t' -> t = t'.
Proof.
  intros [s [-> Hs]] [s' [Heq Hs']].
  injection Heq as <-. rewrite Hs in Hs'. now injection Hs'.
Qed.

Lemma is_expired_dict (now : Z) (d : list (string * val)) :
  _is_expired now (VDict d) = Ok false <-> ~ spec_expired d now.
Proof.
  unfold _is_expired, spec_expired, py_get, py_get_default, bind.
  destruct (dict_get "expires_at" d) as [v|]; cbn.
  2: { split; [discriminate | intros H; exfalso; apply H; exact I]. }
  assert (Hnot : forall t, (forall s, v <> VStr s) -> ~ parses_as_timestamp v t).
  { intros t Hv [s [-> _]]. now apply (Hv s). }
  destruct v as [| b | z | s | l | dd]; cbn.
  - split; [discriminate|]. intros H; exfalso; apply H; left.
    intros t; apply Hnot; discriminate.
  - destruct b; cbn; (split; [discriminate|]); intros H; exfalso; apply H; left;
      intros t; apply Hnot; discriminate.
  - destruct (z =? 0); cbn; (split; [discriminate|]); intros H; exfalso; apply H;
      left; intros t; apply Hnot; discriminate.
  - destruct (String.eqb_spec s "") as [-> | Hs]; cbn.
    + split; [discriminate|]. intros H; exfalso; apply H; left.
      intros t [s' [Heq Hp]]. injection Heq as <-.
      exact (fromisoformat_empty _ Hp).
    + destruct (fromisoformat s) as [[w | t] | e] eqn:Hf; cbn.
      * split; [discriminate|]. intros H; exfalso; apply H; left.
        intros t [s' [Heq Hp]]. injection Heq as <-. congruence.
      * split.
        -- intros Hlt. injection Hlt as Hlt. apply Z.leb_gt in Hlt.
           intros [Hno | [t' [Hp Hle]]].
           ++ apply (Hno t). now exists s.
           ++ assert (t' = t) as -> by (apply (parses_unique (VStr s)); [exact Hp | now exists s]).
              lia.
        -- intros Hn. f_equal. apply Z.leb_gt.
           destruct (Z.le_gt_cases t now) as [Hle | Hgt]; [|lia].
           exfalso; apply Hn; right. exists t. split; [now exists s | exact Hle].
      * split; [discriminate|]. intros H; exfalso; apply H; left.
        intros t [s' [Heq Hp]]. injection Heq as <-. congruence.
  - destruct l; cbn; (split; [discriminate|]); intros H; exfalso; apply H; left;
      intros t; apply Hnot; discriminate.
  - destruct dd; cbn; (split; [discriminate|]); intros H; exfalso; apply H; left;
      intros t; apply Hnot; discriminate.
Qed.

(** The events of a pass that went to the browser start with [EvAcquire]. *)
Lemma get_token_from_cache (env : option string) (clk : clock)
    (acquire : result string) (f : file) (v : val) (f' : file)
    (tr : list event) :
  get_token env clk acquire f = (Ok v, f', tr) ->
  ~ In EvAcquire tr ->
  exists d, f = Content (VDict d) /\ dict_get "token" d = Some v
            /\ _is_expired (t_check clk) (VDict d) = Ok false
            /\ f' = f /\ tr = [].
Proof.
  unfold get_token, cached_and. intros H Hno.
  destruct (truthy (_load_cached_token f)) eqn:Ht.
  - destruct (_is_expired (t_check clk) (_load_cached_token f)) as [b | e] eqn:He;
      cbn in H; [| discriminate].
    destruct b; cbn in H.
    + destruct (no_browser env); [discriminate|].
      destruct acquire as [token | e]; [| discriminate].
      destruct (login_with_token (t_login clk) token f) as [[u | e] f1]; [| discriminate].
      injection H as _ _ <-. exfalso; apply Hno; now left.
    + destruct f as [| | c]; cbn in *; try discriminate.
      destruct c; try discriminate.
      cbn in H. destruct (dict_get "token" d) eqn:Hd; [| discriminate].
      injection H as <- <- <-. exists d. repeat split; auto.
  - destruct (no_browser env); [discriminate|].
    destruct acquire as [token | e]; [| discriminate].
    destruct (login_with_token (t_login clk) token f) as [[u | e] f1]; [| discriminate].
    injection H as _ _ <-. exfalso; apply Hno; now left.
Qed.

(** C1.  [get_token] returns the cached token [v] without acquiring
    a new one if and only if the credential file holds a record with
    that token which is not expired, where a record is expired when its
    expiry is absent, does not parse as a timestamp, or is not after the
    current UTC time ([spec_expired]).  In particular, for a record
    whose expiry is past, every pass that returns a token has gone
    through an acquisition. *)
Theorem get_token_cached_iff (env : option string) (clk : clock)
    (acquire : result string) (f : file) :
  (forall v,
     (exists f' tr, get_token env clk acquire f = (Ok v, f', tr)
                    /\ ~ In EvAcquire tr)
     <-> (exists d, f = Content (VDict d) /\ dict_get "token" d = Some v
                    /\ ~ spec_expired d (t_check clk)))
  /\ (forall d e t v f' tr,
        f = Content (VDict d) ->
        dict_get "expires_at" d = Some e ->
        parses_as_timestamp e t -> t <= t_check clk ->
        get_token env clk acquire f = (Ok v, f', tr) ->
        In EvAcquire tr).
Proof.
  assert (Hiff : forall v,
     (exists f' tr, get_token env clk acquire f = (Ok v, f', tr)
                    /\ ~ In EvAcquire tr)
     <-> (exists d, f = Content (VDict d) /\ dict_get "token" d = Some v
                    /\ ~ spec_expired d (t_check clk))).
  { intros v; split.
    - intros (f' & tr & H & Hno).
      destruct (get_token_from_cache _ _ _ _ _ _ _ H Hno) as (d & -> & Hd & He & _).
      exists d. repeat split; auto. now apply is_expired_dict.
    - intros (d & -> & Hd & Hexp). apply is_expired_dict in Hexp.
      exists (Content (VDict d)), [].
      split; [| intros []].
      unfold get_token, cached_and. cbn [_load_cached_token].
      assert (Htr : truthy (VDict d) = true) by (destruct d; [discriminate | reflexivity]).
      rewrite Htr, Hexp. cbn. now rewrite Hd. }
  split; [exact Hiff|].
  intros d e t v f' tr -> He Hp Hle H.
  assert (Hdec : forall a b : event, {a = b} + {a <> b}) by decide equality.
  destruct (in_dec Hdec EvAcquire tr) as [Hin | Hno]; [exact Hin | exfalso].
  destruct (proj1 (Hiff v)) as (d' & Heq & _ & Hexp).
  { now exists f', tr. }
  injection Heq as <-. apply Hexp. unfold spec_expired. rewrite He.
  right. now exists t.
Qed.

Lemma is_expired_raises_whatever_the_time (now now' : Z) (v : val) (b : bool) :
  _is_expired now v = Ok b -> exists b', _is_expired now' v = Ok b'.
Proof.
  unfold _is_expired, bind. destruct (py_get v "expires_at") as [x | e]; [| discriminate].
  destruct (negb (truthy x)); [intros _; now exists true|].
  destruct x; try discriminate.
  destruct (fromisoformat s) as [[w | t] | e]; cbn; try discriminate; eauto.
Qed.

Lemma no_token_error_cases (now' now : Z) (cached : val) (b : bool) :
  cached_and cached (bind (_is_expired now cached) (fun b => Ok (negb b))) = Ok b ->
  (truthy cached = true /\ _is_expired now' cached = Ok true
   /\ no_token_error now' cached = raise_AuthenticationError (expired_message cached))
  \/ no_token_error now' cached
     = raise_AuthenticationError "No authentication token found.".
Proof.
  unfold no_token_error, cached_and. destruct (truthy cached); [| now right].
  destruct (_is_expired now cached) as [b0 | e] eqn:He; [| discriminate].
  intros _. destruct (is_expired_raises_whatever_the_time now now' _ _ He) as [b' ->].
  destruct b'; [left; auto | now right].
Qed.

(** C9.  [get_token] never raises a [BrowserAuthError].  When the
    browser acquisition raises, whatever the exception, the store is not
    touched and [get_token] raises [AuthenticationError]: the
    "Token expired at ..." one when an expired record is cached, the
    "No authentication token found." one otherwise.  Message and
    suggestion of the browser error are lost. *)
Theorem get_token_discards_browser_errors (env : option string) (clk : clock)
    (acquire : result string) (f : file) (r : result val) (f' : file)
    (tr : list event) :
  get_token env clk acquire f = (r, f', tr) ->
  (forall e, r = Raise e -> exn_cls e <> BrowserAuthError)
  /\ (forall eb, acquire = Raise eb -> In EvAcquire tr ->
        f' = f /\ tr = [EvAcquire]
        /\ (r = Raise (raise_AuthenticationError "No authentication token found.")
            \/ (truthy (_load_cached_token f) = true
                /\ _is_expired (t_recheck clk) (_load_cached_token f) = Ok true
                /\ r = Raise (raise_AuthenticationError
                                (expired_message (_load_cached_token f)))))).
Proof.
  unfold get_token. intros H.
  destruct (cached_and (_load_cached_token f)
              (bind (_is_expired (t_check clk) (_load_cached_token f))
                 (fun b => Ok (negb b)))) as [b | e0] eqn:Hc.
  - destruct b.
    + injection H as <- <- <-. split; [| intros eb _ []].
      intros e He. unfold py_index_str in He.
      destruct (_load_cached_token f); try (injection He as <-; discriminate).
      destruct (dict_get "token" d); [discriminate | injection He as <-; discriminate].
    + pose proof (no_token_error_cases (t_recheck clk) _ _ _ Hc) as Hcases.
      assert (Hcls : exn_cls (no_token_error (t_recheck clk) (_load_cached_token f))
                     <> BrowserAuthError).
      { destruct Hcases as [(_ & _ & ->) | ->]; discriminate. }
      destruct (no_browser env).
      { injection H as <- <- <-. split; [| intros eb _ []].
        intros e He; injection He as <-; exact Hcls. }
      destruct acquire as [token | eb].
      * destruct (login_with_token (t_login clk) token f) as [[u | e1] f1].
        -- injection H as <- <- <-. split; [discriminate | discriminate].
        -- injection H as <- <- <-. split; [| discriminate].
           intros e He; injection He as <-; exact Hcls.
      * injection H as <- <- <-. split.
        -- intros e He; injection He as <-; exact Hcls.
        -- intros eb' _ _. repeat split.
           destruct Hcases as [(Ht & He & ->) | ->]; [right | left]; auto.
  - injection H as <- <- <-. split; [| intros eb _ []].
    intros e He; injection He as <-.
    unfold cached_and in Hc. destruct (truthy (_load_cached_token f)); [| discriminate].
    unfold _is_expired, bind in Hc.
    destruct (_load_cached_token f) as [| | | | | d]; cbn in Hc;
      try (injection Hc as <-; discriminate).
    destruct (negb (truthy match dict_get "expires_at" d with Some v => v | None => VNone end));
      [discriminate|].
    destruct (match dict_get "expires_at" d with Some v => v | None => VNone end);
      try (injection Hc as <-; discriminate).
    destruct (fromisoformat s) as [[w | t] | e1]; cbn in Hc;
      try discriminate; injection Hc as <-; discriminate.
Qed.

(** ** Manual ingestion *)

Lemma login_with_token_failure_keeps_store (now : Z) (token : string)
    (f f' : file) (e : exn) :
  login_with_token now token f = (Raise e, f') -> f' = f.
Proof.
  unfold login_with_token.
  destruct (negb (startswith token "eyJ")); [now intros [= _ <-]|].
  destruct (_decode_jwt_claims token) as [claims | e0]; [| now intros [= _ <-]].
  destruct (py_get claims "exp") as [exp | e0]; [| now intros [= _ <-]].
  destruct (negb (truthy exp)); [now intros [= _ <-]|].
  destruct (fromtimestamp_utc exp); [intros H; discriminate H | now intros [= _ <-]].
Qed.

Lemma login_with_token_rejects (now : Z) (token : string) (f : file) :
  fails_format_checks token
  \/ (exists claims, decoded_claims token claims /\ lacks_exp claims) ->
  exists msg,
    login_with_token now token f = (Raise (raise_AuthenticationError msg), f).
Proof.
  unfold login_with_token, _decode_jwt_claims.
  destruct (startswith token "eyJ") eqn:Hp; cbn [negb]; [| intros _; eauto].
  intros [[Hf | [Hlen | (h & p & sg & e & Hs & Hd)]]
         | (claims & (_ & h & p & sg & decoded & Hs & Hb & Hj) & d & -> & Hexp)].
  - unfold startswith in *; congruence.
  - destruct (split "." token) as [| a [| b [| c [| x l]]]]; cbn in Hlen; eauto.
    now exfalso.
  - rewrite Hs. destruct Hd as [-> | (decoded & -> & ->)]; eauto.
  - rewrite Hs, Hb, Hj. unfold py_get, py_get_default. rewrite Hexp. cbn. eauto.
Qed.

(** C2.  A token that passes the format checks but whose middle
    segment decodes to JSON that is not an object (so that it carries no
    [exp] claim) makes [login_with_token] raise [AttributeError] rather
    than [AuthenticationError]; the credential store is left as it
    was. *)
Theorem login_with_token_non_object_claims (now : Z) (token : string)
    (f : file) (claims : val) :
  decoded_claims token claims ->
  (forall d, claims <> VDict d) ->
  login_with_token now token f = (Raise (builtin_error AttributeError), f).
Proof.
  intros (Hp & h & p & sg & decoded & Hs & Hb & Hj) Hnot.
  unfold login_with_token, _decode_jwt_claims.
  rewrite Hp, Hs, Hb, Hj. cbn.
  destruct claims; try reflexivity. now destruct (Hnot d).
Qed.

End AuthFacts.

Lemma get_token_cached_iff_witness :
  exists f' tr,
    Auth.get_token (L := Samples.stdlib) None Samples.clock_2026
      (Raise (builtin_error UpstreamError)) Samples.valid_file
    = (Ok (VStr Samples.good_token), f', tr)
    /\ ~ In Auth.EvAcquire tr.
Proof.
  apply (proj1 (get_token_cached_iff (L := Samples.stdlib) None Samples.clock_2026
                  (Raise (builtin_error UpstreamError)) Samples.valid_file)).
  eexists. split; [reflexivity|]. split; [reflexivity|].
  unfold Spec.spec_expired. cbn.
  intros [Hno | (t & (s & Hs & Hp) & Hle)].
  - apply (Hno 32472144000000000). eexists. split; reflexivity.
  - injection Hs as <-. cbn in Hp. injection Hp as <-. revert Hle. vm_compute. intros H; now apply H.
Defined.

Lemma get_token_discards_browser_errors_witness :
  exists r f' tr,
    Auth.get_token (L := Samples.stdlib) None Samples.clock_2026
      (Raise (raise_BrowserAuthError "Playwright is not installed." None))
      Samples.expired_file = (r, f', tr)
    /\ (forall e, r = Raise e -> exn_cls e <> BrowserAuthError)
    /\ (forall eb,
          Raise (raise_BrowserAuthError "Playwright is not installed." None)
          = @Raise string eb ->
          In Auth.EvAcquire tr ->
          f' = Samples.expired_file /\ tr = [Auth.EvAcquire]
          /\ (r = Raise (raise_AuthenticationError
                           "No authentication token found.")
              \/ (truthy (Auth._load_cached_token Samples.expired_file) = true
                  /\ Auth._is_expired (L := Samples.stdlib)
                       (Auth.t_recheck Samples.clock_2026)
                       (Auth._load_cached_token Samples.expired_file) = Ok true
                  /\ r = Raise (raise_AuthenticationError
                                  (Auth.expired_message
                                     (Auth._load_cached_token
                                        Samples.expired_file)))))).
Proof.
  do 3 eexists. split; [reflexivity|].
  exact (get_token_discards_browser_errors (L := Samples.stdlib) None
           Samples.clock_2026
           (Raise (raise_BrowserAuthError "Playwright is not installed." None))
           Samples.expired_file _ _ _ eq_refl).
Defined.

Lemma login_with_token_non_object_claims_witness :
  Auth.login_with_token (L := Samples.stdlib) Samples.now_2026 "eyJ.WzFd.sig"
    Auth.Missing
  = (Raise (builtin_error AttributeError), Auth.Missing).
Proof.
  apply (login_with_token_non_object_claims (L := Samples.stdlib)
           Samples.now_2026 "eyJ.WzFd.sig" Auth.Missing (VList [VInt 1])).
  - split; [reflexivity|]. exists "eyJ", "WzFd", "sig", "[1]".
    repeat split; reflexivity.
  - discriminate.
Defined.

End AuthProofs.

(* ================================================================== *)
(** * browser_auth.py: the two phases *)
(* ================================================================== *)

Module BrowserProofs.

Section BrowserFacts.
Context `{L : Stdlib}.
Import BrowserAuth Spec.

Lemma poll_loop_exhausts (s : session) (deadline : Z) (n : nat) :
  deadline <= clock s n ->
  (forall i, (1 <= i < n)%nat -> clock s i < deadline) ->
  (forall i, (i < n)%nat -> _extract_token_from_page (storage s i) = None) ->
  forall fuel k, (1 <= k <= n)%nat -> (n - k < fuel)%nat ->
  poll_loop s deadline k fuel = Some None.
Proof.
  intros Hend Hbefore Hnone. induction fuel as [| fuel IH]; intros k Hk Hfuel; [lia|].
  cbn. destruct (Z.ltb_spec (clock s k) deadline) as [Hlt | Hge]; [| reflexivity].
  assert (k < n)%nat.
  { destruct (Nat.eq_dec k n) as [-> | Hne]; [lia | lia]. }
  rewrite Hnone by lia. apply IH; lia.
Qed.

Lemma try_acquire_exhausts (s : session) (headless verbose : bool)
    (timeout : Z) (n fuel : nat) :
  exhausts s timeout n -> (n <= fuel)%nat ->
  exists ev, _try_acquire s headless timeout verbose fuel = Some (Ok None, ev).
Proof.
  intros (Hl & Hg & Hc & Hn & Hend & Hbefore & Hnone) Hfuel.
  unfold _try_acquire, _poll_for_token. rewrite Hl, Hg, Hc.
  rewrite (Hnone 0%nat) by lia.
  rewrite (poll_loop_exhausts s _ n Hend Hbefore Hnone) by lia.
  eauto.
Qed.

(** A launch logs its own mode only. *)
Lemma try_acquire_events (s : session) (headless verbose : bool) (timeout : Z)
    (fuel : nat) (r : result (option string)) (ev : list event) :
  _try_acquire s headless timeout verbose fuel = Some (r, ev) ->
  ~ In (EvLaunch (negb headless)) ev.
Proof.
  unfold _try_acquire.
  destruct (launch_error s).
  { intros [= _ <-] [H | []]. destruct headless; discriminate. }
  match goal with
  | |- context [match ?b with Some _ => _ | None => None end = _] =>
      destruct b as [[r0 printed] |] eqn:Hb
  end; [| discriminate].
  assert (Hprinted : forall x, In x printed -> exists m, x = EvPrint m).
  { destruct (goto_error s).
    - injection Hb as _ <-.
      destruct verbose; intros x Hx; [destruct Hx as [<- | []]; eauto | destruct Hx].
    - destruct (_extract_token_from_page (storage s 0)).
      + injection Hb as _ <-. intros x [].
      + destruct (_poll_for_token s timeout fuel); [| discriminate].
        injection Hb as _ <-. intros x []. }
  intros H Hin.
  assert (Hev : In (EvLaunch (negb headless))
            ([EvLaunch headless] ++
             (if verbose
              then [EvPrint ("  Navigating to https://advancements.scouting.org ("
                             ++ (if headless then "headless" else "headed") ++ ")...")]
              else []) ++ printed ++ [EvClose headless])%list).
  { destruct (close_error s); injection H as _ <-; exact Hin. }
  clear H Hin. apply in_app_or in Hev. destruct Hev as [[He | []] | Hev].
  { destruct headless; discriminate. }
  apply in_app_or in Hev. destruct Hev as [Hev | Hev].
  { destruct verbose; [destruct Hev as [He | []]; discriminate | destruct Hev]. }
  apply in_app_or in Hev. destruct Hev as [Hev | [He | []]]; [| discriminate].
  destruct (Hprinted _ Hev) as [m Hm]. discriminate.
Qed.

(** C3.  The headed attempt is launched only when the headless
    attempt ended without a token; a token found by the headless attempt
    is returned and no headed browser is launched; and when both
    attempts run past their deadlines, [acquire_token_via_browser]
    raises a [BrowserAuthError] whose message carries the configured
    headed timeout. *)
Theorem acquire_two_phases (cfg : browser_config) (w : world) (verbose : bool)
    (fuel : nat) :
  (forall r tr,
     acquire_token_via_browser cfg w verbose fuel = Some (r, tr) ->
     In (EvLaunch false) tr ->
     exists ev1,
       _try_acquire (headless_session w) true (BROWSER_HEADLESS_TIMEOUT cfg)
         verbose fuel = Some (Ok None, ev1))
  /\ (forall token ev1,
        playwright_installed w = true ->
        _try_acquire (headless_session w) true (BROWSER_HEADLESS_TIMEOUT cfg)
          verbose fuel = Some (Ok (Some token), ev1) ->
        exists tr,
          acquire_token_via_browser cfg w verbose fuel = Some (Ok token, tr)
          /\ ~ In (EvLaunch false) tr)
  /\ (forall n1 n2,
        playwright_installed w = true ->
        exhausts (headless_session w) (BROWSER_HEADLESS_TIMEOUT cfg) n1 ->
        exhausts (headed_session w) (BROWSER_HEADED_TIMEOUT cfg) n2 ->
        (n1 <= fuel)%nat -> (n2 <= fuel)%nat ->
        exists e tr,
          acquire_token_via_browser cfg w verbose fuel = Some (Raise e, tr)
          /\ exn_cls e = BrowserAuthError
          /\ exn_message e
             = "Timed out waiting for login ("
               ++ str_of_Z (BROWSER_HEADED_TIMEOUT cfg) ++ "s). "
               ++ "Please try again or use: scouts auth login --token <JWT>").
Proof.
  unfold acquire_token_via_browser, _check_playwright_available.
  repeat split.
  - intros r tr. destruct (playwright_installed w); [| now intros [= _ <-] []].
    destruct (_try_acquire (headless_session w) true (BROWSER_HEADLESS_TIMEOUT cfg)
                verbose fuel) as [[[[token |] | e] ev1] |] eqn:H1; try discriminate.
    + intros [= _ <-] Hin. exfalso.
      apply in_app_or in Hin. destruct Hin as [Hin | Hin].
      { destruct verbose; [destruct Hin as [He | []]; discriminate | destruct Hin]. }
      apply in_app_or in Hin. destruct Hin as [Hin | Hin].
      { exact (try_acquire_events _ _ _ _ _ _ _ H1 Hin). }
      destruct verbose; [destruct Hin as [He | []]; discriminate | destruct Hin].
    + eauto.
    + intros [= _ <-] Hin. exfalso.
      apply in_app_or in Hin. destruct Hin as [Hin | Hin].
      { destruct verbose; [destruct Hin as [He | []]; discriminate | destruct Hin]. }
      exact (try_acquire_events _ _ _ _ _ _ _ H1 Hin).
  - intros token ev1 -> H1. rewrite H1. eexists. split; [reflexivity|].
    intros Hin.
    apply in_app_or in Hin. destruct Hin as [Hin | Hin].
    { destruct verbose; [destruct Hin as [He | []]; discriminate | destruct Hin]. }
    apply in_app_or in Hin. destruct Hin as [Hin | Hin].
    { exact (try_acquire_events _ _ _ _ _ _ _ H1 Hin). }
    destruct verbose; [destruct Hin as [He | []]; discriminate | destruct Hin].
  - intros n1 n2 -> Hx1 Hx2 Hf1 Hf2.
    destruct (try_acquire_exhausts _ true verbose _ _ _ Hx1 Hf1) as [ev1 ->].
    destruct (try_acquire_exhausts _ false verbose _ _ _ Hx2 Hf2) as [ev2 ->].
    eexists. eexists. split; [reflexivity|]. split; reflexivity.
Qed.

End BrowserFacts.

Lemma idle_session_exhausts (timeout : Z) (n : nat) :
  0 <= timeout -> (1 <= n)%nat ->
  timeout * 1000 <= Z.of_nat n * 2000 < timeout * 1000 + 2000 ->
  Spec.exhausts (L := Samples.stdlib) Samples.idle_session timeout n.
Proof.
  intros Ht Hn Hdl. unfold Spec.exhausts, Samples.idle_session; cbn -[Z.mul Z.of_nat].
  repeat split; try lia. 
Qed.

Lemma acquire_two_phases_witness :
  exists e tr,
    BrowserAuth.acquire_token_via_browser (L := Samples.stdlib)
      default_browser_config Samples.idle_world false 150
    = Some (Raise e, tr)
    /\ exn_cls e = BrowserAuthError
    /\ exn_message e
       = "Timed out waiting for login (300s). Please try again or use: scouts auth login --token <JWT>".
Proof.
  apply (proj2 (proj2 (acquire_two_phases (L := Samples.stdlib)
                  default_browser_config Samples.idle_world false 150)) 8%nat 150%nat).
  - reflexivity.
  - apply idle_session_exhausts; cbn; lia.
  - apply idle_session_exhausts; cbn; lia.
  - lia.
  - lia.
Defined.

End BrowserProofs.

(* ================================================================== *)
(** * context.py: reads and the refresh pass *)
(* ================================================================== *)

Module ContextProofs.

Import Context Spec Props.
Local Open Scope ctx_scope.

Section ReadFacts.
Import Context.

Lemma load_twice (c : context) :
  _load (snd (_load c)) = (fst (_load c), snd (_load c)).
Proof.
  unfold _load. destruct (_data c) eqn:Hd; cbn; rewrite ?Hd; try reflexivity.
  destruct (context_file c) eqn:Hf; cbn; rewrite ?Hd, ?Hf; try reflexivity.
  destruct v; cbn; rewrite ?Hf; reflexivity.
Qed.

(** C10.  [exists_] answers [True] exactly when a snapshot loads and
    its version equals [CONTEXT_VERSION]; [get_scouts],
    [get_organizations] and [get_user] return what any loaded snapshot
    stores, with no look at the version.  For a snapshot of another
    version [exists_] is therefore [False] while the three reads still
    serve its content. *)
Theorem exists_checks_version_reads_do_not (c : context) :
  (fst (exists_ c) = Ok true
   <-> exists d v, fst (_load c) = VDict d /\ dict_get "version" d = Some v
                   /\ py_eq v (VInt CONTEXT_VERSION) = true)
  /\ (forall d,
        fst (_load c) = VDict d -> d <> [] ->
        fst (get_scouts c) = Ok (or_default (dict_get "scouts" d) (VList []))
        /\ fst (get_organizations c)
           = Ok (or_default (dict_get "organizations" d) (VList []))
        /\ fst (get_user c) = Ok (or_default (dict_get "user" d) VNone))
  /\ (forall d,
        fst (_load c) = VDict d -> d <> [] ->
        py_eq (or_default (dict_get "version" d) VNone) (VInt CONTEXT_VERSION) = false ->
        fst (exists_ c) = Ok false
        /\ fst (get_scouts c) = Ok (or_default (dict_get "scouts" d) (VList []))
        /\ fst (get_organizations c)
           = Ok (or_default (dict_get "organizations" d) (VList []))
        /\ fst (get_user c) = Ok (or_default (dict_get "user" d) VNone)).
Proof.
  assert (Hreads : forall d,
        fst (_load c) = VDict d -> d <> [] ->
        fst (get_scouts c) = Ok (or_default (dict_get "scouts" d) (VList []))
        /\ fst (get_organizations c)
           = Ok (or_default (dict_get "organizations" d) (VList []))
        /\ fst (get_user c) = Ok (or_default (dict_get "user" d) VNone)).
  { intros d Hl Hd. unfold get_scouts, get_organizations, get_user.
    destruct (_load c) as [data c']. cbn in Hl. subst data.
    destruct d as [| kv d]; [now destruct Hd|]. cbn. repeat split. }
  split; [| split; [exact Hreads|]].
  - unfold exists_. destruct (_load c) as [data c']. cbn [fst]. split.
    + destruct data; cbn; try discriminate.
      unfold or_default. destruct (dict_get "version" d) as [v|] eqn:Hv.
      * intros [= H]. exists d, v. auto.
      * cbn. discriminate.
    + intros (d & v & -> & Hv & Heq). cbn. rewrite Hv. now rewrite Heq.
  - intros d Hl Hd Hv. split; [| now apply Hreads].
    unfold exists_. destruct (_load c) as [data c']. cbn in Hl. subst data.
    cbn. unfold or_default in Hv. destruct (dict_get "version" d); now rewrite Hv.
Qed.

End ReadFacts.

(** * Python equality on hashable values *)

Lemma py_eq_refl (k : val) : hashable k = true -> py_eq k k = true.
Proof.
  destruct k; cbn; try discriminate; intros _.
  - reflexivity.
  - apply Bool.eqb_reflx.
  - apply Z.eqb_refl.
  - apply String.eqb_refl.
Qed.

Lemma py_eq_sym (a b : val) :
  hashable a = true -> hashable b = true -> py_eq a b = py_eq b a.
Proof.
  destruct a, b; cbn; try discriminate; intros _ _; try reflexivity.
  - destruct b, b0; reflexivity.
  - apply Z.eqb_sym.
  - apply Z.eqb_sym.
  - apply Z.eqb_sym.
  - apply String.eqb_sym.
Qed.

Lemma py_eq_trans (a b c : val) :
  hashable b = true ->
  py_eq a b = true -> py_eq b c = true -> py_eq a c = true.
Proof.
  intros Hb.
  destruct b; cbn in Hb; try discriminate; clear Hb;
    destruct a; cbn; try discriminate;
    destruct c; cbn; try discriminate;
    rewrite ?Z.eqb_eq, ?String.eqb_eq, ?Bool.eqb_true_iff;
    try congruence; intros; subst; try reflexivity; try lia.
  all: try (destruct b, b0; cbn in *; congruence).
  all: try (destruct b; cbn in *; lia).
  all: try (destruct b0; cbn in *; lia).
  all: try (destruct b, b0, b1; cbn in *; congruence).
  all: try (destruct b, b0; cbn in *; lia).
Qed.

Lemma py_eq_str (y : val) (s : string) : py_eq y (VStr s) = true -> y = VStr s.
Proof.
  destruct y; cbn; try discriminate. intros H. apply String.eqb_eq in H. now subst.
Qed.

Lemma py_in_str (s : string) (l : list val) :
  py_in (VStr s) l = true <-> In (VStr s) l.
Proof.
  unfold py_in. rewrite existsb_exists. split.
  - intros (y & Hy & He). apply py_eq_str in He. now subst.
  - intros H. exists (VStr s). split; [exact H|]. cbn. apply String.eqb_refl.
Qed.

(** * The monad of a refresh pass *)

Lemma mbind_ok {A B : Type} (m : M A) (k : A -> M B) (s s1 : locals) (a : A) :
  m s = (Ok a, s1) -> mbind m k s = k a s1.
Proof. unfold mbind. now intros ->. Qed.

Lemma mbind_raise {A B : Type} (m : M A) (k : A -> M B) (s s1 : locals) (e : exn) :
  m s = (Raise e, s1) -> mbind m k s = (Raise e, s1).
Proof. unfold mbind. now intros ->. Qed.

Lemma keeps_pure {A B : Type} (proj : locals -> B) (m : M A) :
  (forall s, snd (m s) = s) -> keeps proj m.
Proof. intros H s. now rewrite H. Qed.

Lemma keeps_modify {B : Type} (proj : locals -> B) (f : locals -> locals) :
  (forall s, proj (f s) = proj s) -> keeps proj (modify f).
Proof. intros H s. apply H. Qed.

Lemma keeps_bind {A B C : Type} (proj : locals -> C) (m : M A) (k : A -> M B) :
  keeps proj m -> (forall a, keeps proj (k a)) -> keeps proj (mbind m k).
Proof.
  intros Hm Hk s. unfold mbind. specialize (Hm s).
  destruct (m s) as [[a | e] s1]; cbn in *; [| exact Hm].
  now rewrite Hk.
Qed.

Lemma keeps_for_each {A B : Type} (proj : locals -> B) (l : list A)
    (body : A -> M unit) :
  (forall x, keeps proj (body x)) -> keeps proj (for_each l body).
Proof.
  intros Hb. induction l as [| x l IH]; [intros s; reflexivity|].
  cbn. apply keeps_bind; [apply Hb | intros _; exact IH].
Qed.

Lemma keeps_when {B : Type} (proj : locals -> B) (b : bool) (m : M unit) :
  keeps proj m -> keeps proj (when b m).
Proof. destruct b; [auto | intros _ s; reflexivity]. Qed.

Lemma keeps_try_pass {B : Type} (proj : locals -> B) (m : M unit) :
  keeps proj m -> keeps proj (try_pass m).
Proof. intros H s. apply H. Qed.

Ltac frame :=
  repeat first
    [ progress cbv zeta
    | match goal with
      | |- keeps _ (mbind _ _) => apply keeps_bind; [| intros ?]
      | |- keeps _ (for_each _ _) => apply keeps_for_each; intros ?
      | |- keeps _ (when _ _) => apply keeps_when
      | |- keeps _ (try_pass _) => apply keeps_try_pass
      | |- keeps _ (modify _) => apply keeps_modify; intros ?; reflexivity
      | |- keeps _ (if ?b then _ else _) => destruct b
      | |- keeps _ _ => apply keeps_pure; intros ?; reflexivity
      end ].

Lemma seed_org_keeps_calls (org : val) : keeps calls (seed_org org).
Proof. unfold seed_org, add_role, set_orgs. frame. Qed.

Lemma merge_scout_keeps_calls (scout : val) : keeps calls (merge_scout scout).
Proof.
  unfold merge_scout, add_position, enrich_org, set_seen, set_orgs. frame.
Qed.

Lemma add_scout_ref_keeps_calls (scout : scout_entry) :
  keeps calls (add_scout_ref scout).
Proof. unfold add_scout_ref, set_orgs. frame. Qed.

Lemma backfill_program_keeps_calls (role : val) :
  keeps calls (backfill_program role).
Proof. unfold backfill_program, set_orgs. frame. Qed.

Lemma request_then {A : Type} (cl : client) (c : call) (k : val -> M A)
    (s : locals) :
  (forall a, keeps calls (k a)) ->
  calls (snd (mbind (request cl c) k s)) = (calls s ++ [c])%list.
Proof.
  intros Hk. unfold mbind, request.
  destruct (cl (calls s) c) as [a | e]; [| reflexivity].
  now rewrite Hk.
Qed.

Lemma step_user_calls (cl : client) (uid : val) (s : locals) :
  calls (snd (step_user cl uid s))
  = (calls s ++ if truthy uid then [GetPersonProfile uid] else [])%list.
Proof.
  unfold step_user, when. destruct (truthy uid); [| cbn; now rewrite app_nil_r].
  unfold try_pass, fetch_user_fields. cbn [snd].
  apply request_then. intros a. unfold set_user. frame.
Qed.

Lemma step_orgs_calls (cl : client) (uid : val) (s : locals) :
  calls (snd (step_orgs cl uid s))
  = (calls s ++ if truthy uid then [GetPersonProfile uid] else [])%list.
Proof.
  unfold step_orgs, when. destruct (truthy uid); [| cbn; now rewrite app_nil_r].
  unfold try_pass, fetch_profile_orgs. cbn [snd].
  apply request_then. intros a. frame. apply seed_org_keeps_calls.
Qed.

Lemma step_scouts_calls (cl : client) (uid : val) (s : locals) :
  calls (snd (step_scouts cl uid s))
  = (calls s ++ if truthy uid then [GetMyScouts uid] else [])%list.
Proof.
  unfold step_scouts, when. destruct (truthy uid); [| cbn; now rewrite app_nil_r].
  unfold try_pass, fetch_scouts. cbn [snd].
  apply request_then. intros a. unfold set_seen, set_scouts, gets. frame.
  - apply merge_scout_keeps_calls.
  - apply add_scout_ref_keeps_calls.
Qed.

Lemma step_roles_calls (cl : client) (pgu : val) (s : locals) :
  calls (snd (step_roles cl pgu s))
  = (calls s ++ if truthy pgu then [GetRoleTypes pgu] else [])%list.
Proof.
  unfold step_roles, when. destruct (truthy pgu); [| cbn; now rewrite app_nil_r].
  unfold try_pass, fetch_roles. cbn [snd].
  apply request_then. intros a. frame. apply backfill_program_keeps_calls.
Qed.

(** The steps never raise: what fails inside is passed over. *)
Lemma step_ok (b : bool) (m : M unit) (s : locals) :
  when b (try_pass m) s = (Ok tt, snd (when b (try_pass m) s)).
Proof. destruct b; reflexivity. Qed.

Lemma refresh_steps_unfold (cl : client) (uid pgu : val) (s : locals) :
  snd (refresh_steps cl uid pgu s)
  = snd (step_roles cl pgu
           (snd (step_scouts cl uid
                   (snd (step_orgs cl uid (snd (step_user cl uid s))))))).
Proof.
  unfold refresh_steps, step_user, step_orgs, step_scouts, step_roles.
  rewrite (mbind_ok _ _ _ _ _ (step_ok _ _ _)).
  rewrite (mbind_ok _ _ _ _ _ (step_ok _ _ _)).
  rewrite (mbind_ok _ _ _ _ _ (step_ok _ _ _)).
  reflexivity.
Qed.

Lemma refresh_steps_calls (cl : client) (uid pgu : val) (s : locals) :
  calls (snd (refresh_steps cl uid pgu s))
  = (calls s
     ++ (if truthy uid
         then [GetPersonProfile uid; GetPersonProfile uid; GetMyScouts uid]
         else [])
     ++ (if truthy pgu then [GetRoleTypes pgu] else []))%list.
Proof.
  rewrite refresh_steps_unfold, step_roles_calls, step_scouts_calls,
    step_orgs_calls, step_user_calls.
  destruct (truthy uid); rewrite <- ?app_assoc; cbn; now rewrite ?app_nil_r.
Qed.

Section RefreshFacts.
Context `{L : Stdlib}.

(** What [refresh] returns is what the steps leave, stamped. *)
Lemma refresh_inv (cl : client) (now_info now_save : Z) (tf : Auth.file)
    (c c' : context) (snap : snapshot) (cs : list call) :
  refresh cl now_info now_save tf c = (Ok snap, c', cs) ->
  exists info uid pgu,
    Auth.get_token_info now_info tf = Ok info
    /\ py_get info "uid" = Ok uid /\ py_get info "pgu" = Ok pgu
    /\ let l := snd (refresh_steps cl uid pgu (initial uid pgu)) in
       snap_user snap = user l
       /\ snap_organizations snap = od_values (orgs l)
       /\ snap_scouts snap = scouts l
       /\ snap_version snap = CONTEXT_VERSION
       /\ cs = calls l.
Proof.
  unfold refresh.
  destruct (Auth.get_token_info now_info tf) as [info | e]; [| discriminate].
  destruct (py_get info "uid") as [uid | e] eqn:Hu; [| discriminate].
  destruct (py_get info "pgu") as [pgu | e] eqn:Hp; [| discriminate].
  cbn. intros [= <- _ <-]. exists info, uid, pgu. cbn. repeat split; auto.
Qed.

(** C7.  The calls of one [refresh] pass are: the profile twice and
    the scouts once when the token carries a user identifier, then the
    role types once when it carries a person identifier.  The profile is
    hence requested twice, or not at all: once for the user fields and
    once more for the organizations. *)
Theorem refresh_profile_calls (cl : client) (now_info now_save : Z)
    (tf : Auth.file) (c c' : context) (snap : snapshot) (cs : list call) :
  refresh cl now_info now_save tf c = (Ok snap, c', cs) ->
  exists info uid pgu,
    Auth.get_token_info now_info tf = Ok info
    /\ py_get info "uid" = Ok uid /\ py_get info "pgu" = Ok pgu
    /\ cs = ((if truthy uid
              then [GetPersonProfile uid; GetPersonProfile uid; GetMyScouts uid]
              else [])
             ++ (if truthy pgu then [GetRoleTypes pgu] else []))%list
    /\ profile_calls cs = if truthy uid then 2%nat else 0%nat.
Proof.
  intros H. destruct (refresh_inv _ _ _ _ _ _ _ _ H)
    as (info & uid & pgu & Hi & Hu & Hp & _ & _ & _ & _ & Hcs).
  exists info, uid, pgu. rewrite refresh_steps_calls in Hcs. cbn in Hcs.
  repeat split; auto. subst cs.
  destruct (truthy uid), (truthy pgu); reflexivity.
Qed.

End RefreshFacts.

Lemma profile_fetched_once_counterexample :
  profile_calls
    (snd (refresh (L := Samples.stdlib)
            (Samples.client_of (Ok Samples.profile) (Ok Samples.two_positions)
               (Ok Samples.roles))
            Samples.now_2026 Samples.now_2026 Samples.valid_file
            Samples.empty_context))
  <> 1%nat.
Proof. vm_compute. discriminate. Qed.

Lemma refresh_profile_calls_witness :
  exists info uid pgu,
    Auth.get_token_info (L := Samples.stdlib) Samples.now_2026 Samples.valid_file
    = Ok info
    /\ py_get info "uid" = Ok uid /\ py_get info "pgu" = Ok pgu
    /\ [GetPersonProfile (VInt 7); GetPersonProfile (VInt 7);
        GetMyScouts (VInt 7); GetRoleTypes (VStr "pg-0")]
       = ((if truthy uid
           then [GetPersonProfile uid; GetPersonProfile uid; GetMyScouts uid]
           else [])
          ++ (if truthy pgu then [GetRoleTypes pgu] else []))%list
    /\ profile_calls
         [GetPersonProfile (VInt 7); GetPersonProfile (VInt 7);
          GetMyScouts (VInt 7); GetRoleTypes (VStr "pg-0")]
       = if truthy uid then 2%nat else 0%nat.
Proof.
  exact (refresh_profile_calls (L := Samples.stdlib)
           (Samples.client_of (Ok Samples.profile) (Ok Samples.two_positions)
              (Ok Samples.roles))
           Samples.now_2026 Samples.now_2026 Samples.valid_file
           Samples.empty_context _ _ _ eq_refl).
Defined.

(** * Ordered dictionaries *)

Section ODictFacts.
Context {A : Type}.
Implicit Types (d : odict A) (k g : val) (v : A).

Lemma od_mem_get k d : od_mem k d = true <-> exists v, od_get k d = Some v.
Proof.
  induction d as [| [k' v'] d IH]; cbn.
  - split; [discriminate | intros [v H]; discriminate].
  - destruct (py_eq k' k); cbn; [split; eauto | exact IH].
Qed.

Lemma od_mem_false_get k d : od_mem k d = false <-> od_get k d = None.
Proof.
  induction d as [| [k' v'] d IH]; cbn.
  - split; reflexivity.
  - destruct (py_eq k' k); cbn; [split; discriminate | exact IH].
Qed.

Lemma od_get_In k d v :
  od_get k d = Some v -> exists k', In (k', v) d /\ py_eq k' k = true.
Proof.
  induction d as [| [k' v'] d IH]; cbn; [discriminate|].
  destruct (py_eq k' k) eqn:He.
  - intros [= ->]. exists k'. auto.
  - intros H. destruct (IH H) as (k0 & Hin & Hk). exists k0. auto.
Qed.

Lemma od_get_add g k v d :
  od_get g (od_add k v d)
  = match od_get g d with
    | Some v' => Some v'
    | None => if py_eq k g then Some v else None
    end.
Proof.
  unfold od_add. induction d as [| [k' v'] d IH]; cbn; [reflexivity|].
  destruct (py_eq k' g); [reflexivity | exact IH].
Qed.

Lemma od_get_update g k (f : A -> A) d v :
  od_get g d = Some v ->
  exists v', od_get g (od_update k f d) = Some v' /\ (v' = v \/ v' = f v).
Proof.
  induction d as [| [k' v0] d IH]; cbn; [discriminate|].
  destruct (py_eq k' k) eqn:Hk; cbn; destruct (py_eq k' g) eqn:Hg.
  - intros [= ->]. eauto.
  - intros H. eauto.
  - intros [= ->]. eauto.
  - exact IH.
Qed.

Lemma od_get_update_none g k (f : A -> A) d :
  od_get g d = None -> od_get g (od_update k f d) = None.
Proof.
  induction d as [| [k' v0] d IH]; cbn; [reflexivity|].
  destruct (py_eq k' k) eqn:Hk; cbn; destruct (py_eq k' g) eqn:Hg;
    try discriminate; auto.
Qed.

Lemma od_get_update_same k (f : A -> A) d v :
  od_get k d = Some v -> od_get k (od_update k f d) = Some (f v).
Proof.
  induction d as [| [k' v0] d IH]; cbn; [discriminate|].
  destruct (py_eq k' k) eqn:Hk; cbn; rewrite Hk; [now intros [= ->] | exact IH].
Qed.

Lemma od_update_keys k (f : A -> A) d : map fst (od_update k f d) = map fst d.
Proof.
  induction d as [| [k' v0] d IH]; cbn; [reflexivity|].
  destruct (py_eq k' k); cbn; [reflexivity | now rewrite IH].
Qed.

Lemma od_update_In k0 (f : A -> A) d k v' :
  In (k, v') (od_update k0 f d) ->
  exists v, In (k, v) d /\ (v' = v \/ v' = f v).
Proof.
  induction d as [| [k' v0] d IH]; cbn; [intros []|].
  destruct (py_eq k' k0); cbn.
  - intros [[= <- <-] | H]; eauto.
  - intros [[= <- <-] | H]; eauto.
    destruct (IH H) as (v & Hin & Hv). eauto.
Qed.

Lemma od_update_In_get k0 (f : A -> A) d k v' :
  In (k, v') (od_update k0 f d) ->
  In (k, v') d
  \/ exists v, od_get k0 d = Some v /\ In (k, v) d /\ v' = f v.
Proof.
  induction d as [| [k' v0] d IH]; cbn; [intros []|].
  destruct (py_eq k' k0) eqn:Hk; cbn.
  - intros [[= <- <-] | H]; [right; eauto | left; auto].
  - intros [[= <- <-] | H]; [left; auto|].
    destruct (IH H) as [Hin | (v & Hg & Hin & ->)]; [left; auto | right; eauto].
Qed.

Lemma od_add_keys k v d : map fst (od_add k v d) = (map fst d ++ [k])%list.
Proof. unfold od_add. now rewrite map_app. Qed.

Lemma od_mem_false_keys k d :
  od_mem k d = false -> forall k', In k' (map fst d) -> py_eq k' k = false.
Proof.
  unfold od_mem. intros H k' Hin. apply in_map_iff in Hin.
  destruct Hin as ([k0 v] & <- & Hin). cbn [fst].
  destruct (py_eq k0 k) eqn:He; [| reflexivity].
  assert (existsb (fun kv : val * A => py_eq (fst kv) k) d = true).
  { apply existsb_exists. exists (k0, v). auto. }
  congruence.
Qed.

Lemma keys_distinct_add k v d :
  keys_distinct d -> od_mem k d = false -> keys_distinct (od_add k v d).
Proof.
  unfold keys_distinct, py_distinct. rewrite od_add_keys. intros Hd Hm.
  pose proof (od_mem_false_keys _ _ Hm) as Hk. clear Hm.
  induction (map fst d) as [| x l IH]; cbn.
  - constructor; constructor.
  - inversion Hd as [| ? ? Hx Hl]; subst. constructor.
    + apply Forall_app. split; [exact Hx|]. constructor; [| constructor].
      apply Hk. now left.
    + apply IH; [exact Hl|]. intros k' Hin. apply Hk. now right.
Qed.

Lemma keys_hashable_add k v d :
  keys_hashable d -> hashable k = true -> keys_hashable (od_add k v d).
Proof.
  unfold keys_hashable. rewrite od_add_keys. intros Hd Hk k' Hin.
  apply in_app_or in Hin. destruct Hin as [Hin | [<- | []]]; auto.
Qed.

Lemma keys_distinct_update k (f : A -> A) d :
  keys_distinct d -> keys_distinct (od_update k f d).
Proof. unfold keys_distinct. now rewrite od_update_keys. Qed.

Lemma keys_hashable_update k (f : A -> A) d :
  keys_hashable d -> keys_hashable (od_update k f d).
Proof. unfold keys_hashable. now rewrite od_update_keys. Qed.

End ODictFacts.

Lemma py_distinct_append (l : list val) (x : val) :
  py_distinct l -> py_in x l = false -> py_distinct (append x l).
Proof.
  unfold py_distinct, append, py_in. intros Hd Hx.
  assert (Hk : forall y, In y l -> py_eq y x = false).
  { intros y Hy. destruct (py_eq y x) eqn:He; [| reflexivity].
    assert (existsb (fun y => py_eq y x) l = true)
      by (apply existsb_exists; eauto).
    congruence. }
  clear Hx. induction l as [| a l IH]; cbn.
  - constructor; constructor.
  - inversion Hd as [| ? ? Ha Hl]; subst. constructor.
    + apply Forall_app. split; [exact Ha|]. constructor; [| constructor].
      apply Hk. now left.
    + apply IH; [exact Hl|]. intros y Hy. apply Hk. now right.
Qed.

Lemma py_distinct_one (x : val) : py_distinct [x].
Proof. constructor; constructor. Qed.

(** * Organizations only accumulate *)

Lemma entry_le_refl (o : org_entry) : entry_le o o.
Proof. unfold entry_le. repeat split. apply incl_refl. Qed.

Lemma entry_le_trans (a b c : org_entry) :
  entry_le a b -> entry_le b c -> entry_le a c.
Proof.
  unfold entry_le. intros (H1 & H2 & H3 & H4 & H5) (G1 & G2 & G3 & G4 & G5).
  repeat split; try congruence. eapply incl_tran; eauto.
Qed.

Lemma org_le_refl (d : odict org_entry) : org_le d d.
Proof. intros k o H. exists o. split; [exact H | apply entry_le_refl]. Qed.

Lemma org_le_trans (a b c : odict org_entry) :
  org_le a b -> org_le b c -> org_le a c.
Proof.
  intros H1 H2 k o Ho. destruct (H1 _ _ Ho) as (o1 & Ho1 & Hle1).
  destruct (H2 _ _ Ho1) as (o2 & Ho2 & Hle2).
  exists o2. split; [exact Ho2 | eapply entry_le_trans; eauto].
Qed.

Lemma org_le_mem (d d' : odict org_entry) (g : val) :
  org_le d d' -> od_mem g d = true -> od_mem g d' = true.
Proof.
  intros Hle Hm. apply od_mem_get in Hm. destruct Hm as [o Ho].
  destruct (Hle _ _ Ho) as (o' & Ho' & _). apply od_mem_get. eauto.
Qed.

Lemma org_le_add (d : odict org_entry) (k : val) (o : org_entry) :
  org_le d (od_add k o d).
Proof.
  intros g o0 H. exists o0. rewrite od_get_add, H. split; [reflexivity|].
  apply entry_le_refl.
Qed.

Lemma org_le_update (d : odict org_entry) (k : val) (f : org_entry -> org_entry) :
  (forall o, entry_le o (f o)) -> org_le d (od_update k f d).
Proof.
  intros Hf g o H. destruct (od_get_update g k f d o H) as (o' & Ho' & [-> | ->]).
  - exists o. split; [exact Ho' | apply entry_le_refl].
  - exists (f o). split; [exact Ho' | apply Hf].
Qed.

Lemma OrgInv_add (d : odict org_entry) (k : val) (o : org_entry) :
  OrgInv d -> hashable k = true -> od_mem k d = false -> org_orgGuid o = k ->
  OrgInv (od_add k o d).
Proof.
  intros (Hd & Hh & Hg) Hk Hm Ho. repeat split.
  - now apply keys_distinct_add.
  - now apply keys_hashable_add.
  - intros k' o' Hin. apply in_app_or in Hin.
    destruct Hin as [Hin | [[= <- <-] | []]]; auto.
Qed.

Lemma OrgInv_update (d : odict org_entry) (k : val) (f : org_entry -> org_entry) :
  OrgInv d -> (forall o, org_orgGuid (f o) = org_orgGuid o) ->
  OrgInv (od_update k f d).
Proof.
  intros (Hd & Hh & Hg) Hf. repeat split.
  - now apply keys_distinct_update.
  - now apply keys_hashable_update.
  - intros k' o' Hin. destruct (od_update_In _ _ _ _ _ Hin) as (o & Ho & [-> | ->]).
    + auto.
    + rewrite Hf. auto.
Qed.

Lemma scout_ok_le (d d' : odict org_entry) (e : scout_entry) :
  org_le d d' -> scout_ok d e -> scout_ok d' e.
Proof.
  intros Hle (Hp & Hm). split; [exact Hp|]. intros Ht. eapply org_le_mem; eauto.
Qed.

Lemma ScoutsInv_le (d d' : odict org_entry) (l : list scout_entry) :
  org_le d d' -> ScoutsInv d l -> ScoutsInv d' l.
Proof.
  intros Hle (Hd & He). split; [exact Hd|]. intros e Hin.
  eapply scout_ok_le; eauto.
Qed.

Lemma SeenInv_le (d d' : odict org_entry) (sn : odict scout_entry) :
  org_le d d' -> SeenInv d sn -> SeenInv d' sn.
Proof.
  intros Hle (Hd & Hh & He). repeat split; auto.
  - now apply (He k e).
  - eapply scout_ok_le; eauto. now apply (He k e).
  - eapply scout_ok_le; eauto. now apply (He k e).
Qed.

(** * Steps that only add to the organizations *)

Lemma tame_pure {A : Type} (m : M A) : (forall s, snd (m s) = s) -> tame m.
Proof.
  intros H s HI. rewrite H. repeat split; try apply HI. apply org_le_refl.
Qed.

Lemma tame_modify (f : locals -> locals) :
  (forall s, orgs (f s) = orgs s) -> (forall s, scouts (f s) = scouts s) ->
  tame (modify f).
Proof.
  intros Ho Hs s HI. cbn. rewrite Ho, Hs.
  repeat split; try apply HI. apply org_le_refl.
Qed.

Lemma tame_bind {A B : Type} (m : M A) (k : A -> M B) :
  tame m -> (forall a, tame (k a)) -> tame (mbind m k).
Proof.
  intros Hm Hk s HI. unfold mbind. destruct (Hm s HI) as (H1 & H2 & H3).
  destruct (m s) as [[a | e] s1]; cbn in *; [| auto].
  destruct (Hk a s1 H1) as (G1 & G2 & G3).
  repeat split; try apply G1; [eapply org_le_trans; eauto | congruence].
Qed.

Lemma tame_for_each {A : Type} (l : list A) (body : A -> M unit) :
  (forall x, tame (body x)) -> tame (for_each l body).
Proof.
  intros Hb. induction l as [| x l IH]; [now apply tame_pure|].
  cbn. apply tame_bind; [apply Hb | intros _; exact IH].
Qed.

Lemma tame_when (b : bool) (m : M unit) : tame m -> tame (when b m).
Proof. destruct b; [auto | intros _; now apply tame_pure]. Qed.

Lemma tame_try_pass (m : M unit) : tame m -> tame (try_pass m).
Proof. intros H s HI. apply (H s HI). Qed.

Lemma tame_update (k : val) (f : org_entry -> org_entry) :
  (forall o, entry_le o (f o)) -> tame (set_orgs (od_update k f)).
Proof.
  intros Hf s HI. cbn. repeat split.
  - apply OrgInv_update; [exact HI|]. intros o. apply (Hf o).
  - apply OrgInv_update; [exact HI|]. intros o. apply (Hf o).
  - apply OrgInv_update; [exact HI|]. intros o. apply (Hf o).
  - now apply org_le_update.
Qed.

Lemma tame_request (cl : client) (c : call) : tame (request cl c).
Proof.
  intros s HI. cbn. repeat split; try apply HI. apply org_le_refl.
Qed.

Lemma entry_le_with_roles (x : val) (o : org_entry) :
  entry_le o (with_roles (append x (org_roles o)) o).
Proof.
  unfold entry_le, append; cbn. repeat split. apply incl_appl, incl_refl.
Qed.

Lemma entry_le_with_program (p : val) (o : org_entry) :
  entry_le o (with_program p o).
Proof. unfold entry_le; cbn. repeat split. apply incl_refl. Qed.

Lemma entry_le_with_scouts (l : list scout_ref) (o : org_entry) :
  entry_le o (with_scouts l o).
Proof. unfold entry_le; cbn. repeat split. apply incl_refl. Qed.

Ltac tame_step :=
  repeat first
    [ progress cbv zeta
    | match goal with
      | |- tame (mbind _ _) => apply tame_bind; [| intros ?]
      | |- tame (for_each _ _) => apply tame_for_each; intros ?
      | |- tame (when _ _) => apply tame_when
      | |- tame (try_pass _) => apply tame_try_pass
      | |- tame (request _ _) => apply tame_request
      | |- tame (set_orgs (od_update _ _)) => apply tame_update; intros ?
      | |- tame (modify _) => apply tame_modify; intros ?; reflexivity
      | |- tame (if ?b then _ else _) => destruct b
      | |- tame (lift _) => apply tame_pure; intros ?; reflexivity
      | |- tame (gets _) => apply tame_pure; intros ?; reflexivity
      | |- tame (ret _) => apply tame_pure; intros ?; reflexivity
      | |- tame (fun s => (_, s)) => apply tame_pure; intros ?; reflexivity
      | |- entry_le _ (with_roles _ _) => apply entry_le_with_roles
      | |- entry_le _ (with_program _ _) => apply entry_le_with_program
      | |- entry_le _ (with_scouts _ _) => apply entry_le_with_scouts
      end ].

Lemma add_role_tame (guid pos : val) : tame (add_role guid pos).
Proof. unfold add_role. tame_step. Qed.

(** Adding an organization under a key that was looked up first. *)
Lemma tame_ensure (guid : val) (o : org_entry) (rest : M unit) :
  org_orgGuid o = guid -> tame rest ->
  tame (known <- (fun s => (contains guid (orgs s), s)) ;;
        when (negb known) (set_orgs (od_add guid o)) >> rest).
Proof.
  intros Ho Hrest s HI. unfold mbind, contains.
  destruct (hashable guid) eqn:Hh; cbn.
  2: { repeat split; try apply HI. apply org_le_refl. }
  destruct (od_mem guid (orgs s)) eqn:Hm; cbn.
  - apply (Hrest s HI).
  - match goal with |- context [rest ?s1] => destruct (Hrest s1) as (G1 & G2 & G3) end.
    { cbn. now apply OrgInv_add. }
    cbn in G2, G3. repeat split; try apply G1; [| exact G3].
    eapply org_le_trans; [apply org_le_add | exact G2].
Qed.

Lemma seed_org_tame (org : val) : tame (seed_org org).
Proof.
  unfold seed_org. apply tame_bind; [tame_step | intros guid].
  destruct (negb (truthy guid)); [tame_step|].
  apply tame_ensure; [reflexivity|]. tame_step. apply add_role_tame.
Qed.

Lemma enrich_org_tame (scout guid : val) : tame (enrich_org scout guid).
Proof.
  intros s HI. unfold enrich_org, mbind, contains.
  destruct (hashable guid) eqn:Hh; cbn.
  2: { repeat split; try apply HI. apply org_le_refl. }
  destruct (od_mem guid (orgs s)) eqn:Hm; cbn.
  - assert (Ht : tame (o <- (fun s => (item guid (orgs s), s)) ;;
                       when (negb (py_in PARENT_GUARDIAN (org_roles o)))
                         (set_orgs (od_update guid
                            (fun o => with_roles (append PARENT_GUARDIAN (org_roles o)) o)))))
      by tame_step.
    apply (Ht s HI).
  - repeat split; try (apply OrgInv_add; auto; apply HI).
    apply org_le_add.
Qed.

Lemma add_position_tame (pg pos : val) : tame (add_position pg pos).
Proof. unfold add_position, set_seen. tame_step. Qed.

Lemma merge_scout_tame (scout : val) : tame (merge_scout scout).
Proof.
  unfold merge_scout, set_seen. tame_step.
  - apply add_position_tame.
  - apply enrich_org_tame.
Qed.

Lemma add_scout_ref_tame (scout : scout_entry) : tame (add_scout_ref scout).
Proof. unfold add_scout_ref. tame_step. Qed.

Lemma backfill_program_tame (role : val) : tame (backfill_program role).
Proof. unfold backfill_program. tame_step. Qed.

Lemma step_user_tame (cl : client) (uid : val) : tame (step_user cl uid).
Proof. unfold step_user, fetch_user_fields, set_user. tame_step. Qed.

Lemma step_orgs_tame (cl : client) (uid : val) : tame (step_orgs cl uid).
Proof. unfold step_orgs, fetch_profile_orgs. tame_step. apply seed_org_tame. Qed.

Lemma step_roles_tame (cl : client) (pgu : val) : tame (step_roles cl pgu).
Proof.
  unfold step_roles, fetch_roles. tame_step. apply backfill_program_tame.
Qed.

(** * The loop over the raw scouts *)

Lemma for_each_ok_inv {A : Type} (J : locals -> Prop) (body : A -> M unit) :
  (forall x s s', J s -> body x s = (Ok tt, s') -> J s') ->
  forall l s s', J s -> for_each l body s = (Ok tt, s') -> J s'.
Proof.
  intros Hb. induction l as [| x l IH]; cbn; intros s s' HJ H.
  - now injection H as <-.
  - unfold mbind in H. destruct (body x s) as [[[] | e] s1] eqn:Hx; [| discriminate].
    eapply IH; [| exact H]. eapply Hb; eauto.
Qed.

Lemma SeenPre_of_inv (d : odict org_entry) (sn : odict scout_entry) (guid : val) :
  SeenInv d sn -> SeenPre d sn guid.
Proof.
  intros (H1 & H2 & H3). repeat split; auto; try apply (H3 k e H).
  intros Ht. left. now apply (H3 k e H).
Qed.

Lemma seen_turn (scout pg guid : val) (is_seen : bool) (s s' : locals) :
  SeenInv (orgs s) (seen s) ->
  contains pg (seen s) = Ok is_seen ->
  (if negb is_seen then set_seen (od_add pg (new_scout scout pg guid))
   else add_position pg (field scout "position" VNone)) s = (Ok tt, s') ->
  orgs s' = orgs s /\ scouts s' = scouts s
  /\ SeenPre (orgs s) (seen s') guid.
Proof.
  intros HS. unfold contains.
  destruct (hashable pg) eqn:Hh; cbn; [| discriminate].
  intros [= <-].
  destruct (od_mem pg (seen s)) eqn:Hm; cbn.
  - unfold add_position, mbind, item.
    destruct (od_get pg (seen s)) as [e |] eqn:Hg; cbn; [| discriminate].
    destruct (truthy (field scout "position" VNone)
              && negb (py_in (field scout "position" VNone) (sc_positions e))) eqn:Hc;
      cbn; intros [= <-]; cbn.
    + split; [reflexivity|]. split; [reflexivity|].
      destruct HS as (H1 & H2 & H3). split; [now apply keys_distinct_update|].
      split; [now apply keys_hashable_update|].
      intros k e1 Hin.
      destruct (od_update_In_get _ _ _ _ _ Hin) as [Hold | (e0 & Hg0 & Hold & ->)].
      * destruct (H3 _ _ Hold) as (Hk & Hp & Ho). auto.
      * rewrite Hg in Hg0. injection Hg0 as <-.
        destruct (H3 _ _ Hold) as (Hk & Hp & Ho). cbn.
        repeat split; auto.
        apply py_distinct_append; [exact Hp|].
        apply andb_prop in Hc. destruct Hc as [_ Hc].
        now apply negb_true_iff in Hc.
    + split; [reflexivity|]. split; [reflexivity|]. now apply SeenPre_of_inv.
  - intros [= <-]; cbn. split; [reflexivity|]. split; [reflexivity|].
    destruct HS as (H1 & H2 & H3). repeat split.
    + now apply keys_distinct_add.
    + now apply keys_hashable_add.
    + apply in_app_or in H. destruct H as [H | [[= <- <-] | []]];
        [now apply (H3 k e) | reflexivity].
    + apply in_app_or in H. destruct H as [H | [[= <- <-] | []]];
        [now apply (H3 k e) | apply py_distinct_one].
    + apply in_app_or in H. destruct H as [H | [[= <- <-] | []]].
      * intros Ht. left. now apply (H3 k e).
      * intros _. now right.
Qed.

Lemma enrich_org_mem (scout guid : val) (s s' : locals) :
  enrich_org scout guid s = (Ok tt, s') ->
  od_mem guid (orgs s') = true /\ seen s' = seen s.
Proof.
  unfold enrich_org, mbind, contains.
  destruct (hashable guid) eqn:Hh; cbn; [| discriminate].
  destruct (od_mem guid (orgs s)) eqn:Hm; cbn.
  - unfold item. destruct (od_get guid (orgs s)) as [o |] eqn:Hg; cbn; [| discriminate].
    destruct (negb (py_in PARENT_GUARDIAN (org_roles o))); cbn; intros [= <-]; cbn.
    + split; [| reflexivity]. apply od_mem_get.
      eexists. apply od_get_update_same. exact Hg.
    + auto.
  - intros [= <-]; cbn. split; [| reflexivity].
    apply od_mem_get. exists (stub_org scout guid).
    rewrite od_get_add. apply od_mem_false_get in Hm. rewrite Hm.
    now rewrite py_eq_refl.
Qed.

Lemma SeenInv_nil (d : odict org_entry) : SeenInv d [].
Proof.
  split; [constructor | split]; [intros k [] | intros k e []].
Qed.

Lemma OrgInv_nil : OrgInv [].
Proof.
  split; [constructor | split]; [intros k [] | intros k e []].
Qed.

Lemma ScoutsInv_nil (d : odict org_entry) : ScoutsInv d [].
Proof.
  split; [constructor | intros e []].
Qed.

Lemma merge_scout_inv (scout : val) (s s' : locals) :
  LoopInv s -> merge_scout scout s = (Ok tt, s') -> LoopInv s'.
Proof.
  intros [HO HS] H.
  destruct (merge_scout_tame scout s HO) as (HO' & Hle & _).
  rewrite H in HO', Hle. cbn in HO', Hle. split; [exact HO'|].
  revert H. unfold merge_scout, mbind at 1, lift.
  destruct (py_get scout "personGuid") as [pg | e]; [| discriminate].
  unfold mbind at 1. destruct (py_get scout "orgGuid") as [guid | e]; [| discriminate].
  unfold mbind at 1.
  destruct (contains pg (seen s)) as [is_seen | e] eqn:Hc; [| discriminate].
  unfold mbind.
  match goal with
  | |- context [match ?m s with _ => _ end] =>
      destruct (m s) as [[[] | e] sA] eqn:HA; [| discriminate]
  end.
  destruct (seen_turn _ _ guid _ _ _ HS Hc HA) as (HoA & _ & H1 & H2 & H3).
  unfold when. destruct (truthy guid) eqn:Ht.
  - intros HB. destruct (enrich_org_mem _ _ _ _ HB) as [Hm Hsn].
    rewrite Hsn. repeat split; auto; try apply (H3 k e H).
    intros Hte. destruct (H3 k e H) as (_ & _ & [Hin | ->]); [exact Hte | |exact Hm].
    eapply org_le_mem; eauto.
  - intros [= <-]. rewrite HoA. repeat split; auto; try apply (H3 k e H).
    intros Hte. destruct (H3 k e H) as (_ & _ & [Hin | Heq]); [exact Hte | exact Hin |].
    congruence.
Qed.

Lemma tame_inv {A : Type} (m : M A) (s : locals) :
  tame m -> PassInv s -> PassInv (snd (m s)).
Proof.
  intros Hm [HO HS]. destruct (Hm s HO) as (H1 & H2 & H3).
  split; [exact H1|]. rewrite H3. eapply ScoutsInv_le; eauto.
Qed.

Lemma map_value_key {A : Type} (f : A -> val) (d : odict A) :
  (forall k v, In (k, v) d -> f v = k) -> map f (od_values d) = map fst d.
Proof.
  unfold od_values. induction d as [| [k v] d IH]; cbn; intros H; [reflexivity|].
  rewrite (H k v) by now left. f_equal. apply IH. intros k' v' Hin. apply H. now right.
Qed.

Lemma ScoutsInv_of_seen (d : odict org_entry) (sn : odict scout_entry) :
  SeenInv d sn -> ScoutsInv d (od_values sn).
Proof.
  intros (H1 & H2 & H3). split.
  - rewrite (map_value_key sc_personGuid sn); [exact H1|].
    intros k v Hin. now apply (H3 k v).
  - intros e Hin. unfold od_values in Hin. apply in_map_iff in Hin.
    destruct Hin as ([k e'] & <- & Hin). now apply (H3 k e').
Qed.

Lemma step_scouts_inv (cl : client) (uid : val) (s : locals) :
  PassInv s -> PassInv (snd (step_scouts cl uid s)).
Proof.
  intros HI. unfold step_scouts, when. destruct (truthy uid); [| exact HI].
  unfold try_pass, fetch_scouts. cbn [snd].
  unfold mbind at 1, request.
  destruct (cl (calls s) (GetMyScouts uid)) as [raw | e]; [| exact HI].
  unfold mbind at 1, set_seen, modify.
  unfold mbind at 1, lift.
  destruct (py_iter raw) as [items | e]; [| exact HI].
  unfold mbind at 1.
  match goal with
  | |- context [for_each items merge_scout ?st] =>
      set (s1 := st);
      assert (HI1 : PassInv s1) by exact HI;
      assert (HL1 : LoopInv s1)
  end.
  { split; [apply HI|]. apply SeenInv_nil. }
  pose proof (tame_inv _ s1 (tame_for_each items _ merge_scout_tame) HI1) as HI2.
  destruct (for_each items merge_scout s1) as [[[] | e] s2] eqn:Hloop;
    cbn [snd] in HI2; [| exact HI2].
  pose proof (for_each_ok_inv LoopInv merge_scout merge_scout_inv _ _ _ HL1 Hloop)
    as [HO2 HS2].
  unfold mbind at 1, gets. unfold mbind at 1, set_scouts, modify.
  match goal with
  | |- context [for_each ?l add_scout_ref ?st] =>
      apply (tame_inv (for_each l add_scout_ref) st)
  end.
  - apply tame_for_each. exact add_scout_ref_tame.
  - split; [exact HO2|]. cbn. now apply ScoutsInv_of_seen.
Qed.

Lemma refresh_steps_inv (cl : client) (uid pgu : val) :
  PassInv (snd (refresh_steps cl uid pgu (initial uid pgu))).
Proof.
  rewrite refresh_steps_unfold.
  apply tame_inv; [apply step_roles_tame|].
  apply step_scouts_inv.
  apply tame_inv; [apply step_orgs_tame|].
  apply tame_inv; [apply step_user_tame|].
  split; cbn; [apply OrgInv_nil | apply ScoutsInv_nil].
Qed.

Lemma od_mem_listed (d : odict org_entry) (g : val) :
  OrgInv d -> od_mem g d = true ->
  exists o, org_listed g o (od_values d).
Proof.
  intros (_ & _ & Hk) Hm. apply od_mem_get in Hm. destruct Hm as [o Ho].
  destruct (od_get_In _ _ _ Ho) as (k & Hin & He).
  exists o. split.
  - unfold od_values. apply in_map_iff. now exists (k, o).
  - now rewrite (Hk _ _ Hin).
Qed.

Section RefreshInvariants.
Context `{L : Stdlib}.

(** C6.  In every snapshot that [refresh] returns, no two
    organizations have equal identifiers, no two scouts have equal
    person identifiers, no positions list has two equal items, and every
    scout whose [orgGuid] is present (truthy) has an organization listed
    under it. *)
Theorem refresh_invariants (cl : client) (now_info now_save : Z)
    (tf : Auth.file) (c c' : context) (snap : snapshot) (cs : list call) :
  refresh cl now_info now_save tf c = (Ok snap, c', cs) ->
  py_distinct (map org_orgGuid (snap_organizations snap))
  /\ py_distinct (map sc_personGuid (snap_scouts snap))
  /\ (forall e, In e (snap_scouts snap) -> py_distinct (sc_positions e))
  /\ (forall e, In e (snap_scouts snap) ->
        truthy (sc_orgGuid e) = true ->
        exists o, org_listed (sc_orgGuid e) o (snap_organizations snap)).
Proof.
  intros H. destruct (refresh_inv _ _ _ _ _ _ _ _ H)
    as (info & uid & pgu & _ & _ & _ & _ & Ho & Hs & _).
  rewrite Ho, Hs. clear H Ho Hs.
  destruct (refresh_steps_inv cl uid pgu) as [HO [HD HE]].
  repeat split.
  - rewrite (map_value_key org_orgGuid); [apply HO|]. apply HO.
  - exact HD.
  - intros e Hin. now apply (HE e).
  - intros e Hin Ht. apply od_mem_listed; [exact HO|]. now apply (HE e).
Qed.

End RefreshInvariants.

Lemma backfilled_refl (items : list val) (d : odict org_entry) :
  program_backfilled items d d.
Proof.
  induction d; constructor; [split; auto | assumption].
Qed.

Lemma filled_incl (items items' : list val) (a b : val * org_entry) :
  incl items items' -> filled items a b -> filled items' a b.
Proof.
  intros Hi [Hk [He | (Hn & role & guid & Hin & H)]]; split; auto.
  right. split; [exact Hn|]. exists role, guid. split; [now apply Hi | exact H].
Qed.

Lemma backfilled_incl (items items' : list val) (d d' : odict org_entry) :
  incl items items' ->
  program_backfilled items d d' -> program_backfilled items' d d'.
Proof.
  intros Hi H. induction H; constructor; eauto using filled_incl.
Qed.

Lemma filled_trans (items : list val) (a b c : val * org_entry) :
  filled items a b -> filled items b c -> filled items a c.
Proof.
  destruct a as [ka oa], b as [kb ob], c as [kc oc]. unfold filled. cbn.
  intros [Hk1 H1] [Hk2 H2]. subst kb kc. split; [reflexivity|].
  destruct H2 as [-> | (Hn & role & guid & Hin & Hg & He & Ht & ->)];
    [exact H1|].
  destruct H1 as [-> | (_ & r1 & g1 & _ & _ & _ & _ & ->)].
  - right. split; [exact Hn|]. exists role, guid. auto.
  - discriminate Hn.
Qed.

Lemma backfilled_trans (items : list val) (d1 d2 d3 : odict org_entry) :
  program_backfilled items d1 d2 -> program_backfilled items d2 d3 ->
  program_backfilled items d1 d3.
Proof.
  intros H. revert d3. induction H; intros d3 H3; inversion H3; subst;
    constructor; eauto using filled_trans.
  now apply IHForall2.
Qed.

Lemma backfilled_update (role guid : val) (o : org_entry)
    (d : odict org_entry) :
  py_get role "organizationGuid" = Ok guid ->
  truthy (field role "programType" VNone) = true ->
  od_get guid d = Some o -> org_program o = None ->
  program_backfilled [role] d
    (od_update guid (with_program (field role "programType" VNone)) d).
Proof.
  intros Hg Ht. induction d as [| [k v] d IH]; cbn; [constructor|].
  destruct (py_eq k guid) eqn:Hk.
  - intros [= ->] Hn. constructor; [| apply backfilled_refl].
    split; [reflexivity|]. right. split; [exact Hn|].
    exists role, guid. cbn. auto.
  - intros Ho Hn. constructor; [split; auto | now apply IH].
Qed.

Lemma roles_frame_refl (items : list val) (s : locals) : roles_frame items s s.
Proof.
  repeat split. apply backfilled_refl.
Qed.

Lemma backfill_program_frame (role : val) (s : locals) :
  roles_frame [role] s (snd (backfill_program role s)).
Proof.
  unfold backfill_program, mbind at 1, lift.
  destruct (py_get role "organizationGuid") as [guid | e] eqn:Hg;
    [| apply roles_frame_refl].
  unfold when. destruct (truthy guid); [| apply roles_frame_refl].
  unfold mbind at 1.
  destruct (contains guid (orgs s)) as [[] | e]; try apply roles_frame_refl.
  unfold mbind, item.
  destruct (od_get guid (orgs s)) as [o |] eqn:Ho; [| apply roles_frame_refl].
  destruct (truthy (field role "programType" VNone)) eqn:Ht;
    [| apply roles_frame_refl].
  destruct (org_program o) eqn:Hn; cbn; [apply roles_frame_refl|].
  repeat split. cbn. eapply backfilled_update; eauto.
Qed.

Lemma backfill_loop_frame (items : list val) (s : locals) :
  roles_frame items s (snd (for_each items backfill_program s)).
Proof.
  revert s. induction items as [| role items IH]; intros s; cbn;
    [apply roles_frame_refl|].
  unfold mbind. pose proof (backfill_program_frame role s) as H1.
  destruct (backfill_program role s) as [[[] | e] s1]; cbn [snd] in *.
  - specialize (IH s1).
    destruct H1 as (U1 & S1 & C1 & L1 & B1), IH as (U2 & S2 & C2 & L2 & B2).
    repeat split; try congruence.
    eapply backfilled_trans.
    + eapply backfilled_incl; [| exact B1]. intros x [<- | []]. now left.
    + eapply backfilled_incl; [| exact B2]. intros x Hx. now right.
  - destruct H1 as (U1 & S1 & C1 & L1 & B1). repeat split; auto.
    eapply backfilled_incl; [| exact B1]. intros x [<- | []]. now left.
Qed.

(** C8.  The roles step leaves the user, the scouts and the keys and
    order of the organizations as they were.  Each organization is either
    untouched, or it had no program and now has the truthy program type
    of a role entry bearing its identifier, all its other fields being
    the same ([program_backfilled]). *)
Theorem step_roles_backfills_missing_program_only
    (cl : client) (person_guid : val) (s : locals) :
  let s' := snd (step_roles cl person_guid s) in
  user s' = user s /\ seen s' = seen s /\ scouts s' = scouts s
  /\ program_backfilled (role_entries cl person_guid s) (orgs s) (orgs s').
Proof.
  intros s'. assert (E : s' = snd (step_roles cl person_guid s)) by reflexivity.
  clearbody s'. revert E. unfold step_roles, role_entries, when.
  destruct (truthy person_guid);
    [| intros ->; cbn; repeat split; apply backfilled_refl].
  unfold try_pass, fetch_roles. cbn [snd]. unfold mbind at 1, request.
  cbn beta.
  destruct (cl (calls s) (GetRoleTypes person_guid)) as [roles | e];
    [| intros ->; cbn; repeat split; apply backfilled_refl].
  unfold mbind, lift. cbn beta.
  destruct (py_iter roles) as [items | e];
    [| intros ->; cbn; repeat split; apply backfilled_refl].
  intros ->.
  match goal with
  | |- context [for_each items backfill_program ?st] =>
      destruct (backfill_loop_frame items st) as (U & S & C & _ & B)
  end.
  repeat split; assumption.
Qed.

Lemma filled_known_kept (items : list val) (k k' : val) (o o' : org_entry)
    (p : val) :
  filled items (k, o) (k', o') -> org_program o = Some p -> o' = o.
Proof.
  intros [_ [H | (Hn & _)]] Hp; cbn in *; congruence.
Qed.

Lemma filled_other_fields (items : list val) (k k' : val) (o o' : org_entry) :
  filled items (k, o) (k', o') ->
  k' = k /\ org_orgGuid o' = org_orgGuid o /\ org_name o' = org_name o
  /\ org_unitType o' = org_unitType o /\ org_unitNumber o' = org_unitNumber o
  /\ org_roles o' = org_roles o /\ org_scouts o' = org_scouts o.
Proof.
  intros [Hk [H | (_ & role & guid & _ & _ & _ & _ & H)]]; cbn in *; subst;
    repeat split.
Qed.

Lemma backfill_program_fills (role guid : val) (o : org_entry) (s : locals) :
  py_get role "organizationGuid" = Ok guid ->
  truthy guid = true -> hashable guid = true ->
  od_get guid (orgs s) = Some o -> org_program o = None ->
  truthy (field role "programType" VNone) = true ->
  orgs (snd (backfill_program role s))
  = od_update guid (with_program (field role "programType" VNone)) (orgs s).
Proof.
  intros Hg Ht Hh Ho Hn Hp. unfold backfill_program, mbind at 1, lift.
  rewrite Hg. unfold when. rewrite Ht. unfold mbind at 1, contains.
  rewrite Hh. assert (Hm : od_mem guid (orgs s) = true).
  { apply od_mem_get. now exists o. }
  rewrite Hm. unfold mbind, item. rewrite Ho, Hp, Hn. reflexivity.
Qed.

Lemma record_get (r : val) (k : string) :
  is_record r = true -> py_get r k = Ok (field r k VNone).
Proof.
  destruct r; cbn; try discriminate. intros _. reflexivity.
Qed.

Lemma record_hashable (r : val) :
  is_record r = true ->
  hashable (field r "personGuid" VNone) = true
  /\ hashable (field r "orgGuid" VNone) = true.
Proof.
  destruct r; cbn; try discriminate. intros H. now apply andb_true_iff in H.
Qed.

Lemma merge_scout_record (r : val) (s : locals) :
  is_record r = true -> merge_scout r s = merge_record r s.
Proof.
  intros Hr. destruct (record_hashable r Hr) as [Hp Hg].
  unfold merge_scout, merge_record. cbv zeta.
  unfold mbind at 1, lift. rewrite (record_get r _ Hr).
  unfold mbind at 1. rewrite (record_get r _ Hr).
  unfold mbind at 1, contains. rewrite Hp. reflexivity.
Qed.

Lemma add_position_ok (pg pos : val) (s : locals) :
  od_mem pg (seen s) = true ->
  exists s', add_position pg pos s = (Ok tt, s') /\ orgs s' = orgs s.
Proof.
  intros Hm. apply od_mem_get in Hm. destruct Hm as [e He].
  unfold add_position, mbind, item. rewrite He. unfold when.
  destruct (truthy pos && negb (py_in pos (sc_positions e)));
    eexists; split; reflexivity.
Qed.

Lemma enrich_org_ok (r guid : val) (s : locals) :
  hashable guid = true -> exists s', enrich_org r guid s = (Ok tt, s').
Proof.
  intros Hh. unfold enrich_org, mbind, contains. rewrite Hh.
  destruct (od_mem guid (orgs s)) eqn:Hm; cbn; [| eexists; reflexivity].
  apply od_mem_get in Hm. destruct Hm as [o Ho]. unfold item. rewrite Ho.
  unfold when. destruct (negb (py_in PARENT_GUARDIAN (org_roles o)));
    eexists; reflexivity.
Qed.

Lemma merge_scout_ok (r : val) (s : locals) :
  is_record r = true -> exists s', merge_scout r s = (Ok tt, s').
Proof.
  intros Hr. rewrite (merge_scout_record r s Hr).
  destruct (record_hashable r Hr) as [Hp Hg].
  unfold merge_record. cbv zeta. unfold mbind.
  destruct (od_mem (field r "personGuid" VNone) (seen s)) eqn:Hm; cbn [negb].
  - destruct (add_position_ok _ (field r "position" VNone) s Hm) as (s1 & H1 & _).
    rewrite H1. unfold when. destruct (truthy _); [| eexists; reflexivity].
    now apply enrich_org_ok.
  - cbn. unfold when. destruct (truthy _); [| eexists; reflexivity].
    now apply enrich_org_ok.
Qed.

Lemma merge_loop_ok (items : list val) (s : locals) :
  forallb is_record items = true ->
  exists s', for_each items merge_scout s = (Ok tt, s').
Proof.
  revert s. induction items as [| r items IH]; intros s; cbn.
  - intros _. eexists; reflexivity.
  - intros H. apply andb_true_iff in H. destruct H as [Hr Hi].
    destruct (merge_scout_ok r s Hr) as [s1 H1]. unfold mbind. rewrite H1.
    now apply IH.
Qed.

Lemma enrich_org_seen (r guid : val) (s : locals) :
  seen (snd (enrich_org r guid s)) = seen s.
Proof.
  assert (H : keeps seen (enrich_org r guid)).
  { unfold enrich_org, set_orgs. frame. }
  apply H.
Qed.

Lemma has_position_add (pg k : val) (p : string) (e : scout_entry)
    (sn : odict scout_entry) :
  has_position pg p sn -> has_position pg p (od_add k e sn).
Proof.
  intros (e0 & H0 & Hin). exists e0. rewrite od_get_add, H0. auto.
Qed.

Lemma has_position_update (pg k x : val) (p : string)
    (sn : odict scout_entry) :
  has_position pg p sn ->
  has_position pg p
    (od_update k (fun e => with_positions (append x (sc_positions e)) e) sn).
Proof.
  intros (e0 & H0 & Hin).
  destruct (od_get_update pg k
              (fun e => with_positions (append x (sc_positions e)) e) sn e0 H0)
    as (e' & He' & Hc).
  exists e'. split; [exact He'|].
  destruct Hc as [-> | ->]; [exact Hin|].
  cbn. unfold append. apply in_or_app. now left.
Qed.

Lemma add_position_keeps (pg k pos : val) (p : string) (s : locals) :
  has_position pg p (seen s) ->
  has_position pg p (seen (snd (add_position k pos s))).
Proof.
  intros H. unfold add_position, mbind, item.
  destruct (od_get k (seen s)) as [e |]; [| exact H].
  unfold when. destruct (truthy pos && negb (py_in pos (sc_positions e)));
    [| exact H].
  cbn. now apply has_position_update.
Qed.

Lemma merge_record_keeps (r pg : val) (p : string) (s : locals) :
  has_position pg p (seen s) ->
  has_position pg p (seen (snd (merge_record r s))).
Proof.
  intros H. unfold merge_record. cbv zeta. unfold mbind at 1.
  match goal with
  | |- context [match ?m with _ => _ end] =>
      assert (H1 : has_position pg p (seen (snd m)))
  end.
  { destruct (negb (od_mem _ (seen s))).
    - cbn. now apply has_position_add.
    - now apply add_position_keeps. }
  match goal with
  | |- context [match ?m with _ => _ end] =>
      destruct m as [[[] | e] s1]
  end; cbn [snd] in *; [| exact H1].
  unfold when. destruct (truthy _); [| exact H1].
  now rewrite enrich_org_seen.
Qed.

Lemma merge_record_lists (r : val) (p : string) (s : locals) :
  hashable (field r "personGuid" VNone) = true ->
  field r "position" VNone = VStr p -> p <> "" ->
  has_position (field r "personGuid" VNone) p (seen (snd (merge_record r s))).
Proof.
  intros Hh Hp Hne. unfold merge_record. cbv zeta. unfold mbind at 1.
  match goal with
  | |- context [match ?m with _ => _ end] =>
      assert (H1 : has_position (field r "personGuid" VNone) p (seen (snd m)))
  end.
  { destruct (od_mem _ (seen s)) eqn:Hm; cbn [negb].
    - apply od_mem_get in Hm. destruct Hm as [e He].
      unfold add_position, mbind, item. rewrite He, Hp. unfold when.
      assert (Ht : truthy (VStr p) = true).
      { destruct p; [contradiction | reflexivity]. }
      rewrite Ht. cbn [andb].
      destruct (py_in (VStr p) (sc_positions e)) eqn:Hin; cbn [negb snd].
      + exists e. split; [exact He | now apply py_in_str].
      + cbn [seen set_seen modify snd].
        eexists. split; [apply od_get_update_same; exact He|].
        cbn. unfold append. apply in_or_app. right. now left.
    - cbn. eexists. split.
      + rewrite od_get_add. apply od_mem_false_get in Hm. rewrite Hm.
        now rewrite py_eq_refl.
      + cbn. left. exact Hp. }
  match goal with
  | |- context [match ?m with _ => _ end] =>
      destruct m as [[[] | e] s1]
  end; cbn [snd] in *; [| exact H1].
  unfold when. destruct (truthy _); [| exact H1].
  now rewrite enrich_org_seen.
Qed.

Lemma merge_loop_lists (items : list val) (r : val) (p : string)
    (s s' : locals) :
  forallb is_record items = true ->
  for_each items merge_scout s = (Ok tt, s') ->
  (In r items /\ field r "position" VNone = VStr p /\ p <> ""
   \/ has_position (field r "personGuid" VNone) p (seen s)) ->
  has_position (field r "personGuid" VNone) p (seen s').
Proof.
  revert s. induction items as [| x items IH]; intros s; cbn.
  - intros _ [= <-] [([] & _) | H]. exact H.
  - intros Hf. apply andb_true_iff in Hf. destruct Hf as [Hx Hi].
    unfold mbind. rewrite (merge_scout_record x s Hx).
    destruct (merge_record x s) as [[[] | e] s1] eqn:H1; [| discriminate].
    intros Hl Hc. apply (IH s1 Hi Hl).
    destruct Hc as [([<- | Hin] & Hp & Hne) | H].
    + right. replace s1 with (snd (merge_record x s)) by now rewrite H1.
      apply merge_record_lists; auto. now apply record_hashable.
    + left. auto.
    + right. replace s1 with (snd (merge_record x s)) by now rewrite H1.
      now apply merge_record_keeps.
Qed.

(** * Counting the entries under a key *)

Lemma filter_none {A : Type} (g : A -> bool) (l : list A) :
  (forall x, In x l -> g x = false) -> filter g l = [].
Proof.
  induction l as [| x l IH]; cbn; intros H; [reflexivity|].
  rewrite H by now left. apply IH. intros y Hy. apply H. now right.
Qed.

Section Unique.
Context {A : Type} (f : A -> val).
Implicit Types (d : odict A) (k : val) (v : A).

Lemma keys_no_other k0 v0 d k :
  keys_distinct ((k0, v0) :: d) -> keys_hashable ((k0, v0) :: d) ->
  hashable k = true -> py_eq k0 k = true ->
  forall k1, In k1 (map fst d) -> py_eq k1 k = false.
Proof.
  intros Hd Hh Hk H0 k1 Hin. inversion Hd as [| ? ? Hall _]; subst.
  rewrite Forall_forall in Hall. specialize (Hall k1 Hin).
  destruct (py_eq k1 k) eqn:H1; [| reflexivity].
  assert (Hk1 : hashable k1 = true) by (apply Hh; now right).
  rewrite (py_eq_sym k1 k Hk1 Hk) in H1.
  rewrite (py_eq_trans k0 k k1 Hk H0 H1) in Hall. discriminate Hall.
Qed.

Lemma keys_distinct_tail k0 v0 d :
  keys_distinct ((k0, v0) :: d) -> keys_distinct d.
Proof. intros Hd. now inversion Hd. Qed.

Lemma keys_hashable_tail k0 v0 d :
  keys_hashable ((k0, v0) :: d) -> keys_hashable d.
Proof. intros Hh k Hin. apply Hh. now right. Qed.

Lemma entry_is_get d k v :
  keys_distinct d -> keys_hashable d -> hashable k = true ->
  (forall k' v', In (k', v') d -> f v' = k') ->
  In v (od_values d) -> py_eq (f v) k = true -> od_get k d = Some v.
Proof.
  induction d as [| [k0 v0] d IH]; cbn; intros Hd Hh Hk Hf Hin He; [contradiction|].
  destruct Hin as [-> | Hin].
  - rewrite (Hf k0 v) in He by now left. now rewrite He.
  - destruct (py_eq k0 k) eqn:H0.
    + unfold od_values in Hin. apply in_map_iff in Hin.
      destruct Hin as ([k1 v1] & <- & Hin1). cbn in He.
      rewrite (Hf k1 v1) in He by now right.
      rewrite (keys_no_other k0 v0 d k Hd Hh Hk H0 k1) in He; [discriminate He|].
      apply in_map_iff. now exists (k1, v1).
    + apply IH; eauto using keys_distinct_tail, keys_hashable_tail.
Qed.

Lemma count_under_key d k :
  keys_distinct d -> keys_hashable d -> hashable k = true ->
  (forall k' v', In (k', v') d -> f v' = k') ->
  od_mem k d = true ->
  List.length (filter (fun v => py_eq (f v) k) (od_values d)) = 1%nat.
Proof.
  induction d as [| [k0 v0] d IH]; cbn; intros Hd Hh Hk Hf Hm; [discriminate|].
  rewrite (Hf k0 v0) by now left.
  destruct (py_eq k0 k) eqn:H0; cbn in *.
  - f_equal. clear IH Hm.
    assert (Hno : forall v, In v (od_values d) -> py_eq (f v) k = false).
    { intros v Hin. unfold od_values in Hin. apply in_map_iff in Hin.
      destruct Hin as ([k1 v1] & <- & Hin1). cbn.
      rewrite (Hf k1 v1) by now right.
      apply (keys_no_other k0 v0 d k Hd Hh Hk H0).
      apply in_map_iff. now exists (k1, v1). }
    fold (od_values d). now rewrite (filter_none _ _ Hno).
  - apply IH; eauto using keys_distinct_tail, keys_hashable_tail.
Qed.

End Unique.

(** * The scouts step on a list of records *)

Lemma step_scouts_records (cl : client) (uid : val) (items : list val)
    (s : locals) :
  truthy uid = true ->
  cl (calls s) (GetMyScouts uid) = Ok (VList items) ->
  forallb is_record items = true ->
  exists s2,
    for_each items merge_scout (scouts_start uid s) = (Ok tt, s2)
    /\ snd (step_scouts cl uid s)
       = snd (for_each (od_values (seen s2)) add_scout_ref (scouts_listed s2)).
Proof.
  intros Ht Hcl Hr.
  destruct (merge_loop_ok items (scouts_start uid s) Hr) as [s2 H2].
  exists s2. split; [exact H2|].
  unfold step_scouts, when. rewrite Ht. unfold try_pass, fetch_scouts.
  cbn [snd]. unfold mbind at 1, request. cbn beta. rewrite Hcl.
  unfold mbind at 1, set_seen, modify.
  unfold mbind at 1, lift. cbn [py_iter].
  unfold mbind at 1.
  match goal with
  | |- context [for_each items merge_scout ?st] =>
      change st with (scouts_start uid s)
  end.
  rewrite H2. reflexivity.
Qed.

Lemma step_roles_keeps_scouts (cl : client) (pgu : val) :
  keeps scouts (step_roles cl pgu).
Proof.
  unfold step_roles, fetch_roles, backfill_program, set_orgs. frame.
  unfold request. intros s. reflexivity.
Qed.

Lemma add_scout_ref_keeps_scouts (e : scout_entry) :
  keeps scouts (add_scout_ref e).
Proof. unfold add_scout_ref, set_orgs. frame. Qed.

Lemma add_scout_ref_keeps_seen (e : scout_entry) :
  keeps seen (add_scout_ref e).
Proof. unfold add_scout_ref, set_orgs. frame. Qed.

Lemma before_scouts_calls (cl : client) (uid pgu : val) :
  truthy uid = true ->
  calls (before_scouts cl uid pgu)
  = [GetPersonProfile uid; GetPersonProfile uid].
Proof.
  intros Ht. unfold before_scouts.
  rewrite step_orgs_calls, step_user_calls, Ht. reflexivity.
Qed.

Lemma before_scouts_inv (cl : client) (uid pgu : val) :
  PassInv (before_scouts cl uid pgu).
Proof.
  unfold before_scouts.
  apply tame_inv; [apply step_orgs_tame|].
  apply tame_inv; [apply step_user_tame|].
  split; cbn; [apply OrgInv_nil | apply ScoutsInv_nil].
Qed.

(** What the merge loop leaves, for a list of records. *)
Lemma merged_records (cl : client) (uid pgu : val) (items : list val) :
  truthy uid = true ->
  cl [GetPersonProfile uid; GetPersonProfile uid] (GetMyScouts uid)
  = Ok (VList items) ->
  forallb is_record items = true ->
  exists s2,
    for_each items merge_scout (scouts_start uid (before_scouts cl uid pgu))
    = (Ok tt, s2)
    /\ LoopInv s2
    /\ scouts (snd (refresh_steps cl uid pgu (initial uid pgu)))
       = od_values (seen s2)
    /\ org_le (orgs s2)
         (orgs (snd (refresh_steps cl uid pgu (initial uid pgu)))).
Proof.
  intros Ht Hcl Hr. rewrite <- (before_scouts_calls cl uid pgu Ht) in Hcl.
  destruct (step_scouts_records cl uid items _ Ht Hcl Hr) as (s2 & H2 & E).
  exists s2. split; [exact H2|].
  assert (HL : LoopInv s2).
  { apply (for_each_ok_inv LoopInv merge_scout merge_scout_inv _ _ _) in H2;
      [exact H2|].
    split; [apply before_scouts_inv | apply SeenInv_nil]. }
  split; [exact HL|].
  rewrite refresh_steps_unfold. fold (before_scouts cl uid pgu). rewrite E.
  pose proof (tame_for_each (od_values (seen s2)) add_scout_ref
                add_scout_ref_tame (scouts_listed s2) (proj1 HL))
    as (HO3 & Hle3 & Hs3).
  destruct (step_roles_tame cl pgu _ HO3) as (_ & Hle4 & Hs4).
  split.
  - rewrite Hs4, Hs3. reflexivity.
  - eapply org_le_trans; [exact Hle3 | exact Hle4].
Qed.

Lemma info_pgu (info uid : val) :
  py_get info "uid" = Ok uid -> exists pgu, py_get info "pgu" = Ok pgu.
Proof.
  destruct info; try discriminate. intros _. eexists. reflexivity.
Qed.

Section MergeFacts.
Context `{L : Stdlib}.

Lemma refresh_runs (cl : client) (now_info now_save : Z) (tf : Auth.file)
    (c : context) (info uid pgu : val) :
  Auth.get_token_info now_info tf = Ok info ->
  py_get info "uid" = Ok uid -> py_get info "pgu" = Ok pgu ->
  exists snap c' cs,
    refresh cl now_info now_save tf c = (Ok snap, c', cs)
    /\ snap_scouts snap
       = scouts (snd (refresh_steps cl uid pgu (initial uid pgu)))
    /\ snap_organizations snap
       = od_values (orgs (snd (refresh_steps cl uid pgu (initial uid pgu)))).
Proof.
  intros Hi Hu Hp. unfold refresh. rewrite Hi, Hu, Hp. cbn.
  do 3 eexists. split; [reflexivity|]. split; reflexivity.
Qed.

(** C4.  When the list fetched from the client is a list of
    dependent records, two of which share a person identifier and carry
    different, non-empty position strings, [refresh] returns a snapshot
    with exactly one scout entry under that identifier; the positions
    of that entry hold both strings and no two equal items. *)
Theorem refresh_merges_positions (cl : client) (now_info now_save : Z)
    (tf : Auth.file) (c : context) (info uid : val) (items : list val)
    (r1 r2 pg : val) (p1 p2 : string) :
  Auth.get_token_info now_info tf = Ok info ->
  py_get info "uid" = Ok uid -> truthy uid = true ->
  cl [GetPersonProfile uid; GetPersonProfile uid] (GetMyScouts uid)
  = Ok (VList items) ->
  forallb is_record items = true ->
  In r1 items -> In r2 items ->
  field r1 "personGuid" VNone = pg -> field r2 "personGuid" VNone = pg ->
  field r1 "position" VNone = VStr p1 -> field r2 "position" VNone = VStr p2 ->
  p1 <> "" -> p2 <> "" -> p1 <> p2 ->
  exists snap c' cs,
    refresh cl now_info now_save tf c = (Ok snap, c', cs)
    /\ entries_for pg (snap_scouts snap) = 1%nat
    /\ forall e, In e (snap_scouts snap) ->
         py_eq (sc_personGuid e) pg = true ->
         In (VStr p1) (sc_positions e) /\ In (VStr p2) (sc_positions e)
         /\ py_distinct (sc_positions e).
Proof.
  intros Hi Hu Ht Hcl Hr Hin1 Hin2 Hpg1 Hpg2 Hp1 Hp2 Hn1 Hn2 _.
  destruct (info_pgu info uid Hu) as [pgu Hp].
  destruct (refresh_runs cl now_info now_save tf c info uid pgu Hi Hu Hp)
    as (snap & c' & cs & Hrun & Hsc & _).
  exists snap, c', cs. split; [exact Hrun|]. rewrite Hsc. clear Hrun Hsc.
  destruct (merged_records cl uid pgu items Ht Hcl Hr)
    as (s2 & H2 & [HO (Hkd & Hkh & Hent)] & -> & _).
  assert (Hh : hashable pg = true).
  { subst pg. apply record_hashable.
    rewrite forallb_forall in Hr. now apply Hr. }
  assert (Hkey : forall k' v', In (k', v') (seen s2) -> sc_personGuid v' = k').
  { intros k' v' Hin. now apply (Hent k' v'). }
  pose proof (merge_loop_lists items r1 p1 _ _ Hr H2
                (or_introl (conj Hin1 (conj Hp1 Hn1)))) as (e1 & Hg1 & Hl1).
  pose proof (merge_loop_lists items r2 p2 _ _ Hr H2
                (or_introl (conj Hin2 (conj Hp2 Hn2)))) as (e2 & Hg2 & Hl2).
  rewrite Hpg1 in Hg1. rewrite Hpg2 in Hg2.
  split.
  - unfold entries_for. apply count_under_key; auto.
    apply od_mem_get. now exists e1.
  - intros e Hin He.
    pose proof (entry_is_get sc_personGuid _ _ _ Hkd Hkh Hh Hkey Hin He) as Hg.
    assert (e1 = e) by congruence. assert (e2 = e) by congruence. subst e1 e2.
    repeat split; auto.
    unfold od_values in Hin. apply in_map_iff in Hin.
    destruct Hin as ([k e'] & <- & Hin). now apply (Hent k e').
Qed.

End MergeFacts.

Lemma merge_keeps_both_counterexample :
  exists snap c' cs,
    refresh (L := Samples.stdlib)
      (Samples.client_of (Ok Samples.profile) (Ok Samples.empty_second)
         (Ok Samples.roles))
      Samples.now_2026 Samples.now_2026 Samples.valid_file
      Samples.empty_context = (Ok snap, c', cs)
    /\ entries_for (VStr "pg-1") (snap_scouts snap) = 1%nat
    /\ forall e, In e (snap_scouts snap) ->
         py_eq (sc_personGuid e) (VStr "pg-1") = true ->
         ~ In (VStr "") (sc_positions e).
Proof.
  do 3 eexists. split; [vm_compute; reflexivity|]. split; [reflexivity|].
  intros e He _ Hin. vm_compute in He. destruct He as [<- | []].
  vm_compute in Hin. destruct Hin as [H | []]. discriminate H.
Qed.

Lemma refresh_merges_positions_witness :
  exists snap c' cs,
    refresh (L := Samples.stdlib)
      (Samples.client_of (Ok Samples.profile) (Ok Samples.two_positions)
         (Ok Samples.roles))
      Samples.now_2026 Samples.now_2026 Samples.valid_file
      Samples.empty_context = (Ok snap, c', cs)
    /\ entries_for (VStr "pg-1") (snap_scouts snap) = 1%nat
    /\ forall e, In e (snap_scouts snap) ->
         py_eq (sc_personGuid e) (VStr "pg-1") = true ->
         In (VStr "Scouts BSA") (sc_positions e)
         /\ In (VStr "Scribe") (sc_positions e)
         /\ py_distinct (sc_positions e).
Proof.
  apply (refresh_merges_positions (L := Samples.stdlib) _ _ _ _ _
           (VDict [("token", VStr Samples.good_token);
                   ("expires_at", VStr "2999-01-01T00:00:00+00:00");
                   ("uid", VInt 7); ("pgu", VStr "pg-0");
                   ("is_expired", VBool false)]) (VInt 7)
           [Samples.dependent "pg-1" "org-2" "Scouts BSA";
            Samples.dependent "pg-1" "org-2" "Scribe"]
           (Samples.dependent "pg-1" "org-2" "Scouts BSA")
           (Samples.dependent "pg-1" "org-2" "Scribe")
           (VStr "pg-1") "Scouts BSA" "Scribe").
  - reflexivity.
  - reflexivity.
  - reflexivity.
  - reflexivity.
  - reflexivity.
  - simpl. left. reflexivity.
  - simpl. right. left. reflexivity.
  - reflexivity.
  - reflexivity.
  - reflexivity.
  - reflexivity.
  - intros H. discriminate H.
  - intros H. discriminate H.
  - intros H. discriminate H.
Defined.

Lemma rstrip_empty (s : string) : rstrip s = "" <-> blank s = true.
Proof.
  induction s as [| c s IH]; cbn; [tauto|].
  destruct (rstrip s) eqn:Hr.
  - destruct (is_space c); cbn.
    + split; [intros _; now apply IH | reflexivity].
    + split; discriminate.
  - split; [discriminate|]. intros H. apply andb_true_iff in H.
    destruct H as [_ H]. apply IH in H. discriminate H.
Qed.

Lemma lstrip_blank (s : string) : blank (lstrip s) = blank s.
Proof.
  induction s as [| c s IH]; cbn; [reflexivity|].
  destruct (is_space c) eqn:Hc; cbn; [exact IH | now rewrite Hc].
Qed.

Lemma strip_empty (s : string) : strip s = "" <-> blank s = true.
Proof.
  unfold strip. rewrite rstrip_empty. now rewrite lstrip_blank.
Qed.

Lemma blank_app (a b : string) : blank (a ++ b) = blank a && blank b.
Proof.
  induction a as [| c a IH]; cbn; [reflexivity|].
  now rewrite IH, andb_assoc.
Qed.

Lemma stub_name_of_unit (r : val) (u : string) :
  field r "unitType" (VStr "") = VStr u -> blank u = false ->
  exists name,
    stub_name r = VStr name /\ name <> ""
    /\ name = strip (u ++ " " ++ py_str (field r "unitNumber" (VStr ""))).
Proof.
  intros Hu Hb. unfold stub_name. cbv zeta. rewrite Hu.
  assert (Ht : truthy (VStr u) = true).
  { destruct u; [discriminate Hb | reflexivity]. }
  rewrite Ht. unfold spaced. cbn [py_str]. eexists. split; [reflexivity|].
  split; [| reflexivity].
  intros H. apply strip_empty in H. rewrite blank_app, Hb in H. discriminate H.
Qed.

Lemma for_each_app {A : Type} (l1 l2 : list A) (body : A -> M unit)
    (s : locals) :
  for_each (l1 ++ l2) body s
  = mbind (for_each l1 body) (fun _ => for_each l2 body) s.
Proof.
  revert s. induction l1 as [| x l1 IH]; intros s; cbn; [reflexivity|].
  unfold mbind. destruct (body x s) as [[[] | e] s1]; [| reflexivity].
  rewrite IH. reflexivity.
Qed.

Lemma add_position_keeps_orgs (pg pos : val) : keeps orgs (add_position pg pos).
Proof. unfold add_position, set_seen. frame. Qed.

Lemma enrich_org_absent (r g guid : val) (s : locals) :
  od_get guid (orgs s) = None -> py_eq g guid = false ->
  od_get guid (orgs (snd (enrich_org r g s))) = None.
Proof.
  intros Hn Hg. unfold enrich_org, mbind.
  destruct (contains g (orgs s)) as [[] | e]; cbn [negb snd]; [ | | exact Hn].
  - destruct (item g (orgs s)) as [o | e]; cbn [snd]; [| exact Hn].
    unfold when. destruct (negb _); [| exact Hn]. cbn.
    now apply od_get_update_none.
  - cbn. rewrite od_get_add, Hn, Hg. reflexivity.
Qed.

Lemma merge_record_absent (x guid : val) (s : locals) :
  od_get guid (orgs s) = None ->
  py_eq (field x "orgGuid" VNone) guid = false ->
  od_get guid (orgs (snd (merge_record x s))) = None.
Proof.
  intros Hn Hg. unfold merge_record. cbv zeta. unfold mbind at 1.
  match goal with
  | |- context [match ?m with _ => _ end] =>
      assert (H1 : orgs (snd m) = orgs s)
  end.
  { destruct (negb _); [reflexivity | apply add_position_keeps_orgs]. }
  match goal with
  | |- context [match ?m with _ => _ end] =>
      destruct m as [[[] | e] s1]
  end; cbn [snd] in *; rewrite <- H1 in Hn; [| exact Hn].
  unfold when. destruct (truthy _); [| exact Hn].
  now apply enrich_org_absent.
Qed.

Lemma merge_loop_absent (pre : list val) (guid : val) (s s' : locals) :
  forallb is_record pre = true ->
  Forall (fun x => py_eq (field x "orgGuid" VNone) guid = false) pre ->
  od_get guid (orgs s) = None ->
  for_each pre merge_scout s = (Ok tt, s') ->
  od_get guid (orgs s') = None.
Proof.
  revert s. induction pre as [| x pre IH]; intros s; cbn.
  - intros _ _ Hn [= <-]. exact Hn.
  - intros Hr Hf Hn. apply andb_true_iff in Hr. destruct Hr as [Hx Hr].
    inversion Hf as [| ? ? Hx0 Hf']; subst.
    unfold mbind. rewrite (merge_scout_record x s Hx).
    pose proof (merge_record_absent x guid s Hn Hx0) as H1.
    destruct (merge_record x s) as [[[] | e] s1]; [| discriminate].
    now apply IH.
Qed.

Lemma merge_record_stub (r : val) (s s' : locals) :
  let guid := field r "orgGuid" VNone in
  hashable guid = true -> truthy guid = true ->
  od_get guid (orgs s) = None ->
  merge_record r s = (Ok tt, s') ->
  od_get guid (orgs s') = Some (stub_org r guid).
Proof.
  intros guid Hh Ht Hn. unfold merge_record. cbv zeta. unfold mbind at 1.
  match goal with
  | |- context [match ?m with _ => _ end] =>
      assert (H1 : orgs (snd m) = orgs s)
  end.
  { destruct (negb _); [reflexivity | apply add_position_keeps_orgs]. }
  match goal with
  | |- context [match ?m with _ => _ end] =>
      destruct m as [[[] | e] s1]
  end; cbn [snd] in *; rewrite <- H1 in Hn; [| discriminate].
  fold guid. unfold when. rewrite Ht. unfold enrich_org, mbind, contains.
  rewrite Hh. apply od_mem_false_get in Hn. rewrite Hn. cbn.
  intros [= <-]. cbn.
  apply od_mem_false_get in Hn. rewrite od_get_add, Hn.
  now rewrite py_eq_refl.
Qed.

Lemma merge_loop_stub (pre post : list val) (r : val) (s s2 : locals) :
  let guid := field r "orgGuid" VNone in
  forallb is_record (pre ++ r :: post) = true ->
  Forall (fun x => py_eq (field x "orgGuid" VNone) guid = false) pre ->
  truthy guid = true ->
  OrgInv (orgs s) -> od_get guid (orgs s) = None ->
  for_each (pre ++ r :: post) merge_scout s = (Ok tt, s2) ->
  exists o, od_get guid (orgs s2) = Some o /\ entry_le (stub_org r guid) o.
Proof.
  intros guid Hr Hf Ht HO Hn. rewrite forallb_app in Hr.
  apply andb_true_iff in Hr. destruct Hr as [Hpre Hr]. cbn in Hr.
  apply andb_true_iff in Hr. destruct Hr as [Hrec Hpost].
  rewrite for_each_app. unfold mbind at 1.
  pose proof (tame_for_each pre _ merge_scout_tame s HO) as (HOa & _ & _).
  destruct (for_each pre merge_scout s) as [[[] | e] sa] eqn:Ha;
    [| discriminate].
  cbn [snd] in HOa. cbn [for_each]. unfold mbind at 1.
  pose proof (merge_scout_tame r sa HOa) as (HOb & _ & _).
  rewrite (merge_scout_record r sa Hrec) in *.
  destruct (merge_record r sa) as [[[] | e] sb] eqn:Hb; [| discriminate].
  cbn [snd] in HOb. intros Hc.
  pose proof (tame_for_each post _ merge_scout_tame sb HOb) as (_ & Hle & _).
  rewrite Hc in Hle. cbn [snd] in Hle. apply Hle.
  apply (merge_record_stub r sa sb); auto.
  - now apply record_hashable.
  - now apply (merge_loop_absent pre guid s sa).
Qed.

Section StubFacts.
Context `{L : Stdlib}.

(** C5.  For the first dependent record that brings an organization
    identifier absent from the organizations of the profile, the
    snapshot lists an organization under that identifier whose roles
    include ["Parent/Guardian"] and whose name is [stub_name] of that
    record: the stripped unit type and unit number when the unit type
    is given, and the record's organization name otherwise.  The name
    is a non-empty string whenever the unit type is a string that is
    not blank. *)
Theorem refresh_materializes_stub (cl : client) (now_info now_save : Z)
    (tf : Auth.file) (c : context) (info uid pgu : val)
    (pre post : list val) (r : val) :
  let guid := field r "orgGuid" VNone in
  Auth.get_token_info now_info tf = Ok info ->
  py_get info "uid" = Ok uid -> py_get info "pgu" = Ok pgu ->
  truthy uid = true ->
  cl [GetPersonProfile uid; GetPersonProfile uid] (GetMyScouts uid)
  = Ok (VList (pre ++ r :: post)) ->
  forallb is_record (pre ++ r :: post) = true ->
  Forall (fun x => py_eq (field x "orgGuid" VNone) guid = false) pre ->
  truthy guid = true ->
  od_mem guid (profile_orgs cl uid pgu) = false ->
  exists snap c' cs,
    refresh cl now_info now_save tf c = (Ok snap, c', cs)
    /\ exists o,
         org_listed guid o (snap_organizations snap)
         /\ In PARENT_GUARDIAN (org_roles o)
         /\ org_name o = stub_name r
         /\ forall u, field r "unitType" (VStr "") = VStr u ->
              blank u = false ->
              exists name,
                org_name o = VStr name /\ name <> ""
                /\ name = strip (u ++ " "
                                 ++ py_str (field r "unitNumber" (VStr ""))).
Proof.
  intros guid Hi Hu Hp Ht Hcl Hr Hf Hg Hm.
  destruct (refresh_runs cl now_info now_save tf c info uid pgu Hi Hu Hp)
    as (snap & c' & cs & Hrun & _ & Ho).
  exists snap, c', cs. split; [exact Hrun|]. rewrite Ho. clear Hrun Ho.
  destruct (merged_records cl uid pgu _ Ht Hcl Hr) as (s2 & H2 & _ & _ & Hle).
  destruct (merge_loop_stub pre post r
              (scouts_start uid (before_scouts cl uid pgu)) s2 Hr Hf Hg)
    as (o2 & Ho2 & Hle2);
    [apply before_scouts_inv | now apply od_mem_false_get | exact H2 |].
  destruct (Hle _ _ Ho2) as (o & Hget & Hle3).
  pose proof (entry_le_trans _ _ _ Hle2 Hle3) as (_ & Hname & _ & _ & Hroles).
  destruct (refresh_steps_inv cl uid pgu) as [(_ & _ & Hkey) _].
  destruct (od_get_In _ _ _ Hget) as (k & Hin & Hk).
  exists o. split; [| split; [| split]].
  - split.
    + unfold od_values. apply in_map_iff. now exists (k, o).
    + now rewrite (Hkey _ _ Hin).
  - apply Hroles. cbn. now left.
  - exact Hname.
  - intros u Hu' Hb. rewrite Hname. now apply stub_name_of_unit.
Qed.

End StubFacts.

Lemma stub_named_from_unit_counterexample :
  exists snap c' cs,
    refresh (L := Samples.stdlib)
      (Samples.client_of (Ok Samples.profile) (Ok Samples.unnamed_unit)
         (Ok Samples.roles))
      Samples.now_2026 Samples.now_2026 Samples.valid_file
      Samples.empty_context = (Ok snap, c', cs)
    /\ od_mem (VStr "org-9")
         (profile_orgs
            (Samples.client_of (Ok Samples.profile) (Ok Samples.unnamed_unit)
               (Ok Samples.roles)) (VInt 7) (VStr "pg-0")) = false
    /\ forall o, org_listed (VStr "org-9") o (snap_organizations snap) ->
         org_name o = VNone.
Proof.
  do 3 eexists. split; [vm_compute; reflexivity|]. split; [reflexivity|].
  intros o [Hin He]. vm_compute in Hin.
  destruct Hin as [<- | [<- | []]]; [discriminate He | reflexivity].
Qed.

Lemma refresh_materializes_stub_witness :
  exists snap c' cs,
    refresh (L := Samples.stdlib)
      (Samples.client_of (Ok Samples.profile) (Ok Samples.two_positions)
         (Ok Samples.roles))
      Samples.now_2026 Samples.now_2026 Samples.valid_file
      Samples.empty_context = (Ok snap, c', cs)
    /\ exists o,
         org_listed (VStr "org-2") o (snap_organizations snap)
         /\ In PARENT_GUARDIAN (org_roles o)
         /\ org_name o = stub_name (Samples.dependent "pg-1" "org-2" "Scouts BSA")
         /\ forall u,
              field (Samples.dependent "pg-1" "org-2" "Scouts BSA")
                "unitType" (VStr "") = VStr u ->
              blank u = false ->
              exists name,
                org_name o = VStr name /\ name <> ""
                /\ name = strip (u ++ " "
                     ++ py_str (field (Samples.dependent "pg-1" "org-2" "Scouts BSA")
                                  "unitNumber" (VStr ""))).
Proof.
  apply (refresh_materializes_stub (L := Samples.stdlib) _ _ _ _ _
           (VDict [("token", VStr Samples.good_token);
                   ("expires_at", VStr "2999-01-01T00:00:00+00:00");
                   ("uid", VInt 7); ("pgu", VStr "pg-0");
                   ("is_expired", VBool false)]) (VInt 7) (VStr "pg-0")
           [] [Samples.dependent "pg-1" "org-2" "Scribe"]
           (Samples.dependent "pg-1" "org-2" "Scouts BSA")).
  - reflexivity.
  - reflexivity.
  - reflexivity.
  - reflexivity.
  - reflexivity.
  - reflexivity.
  - constructor.
  - reflexivity.
  - reflexivity.
Defined.

Lemma refresh_invariants_witness :
  exists snap c' cs,
    refresh (L := Samples.stdlib)
      (Samples.client_of (Ok Samples.profile) (Ok Samples.two_positions)
         (Ok Samples.roles))
      Samples.now_2026 Samples.now_2026 Samples.valid_file
      Samples.empty_context = (Ok snap, c', cs)
    /\ py_distinct (map org_orgGuid (snap_organizations snap))
    /\ py_distinct (map sc_personGuid (snap_scouts snap))
    /\ (forall e, In e (snap_scouts snap) -> py_distinct (sc_positions e))
    /\ (forall e, In e (snap_scouts snap) ->
          truthy (sc_orgGuid e) = true ->
          exists o, org_listed (sc_orgGuid e) o (snap_organizations snap)).
Proof.
  do 3 eexists. split; [vm_compute; reflexivity|].
  eapply (refresh_invariants (L := Samples.stdlib)
            (Samples.client_of (Ok Samples.profile) (Ok Samples.two_positions)
               (Ok Samples.roles))
            Samples.now_2026 Samples.now_2026 Samples.valid_file
            Samples.empty_context).
  vm_compute. reflexivity.
Defined.

Lemma exists_checks_version_reads_do_not_witness :
  fst (exists_ Samples.stale_version) = Ok false
  /\ fst (get_scouts Samples.stale_version)
     = Ok (VList [VDict [("firstName", VStr "Sam")]])
  /\ fst (get_organizations Samples.stale_version) = Ok (VList [])
  /\ fst (get_user Samples.stale_version) = Ok (VDict [("userId", VInt 7)]).
Proof.
  apply (proj2 (proj2 (exists_checks_version_reads_do_not Samples.stale_version))
           [("user", VDict [("userId", VInt 7)]);
            ("organizations", VList []);
            ("scouts", VList [VDict [("firstName", VStr "Sam")]]);
            ("version", VInt 0);
            ("lastRefreshed", VStr "2001-01-01T00:00:00+00:00")]).
  - reflexivity.
  - intros H. discriminate H.
  - reflexivity.
Defined.

End ContextProofs.

(* ================================================================== *)
(** * Further properties *)
(* ================================================================== *)

Module MoreProofs.

(** ** auth.py *)

Lemma length_app_string (a b : string) :
  String.length (a ++ b) = (String.length a + String.length b)%nat.
Proof. induction a as [| c a IH]; cbn; [reflexivity | now rewrite IH]. Qed.

Lemma length_repeat_char (c : ascii) (n : nat) :
  String.length (repeat_char c n) = n.
Proof. induction n as [| n IH]; cbn; [reflexivity | now rewrite IH]. Qed.

(** X1.  The padded payload has a length that is a multiple of four;
    it is the payload followed by at most three ["="]. *)
Theorem add_padding_multiple_of_four (payload : string) :
  (String.length (Auth.add_padding payload) mod 4 = 0)%nat
  /\ exists n, (n <= 3)%nat
       /\ Auth.add_padding payload = payload ++ repeat_char "=" n.
Proof.
  unfold Auth.add_padding.
  pose proof (Nat.mod_upper_bound (String.length payload) 4 ltac:(discriminate))
    as Hlt.
  pose proof (Nat.div_mod_eq (String.length payload) 4) as Hdm.
  destruct (Nat.eqb_spec (4 - String.length payload mod 4) 4) as [He | Hne].
  - split.
    + lia.
    + exists 0%nat. split; [lia|]. cbn.
      clear. induction payload as [| c p IH]; cbn; [reflexivity | now rewrite <- IH].
  - split.
    + rewrite length_app_string, length_repeat_char.
      set (n := String.length payload) in *.
      replace (n + (4 - n mod 4))%nat with (n mod 4 + (4 - n mod 4) + 4 * (n / 4))%nat
        by lia.
      replace (n mod 4 + (4 - n mod 4))%nat with (1 * 4)%nat by lia.
      rewrite Nat.mul_comm with (n := 4%nat).
      rewrite <- Nat.mul_add_distr_r. apply Nat.Div0.mod_mul.
    + exists (4 - String.length payload mod 4)%nat. split; [lia | reflexivity].
Qed.

Section AuthMoreFacts.
Context `{L : Stdlib}.
Import Auth Spec AuthMore SpecMore.

Lemma roundtrip_not_empty (t : Z) :
  iso_roundtrip t -> isoformat (Aware t) <> "".
Proof.
  unfold iso_roundtrip. intros H He. rewrite He in H.
  exact (fromisoformat_empty _ H).
Qed.

Lemma fromtimestamp_aware (v : val) (dt : datetime) :
  fromtimestamp_utc v = Ok dt -> exists t, dt = Aware t.
Proof.
  unfold fromtimestamp_utc. destruct v; try discriminate.
  - destruct (_ && _); [intros [= <-]; eauto | discriminate].
  - destruct (_ && _); [intros [= <-]; eauto | discriminate].
Qed.

(** What a successful [login_with_token] has written. *)
Lemma login_with_token_stores (now : Z) (token : string) (f f' : file) :
  login_with_token now token f = (Ok tt, f') ->
  exists claims exp t rest,
    startswith token "eyJ" = true
    /\ _decode_jwt_claims token = Ok claims
    /\ py_get claims "exp" = Ok exp /\ truthy exp = true
    /\ fromtimestamp_utc exp = Ok (Aware t)
    /\ f' = Content (VDict (("token", VStr token)
                            :: ("obtained_at", VStr (isoformat (Aware now)))
                            :: ("expires_at", VStr (isoformat (Aware t)))
                            :: rest))
    /\ dict_get "expires_at" rest = None /\ dict_get "token" rest = None.
Proof.
  unfold login_with_token.
  destruct (startswith token "eyJ") eqn:Hp; cbn [negb]; [| discriminate].
  destruct (_decode_jwt_claims token) as [claims | e] eqn:Hd; [| discriminate].
  destruct (py_get claims "exp") as [exp | e] eqn:He; [| discriminate].
  destruct (truthy exp) eqn:Ht; cbn [negb]; [| discriminate].
  destruct (fromtimestamp_utc exp) as [dt | e] eqn:Hf; [| discriminate].
  destruct (fromtimestamp_aware _ _ Hf) as [t ->].
  intros [= <-]. exists claims, exp, t. eexists. repeat split; auto.
Qed.

Lemma is_expired_stored (now t : Z) (tok obtained : val)
    (rest : list (string * val)) :
  iso_roundtrip t ->
  _is_expired now (VDict (("token", tok) :: ("obtained_at", obtained)
                          :: ("expires_at", VStr (isoformat (Aware t))) :: rest))
  = Ok (t <=? now).
Proof.
  intros Hr. unfold _is_expired. cbn.
  pose proof (roundtrip_not_empty t Hr) as Hne.
  destruct (String.eqb_spec (isoformat (Aware t)) "") as [He | _];
    [contradiction|]. cbn.
  unfold iso_roundtrip in Hr. rewrite Hr. reflexivity.
Qed.

(** A stored record is served from the cache until it expires. *)
Lemma stored_token_served (now : Z) (token : string) (f f' : file) :
  login_with_token now token f = (Ok tt, f') ->
  exists t,
    (exists claims exp,
       _decode_jwt_claims token = Ok claims /\ py_get claims "exp" = Ok exp
       /\ fromtimestamp_utc exp = Ok (Aware t))
    /\ forall env clk acquire,
         iso_roundtrip t ->
         (t_check clk < t ->
          get_token env clk acquire f' = (Ok (VStr token), f', []))
         /\ (t <= t_check clk ->
             forall v f'' tr,
               get_token env clk acquire f' = (Ok v, f'', tr) ->
               In EvAcquire tr).
Proof.
  intros H.
  destruct (login_with_token_stores _ _ _ _ H)
    as (claims & exp & t & rest & _ & Hd & He & _ & Hf & -> & _ & _).
  exists t. split; [eauto|]. intros env clk acquire Hr.
  unfold get_token, cached_and. cbn [_load_cached_token truthy].
  rewrite (is_expired_stored _ _ _ _ _ Hr). cbn [bind].
  split.
  - intros Hlt. apply Z.leb_gt in Hlt. rewrite Hlt. reflexivity.
  - intros Hle. apply Z.leb_le in Hle. rewrite Hle. cbn [negb].
    intros v f'' tr. destruct (no_browser env); [discriminate|].
    destruct acquire as [tok | e]; [| discriminate].
    destruct (login_with_token (t_login clk) tok _) as [[u | e] f1];
      [| discriminate].
    intros [= _ _ <-]. now left.
Qed.

(** X2.  After a successful [login_with_token], and as long as the
    time read is before the [exp] claim of the token, [get_token] returns
    that token from the cache, with no acquisition and no change of the
    store; from the expiry on it is not served without acquisition.
    (The printed expiry is assumed to parse back to the same instant.) *)
Theorem login_then_get_token (now : Z) (token : string) (f f' : file) :
  login_with_token now token f = (Ok tt, f') ->
  exists t,
    (exists claims exp,
       _decode_jwt_claims token = Ok claims /\ py_get claims "exp" = Ok exp
       /\ fromtimestamp_utc exp = Ok (Aware t))
    /\ forall env clk acquire,
         iso_roundtrip t ->
         (t_check clk < t ->
          get_token env clk acquire f' = (Ok (VStr token), f', []))
         /\ (t <= t_check clk ->
             forall v f'' tr,
               get_token env clk acquire f' = (Ok v, f'', tr) ->
               In EvAcquire tr).
Proof.
  intros H. destruct (stored_token_served now token f f' H) as (t & Hc & Hg).
  exists t. split; [exact Hc|]. intros env clk acquire Hr.
  destruct (Hg env clk acquire Hr) as [H1 H2]. split; assumption.
Qed.

(** X3.  A token that [get_token] acquired through the browser is
    stored, and until it expires every later [get_token] returns it from
    the cache with no new acquisition. *)
Theorem get_token_caches_acquired_token (env : option string) (clk : clock)
    (acquire : result string) (f f' : file) (v : val) (tr : list event) :
  get_token env clk acquire f = (Ok v, f', tr) -> In EvAcquire tr ->
  exists token t,
    acquire = Ok token /\ v = VStr token
    /\ login_with_token (t_login clk) token f = (Ok tt, f')
    /\ (exists claims exp,
          _decode_jwt_claims token = Ok claims /\ py_get claims "exp" = Ok exp
          /\ fromtimestamp_utc exp = Ok (Aware t))
    /\ forall env2 clk2 acquire2,
         iso_roundtrip t -> t_check clk2 < t ->
         get_token env2 clk2 acquire2 f' = (Ok v, f', []).
Proof.
  unfold get_token at 1. intros H Hin.
  destruct (cached_and _ _) as [[] | e]; try discriminate.
  { injection H as _ _ <-. destruct Hin. }
  destruct (no_browser env); [discriminate|].
  destruct acquire as [token | e]; [| discriminate].
  destruct (login_with_token (t_login clk) token f) as [[[] | e] f1] eqn:Hl;
    [| discriminate].
  injection H as <- <- _.
  destruct (stored_token_served _ _ _ _ Hl) as (t & Hc & Ht).
  exists token, t. repeat split; auto.
  intros env2 clk2 acquire2 Hr Hlt. now apply (Ht env2 clk2 acquire2 Hr).
Qed.

(** X4.  Whatever token [get_token] returns, cached or newly acquired,
    is the token the token file holds afterwards. *)
Theorem get_token_returns_stored_token (env : option string) (clk : clock)
    (acquire : result string) (f f' : file) (v : val) (tr : list event) :
  get_token env clk acquire f = (Ok v, f', tr) ->
  exists d, f' = Content (VDict d) /\ dict_get "token" d = Some v.
Proof.
  unfold get_token.
  destruct (cached_and _ _) as [[] | e]; try discriminate.
  - unfold py_index_str. destruct f as [| | c]; cbn; try discriminate.
    destruct c; try discriminate.
    destruct (dict_get "token" d) eqn:Hd; [| discriminate].
    intros [= <- <- _]. eauto.
  - destruct (no_browser env); [discriminate|].
    destruct acquire as [token | e]; [| discriminate].
    destruct (login_with_token (t_login clk) token f) as [[[] | e] f1] eqn:Hl;
      [| discriminate].
    intros [= <- <- _].
    destruct (login_with_token_stores _ _ _ _ Hl)
      as (claims & exp & t & rest & _ & _ & _ & _ & _ & -> & _ & _).
    eexists. split; reflexivity.
Qed.

(** X5.  After [logout], [get_token_info] is the empty dictionary;
    [get_token] raises "No authentication token found." when the browser
    is disabled, and never returns a token without an acquisition. *)
Theorem logout_forgets (now : Z) (env : option string) (clk : clock)
    (acquire : result string) (f : file) :
  get_token_info now (logout f) = Ok (VDict [])
  /\ (no_browser env = true ->
      get_token env clk acquire (logout f)
      = (Raise (raise_AuthenticationError "No authentication token found."),
         Missing, []))
  /\ (forall v f' tr,
        get_token env clk acquire (logout f) = (Ok v, f', tr) ->
        In EvAcquire tr).
Proof.
  unfold logout, get_token, get_token_info, cached_and, no_token_error,
    cached_and. cbn.
  repeat split.
  - intros ->. reflexivity.
  - intros v f' tr. destruct (no_browser env); [discriminate|].
    destruct acquire as [token | e]; [| discriminate].
    destruct (login_with_token (t_login clk) token Missing) as [[u | e] f1];
      [| discriminate].
    intros [= _ _ <-]. now left.
Qed.

(** X6.  With [SCOUTS_NO_BROWSER] set to [1], [true] or [yes] (in any
    case), [get_token] does not depend on what the browser would do,
    makes no acquisition and leaves the token file as it is. *)
Theorem no_browser_never_acquires (env : option string) (clk : clock)
    (acquire acquire' : result string) (f : file) :
  no_browser env = true ->
  get_token env clk acquire f = get_token env clk acquire' f
  /\ snd (fst (get_token env clk acquire f)) = f
  /\ snd (get_token env clk acquire f) = [].
Proof.
  intros Hn. unfold get_token. rewrite Hn.
  destruct (cached_and _ _) as [[] | e]; repeat split.
Qed.

(** X7.  A record that [_is_expired] finds expired is found expired at
    every later time. *)
Theorem is_expired_monotone (now now' : Z) (token_data : val) :
  _is_expired now token_data = Ok true -> now <= now' ->
  _is_expired now' token_data = Ok true.
Proof.
  unfold _is_expired, bind.
  destruct (py_get token_data "expires_at") as [x | e]; [| discriminate].
  destruct (negb (truthy x)); [reflexivity|].
  destruct x; try discriminate.
  destruct (fromisoformat s) as [[w | t] | e]; cbn; try discriminate;
    [| reflexivity].
  intros [= H] Hle. f_equal. apply Z.leb_le in H. apply Z.leb_le. lia.
Qed.

(** X8.  Without Playwright, the acquisition raises a
    [BrowserAuthError] with the installation hint before anything is
    launched or printed, and [login_with_browser] lets that very error
    through, the token file untouched. *)
Theorem login_with_browser_surfaces_missing_playwright
    (cfg : browser_config) (w : BrowserAuth.world) (verbose : bool)
    (fuel : nat) (now_login now_info : Z) (f : file) :
  BrowserAuth.playwright_installed w = false ->
  exists e,
    BrowserAuth.acquire_token_via_browser cfg w verbose fuel
    = Some (Raise e, [])
    /\ exn_cls e = BrowserAuthError
    /\ exn_message e
       = "Playwright is not installed. Browser-based login requires it."
    /\ exn_suggestion e
       = Some ("Install with: pip install playwright" ++ BrowserAuth.newline
               ++ "Or use manual token auth: scouts auth login --token <JWT>")
    /\ login_with_browser now_login now_info (Raise e) f = (Raise e, f).
Proof.
  intros Hp. eexists.
  unfold BrowserAuth.acquire_token_via_browser,
    BrowserAuth._check_playwright_available. rewrite Hp.
  split; [reflexivity|]. repeat split.
Qed.

(** X9.  When the acquired token is accepted, [login_with_browser]
    returns the record it has just stored, with the flag [is_expired]
    computed from the [exp] claim of the token. *)
Theorem login_with_browser_reports_record (now_login now_info : Z)
    (token : string) (f f' : file) :
  login_with_token now_login token f = (Ok tt, f') ->
  exists t d,
    (exists claims exp,
       _decode_jwt_claims token = Ok claims /\ py_get claims "exp" = Ok exp
       /\ fromtimestamp_utc exp = Ok (Aware t))
    /\ f' = Content (VDict d)
    /\ dict_get "token" d = Some (VStr token)
    /\ (iso_roundtrip t ->
        login_with_browser now_login now_info (Ok token) f
        = (Ok (VDict (dict_set "is_expired" (VBool (t <=? now_info)) d)), f')).
Proof.
  intros H.
  destruct (login_with_token_stores _ _ _ _ H)
    as (claims & exp & t & rest & _ & Hd & He & _ & Hf & Hf' & _ & _).
  exists t. eexists. split; [eauto|]. split; [exact Hf'|].
  split; [reflexivity|]. intros Hr.
  unfold login_with_browser. rewrite H. rewrite Hf'.
  unfold get_token_info. cbn [_load_cached_token truthy negb].
  rewrite (is_expired_stored _ _ _ _ _ Hr). reflexivity.
Qed.

End AuthMoreFacts.

Lemma login_then_get_token_witness :
  exists f',
    Auth.login_with_token (L := Samples.stdlib) Samples.now_2026
      Samples.good_token Auth.Missing = (Ok tt, f')
    /\ exists t,
         (exists claims exp,
            Auth._decode_jwt_claims (L := Samples.stdlib) Samples.good_token
            = Ok claims
            /\ py_get claims "exp" = Ok exp
            /\ fromtimestamp_utc exp = Ok (Aware t))
         /\ forall env clk acquire,
              SpecMore.iso_roundtrip (L := Samples.stdlib) t ->
              (Auth.t_check clk < t ->
               Auth.get_token (L := Samples.stdlib) env clk acquire f'
               = (Ok (VStr Samples.good_token), f', []))
              /\ (t <= Auth.t_check clk ->
                  forall v f'' tr,
                    Auth.get_token (L := Samples.stdlib) env clk acquire f' = (Ok v, f'', tr) ->
                    In Auth.EvAcquire tr).
Proof.
  eexists. split; [vm_compute; reflexivity|].
  apply (login_then_get_token (L := Samples.stdlib) Samples.now_2026
           Samples.good_token Auth.Missing).
  vm_compute. reflexivity.
Defined.

Lemma get_token_caches_acquired_token_witness :
  exists f',
    Auth.get_token (L := Samples.stdlib) None Samples.clock_2026
      (Ok Samples.good_token) Auth.Missing
    = (Ok (VStr Samples.good_token), f', [Auth.EvAcquire; Auth.EvStore])
    /\ exists token t,
         Ok Samples.good_token = Ok token
         /\ VStr Samples.good_token = VStr token
         /\ Auth.login_with_token (L := Samples.stdlib)
              (Auth.t_login Samples.clock_2026) token Auth.Missing = (Ok tt, f')
         /\ (exists claims exp,
               Auth._decode_jwt_claims (L := Samples.stdlib) token = Ok claims
               /\ py_get claims "exp" = Ok exp
               /\ fromtimestamp_utc exp = Ok (Aware t))
         /\ forall env2 clk2 acquire2,
              SpecMore.iso_roundtrip (L := Samples.stdlib) t ->
              Auth.t_check clk2 < t ->
              Auth.get_token (L := Samples.stdlib) env2 clk2 acquire2 f'
              = (Ok (VStr Samples.good_token), f', []).
Proof.
  eexists. split; [vm_compute; reflexivity|].
  apply (get_token_caches_acquired_token (L := Samples.stdlib) None
           Samples.clock_2026 (Ok Samples.good_token) Auth.Missing _ _
           [Auth.EvAcquire; Auth.EvStore]).
  - vm_compute. reflexivity.
  - simpl. left. reflexivity.
Defined.

Lemma get_token_returns_stored_token_witness :
  exists d,
    Samples.valid_file = Auth.Content (VDict d)
    /\ dict_get "token" d = Some (VStr Samples.good_token).
Proof.
  apply (get_token_returns_stored_token (L := Samples.stdlib) None
           Samples.clock_2026 (Raise (builtin_error UpstreamError))
           Samples.valid_file Samples.valid_file (VStr Samples.good_token) []).
  vm_compute. reflexivity.
Defined.

Lemma logout_forgets_witness :
  Auth.get_token (L := Samples.stdlib) (Some "1") Samples.clock_2026
    (Ok Samples.good_token) (Auth.logout Samples.valid_file)
  = (Raise (raise_AuthenticationError "No authentication token found."),
     Auth.Missing, []).
Proof.
  apply (proj1 (proj2 (logout_forgets (L := Samples.stdlib) Samples.now_2026
                         (Some "1") Samples.clock_2026 (Ok Samples.good_token)
                         Samples.valid_file))).
  reflexivity.
Defined.

Lemma no_browser_never_acquires_witness :
  Auth.get_token (L := Samples.stdlib) (Some "TRUE") Samples.clock_2026
    (Ok Samples.good_token) Samples.expired_file
  = Auth.get_token (L := Samples.stdlib) (Some "TRUE") Samples.clock_2026
      (Raise (builtin_error UpstreamError)) Samples.expired_file
  /\ snd (fst (Auth.get_token (L := Samples.stdlib) (Some "TRUE")
                 Samples.clock_2026 (Ok Samples.good_token)
                 Samples.expired_file)) = Samples.expired_file
  /\ snd (Auth.get_token (L := Samples.stdlib) (Some "TRUE")
            Samples.clock_2026 (Ok Samples.good_token) Samples.expired_file)
     = [].
Proof.
  apply (no_browser_never_acquires (L := Samples.stdlib) (Some "TRUE")
           Samples.clock_2026 (Ok Samples.good_token)
           (Raise (builtin_error UpstreamError)) Samples.expired_file).
  reflexivity.
Defined.

Lemma is_expired_monotone_witness :
  Auth._is_expired (L := Samples.stdlib) (Samples.now_2026 + 1)
    (Samples.record (VStr "2001-01-01T00:00:00+00:00")) = Ok true.
Proof.
  apply (is_expired_monotone (L := Samples.stdlib) Samples.now_2026
           (Samples.now_2026 + 1)
           (Samples.record (VStr "2001-01-01T00:00:00+00:00"))).
  - reflexivity.
  - vm_compute. discriminate.
Defined.

Lemma login_with_browser_surfaces_missing_playwright_witness :
  exists e,
    BrowserAuth.acquire_token_via_browser (L := Samples.stdlib)
      default_browser_config SamplesMore.no_playwright true 10 = Some (Raise e, [])
    /\ exn_cls e = BrowserAuthError
    /\ exn_message e
       = "Playwright is not installed. Browser-based login requires it."
    /\ exn_suggestion e
       = Some ("Install with: pip install playwright" ++ BrowserAuth.newline
               ++ "Or use manual token auth: scouts auth login --token <JWT>")
    /\ AuthMore.login_with_browser (L := Samples.stdlib) Samples.now_2026
         Samples.now_2026 (Raise e) Samples.valid_file
       = (Raise e, Samples.valid_file).
Proof.
  apply (login_with_browser_surfaces_missing_playwright (L := Samples.stdlib)
           default_browser_config SamplesMore.no_playwright true 10 Samples.now_2026
           Samples.now_2026 Samples.valid_file).
  reflexivity.
Defined.

Lemma login_with_browser_reports_record_witness :
  exists f' t d,
    Auth.login_with_token (L := Samples.stdlib) Samples.now_2026
      Samples.good_token Auth.Missing = (Ok tt, f')
    /\ (exists claims exp,
          Auth._decode_jwt_claims (L := Samples.stdlib) Samples.good_token
          = Ok claims
          /\ py_get claims "exp" = Ok exp
          /\ fromtimestamp_utc exp = Ok (Aware t))
    /\ f' = Auth.Content (VDict d)
    /\ dict_get "token" d = Some (VStr Samples.good_token)
    /\ (SpecMore.iso_roundtrip (L := Samples.stdlib) t ->
        AuthMore.login_with_browser (L := Samples.stdlib) Samples.now_2026
          Samples.now_2026 (Ok Samples.good_token) Auth.Missing
        = (Ok (VDict (dict_set "is_expired" (VBool (t <=? Samples.now_2026)) d)),
           f')).
Proof.
  eexists.
  destruct (login_with_browser_reports_record (L := Samples.stdlib)
              Samples.now_2026 Samples.now_2026 Samples.good_token Auth.Missing
              _ eq_refl) as (t & d & H).
  exists t, d. split; [reflexivity | exact H].
Defined.

(** ** browser_auth.py *)

Section BrowserMoreFacts.
Context `{L : Stdlib}.
Import BrowserAuth Spec SpecMore.

Lemma extract_prefix (raw : result (option string)) (t : string) :
  _extract_token_from_page raw = Some t -> startswith t "eyJ" = true.
Proof.
  unfold _extract_token_from_page.
  destruct raw as [[r |] | e]; try discriminate.
  destruct (r =? "")%string; [discriminate|].
  destruct (json_loads r) as [data | e]; [| discriminate].
  destruct (py_get data "token") as [token | e]; [| discriminate].
  destruct (truthy token); [| discriminate].
  destruct token; try discriminate.
  destruct (startswith s "eyJ") eqn:Hs; [| discriminate].
  now intros [= <-].
Qed.

Lemma poll_loop_prefix (s : session) (deadline : Z) (fuel i : nat)
    (t : string) :
  poll_loop s deadline i fuel = Some (Some t) -> startswith t "eyJ" = true.
Proof.
  revert i. induction fuel as [| fuel IH]; intros i; cbn; [discriminate|].
  destruct (clock s i <? deadline); [| discriminate].
  destruct (_extract_token_from_page (storage s i)) as [t0 |] eqn:He.
  - intros [= <-]. exact (extract_prefix _ _ He).
  - apply IH.
Qed.

(** The events of one launch: a failed launch logs only itself; a
    browser that started is closed last, and in between only lines are
    printed, none when not verbose. *)
Lemma try_acquire_shape (s : session) (headless verbose : bool) (timeout : Z)
    (fuel : nat) (r : result (option string)) (ev : list event) :
  _try_acquire s headless timeout verbose fuel = Some (r, ev) ->
  (exists e, launch_error s = Some e /\ r = Raise e /\ ev = [EvLaunch headless])
  \/ (launch_error s = None
      /\ exists printed,
           ev = ([EvLaunch headless] ++ printed ++ [EvClose headless])%list
           /\ (forall x, In x printed -> exists m, x = EvPrint m)
           /\ (verbose = false -> printed = [])).
Proof.
  unfold _try_acquire.
  destruct (launch_error s) as [e |].
  { intros [= <- <-]. left. eauto. }
  intros H. right. split; [reflexivity|].
  match type of H with
  | context [match ?b with Some _ => _ | None => None end = _] =>
      destruct b as [[r0 printed] |] eqn:Hb
  end; [| discriminate].
  assert (Hprinted : (forall x, In x printed -> exists m, x = EvPrint m)
                     /\ (verbose = false -> printed = [])).
  { destruct (goto_error s).
    - injection Hb as _ <-.
      destruct verbose; split; try discriminate; try reflexivity.
      + intros x [<- | []]. eauto.
      + intros x [].
    - destruct (_extract_token_from_page (storage s 0)).
      + injection Hb as _ <-. split; [intros x [] | reflexivity].
      + destruct (_poll_for_token s timeout fuel); [| discriminate].
        injection Hb as _ <-. split; [intros x [] | reflexivity]. }
  destruct Hprinted as [Hp Hq].
  eexists. split; [| split].
  - destruct (close_error s); injection H as _ <-; rewrite <- app_assoc;
      reflexivity.
  - intros x Hx. apply in_app_or in Hx. destruct Hx as [Hx | Hx]; [| now apply Hp].
    destruct verbose; [destruct Hx as [<- | []]; eauto | destruct Hx].
  - intros ->. now rewrite Hq.
Qed.

Lemma try_acquire_prefix (s : session) (headless verbose : bool) (timeout : Z)
    (fuel : nat) (t : string) (ev : list event) :
  _try_acquire s headless timeout verbose fuel = Some (Ok (Some t), ev) ->
  startswith t "eyJ" = true.
Proof.
  unfold _try_acquire.
  destruct (launch_error s); [discriminate|].
  destruct (goto_error s).
  { destruct (close_error s); discriminate. }
  destruct (_extract_token_from_page (storage s 0)) as [t0 |] eqn:He.
  - destruct (close_error s); [discriminate|]. intros [= <- _].
    exact (extract_prefix _ _ He).
  - unfold _poll_for_token.
    destruct (poll_loop s _ 1 fuel) as [[t1 |] |] eqn:Hp; try discriminate.
    + destruct (close_error s); [discriminate|]. intros [= <- _].
      exact (poll_loop_prefix _ _ _ _ _ Hp).
    + destruct (close_error s); discriminate.
Qed.

(** X10.  Every token [acquire_token_via_browser] returns starts
    with ["eyJ"]. *)
Theorem acquired_token_has_jwt_prefix (cfg : browser_config) (w : world)
    (verbose : bool) (fuel : nat) (token : string) (tr : list event) :
  acquire_token_via_browser cfg w verbose fuel = Some (Ok token, tr) ->
  startswith token "eyJ" = true.
Proof.
  unfold acquire_token_via_browser.
  destruct (_check_playwright_available w); [| discriminate].
  destruct (_try_acquire (headless_session w) true _ verbose fuel)
    as [[[[t1 |] | e] ev1] |] eqn:H1; try discriminate.
  - intros [= <- _]. exact (try_acquire_prefix _ _ _ _ _ _ _ H1).
  - destruct (_try_acquire (headed_session w) false _ verbose fuel)
      as [[[[t2 |] | e] ev2] |] eqn:H2; try discriminate.
    intros [= <- _]. exact (try_acquire_prefix _ _ _ _ _ _ _ H2).
Qed.

Lemma try_acquire_closes (s : session) (headless verbose : bool) (timeout : Z)
    (fuel : nat) (r : result (option string)) (ev : list event) :
  _try_acquire s headless timeout verbose fuel = Some (r, ev) ->
  launch_error s = None -> In (EvClose headless) ev.
Proof.
  intros H Hl. destruct (try_acquire_shape _ _ _ _ _ _ _ H)
    as [(e & He & _) | (_ & printed & -> & _)]; [congruence|].
  apply in_or_app. right. apply in_or_app. right. now left.
Qed.

Lemma try_acquire_launch_mode (s : session) (headless verbose : bool)
    (timeout : Z) (fuel : nat) (r : result (option string)) (ev : list event)
    (h : bool) :
  _try_acquire s headless timeout verbose fuel = Some (r, ev) ->
  In (EvLaunch h) ev -> h = headless.
Proof.
  intros H Hin. destruct (try_acquire_shape _ _ _ _ _ _ _ H)
    as [(e & _ & _ & ->) | (_ & printed & -> & Hp & _)].
  - destruct Hin as [Hin | []]. now injection Hin.
  - cbn in Hin. destruct Hin as [Hin | Hin]; [now injection Hin|]. exfalso.
    apply in_app_or in Hin. destruct Hin as [Hin | Hin].
    + destruct (Hp _ Hin) as [m Hm]. discriminate Hm.
    + destruct Hin as [Hin | []]. discriminate Hin.
Qed.

Lemma try_acquire_quiet (s : session) (headless : bool) (timeout : Z)
    (fuel : nat) (r : result (option string)) (ev : list event) (line : string) :
  _try_acquire s headless timeout false fuel = Some (r, ev) ->
  ~ In (EvPrint line) ev.
Proof.
  intros H Hin. destruct (try_acquire_shape _ _ _ _ _ _ _ H)
    as [(e & _ & _ & ->) | (_ & printed & -> & _ & Hq)].
  - destruct Hin as [Hin | []]. discriminate Hin.
  - rewrite (Hq eq_refl) in Hin. cbn in Hin.
    destruct Hin as [Hin | [Hin | []]]; discriminate Hin.
Qed.

(** Membership in a trace given as a concatenation. *)
Ltac find_in :=
  match goal with
  | H : In ?x ?l |- In ?x ?l => exact H
  | |- In _ (_ :: _) => first [left; reflexivity | right; find_in]
  | |- In _ (_ ++ _)%list => apply in_or_app; first [left; find_in | right; find_in]
  end.

(** Where the events of a run come from: a printed line, the headless
    launch, or the headed launch that follows a headless one without
    token. *)
Lemma acquire_events (cfg : browser_config) (w : world) (verbose : bool)
    (fuel : nat) (r : result string) (tr : list event) (x : event) :
  acquire_token_via_browser cfg w verbose fuel = Some (r, tr) ->
  In x tr ->
  (exists m, x = EvPrint m)
  \/ (exists r1 ev1,
        _try_acquire (headless_session w) true (BROWSER_HEADLESS_TIMEOUT cfg)
          verbose fuel = Some (r1, ev1)
        /\ In x ev1 /\ incl ev1 tr)
  \/ (exists r2 ev2,
        _try_acquire (headed_session w) false (BROWSER_HEADED_TIMEOUT cfg)
          verbose fuel = Some (r2, ev2)
        /\ In x ev2 /\ incl ev2 tr).
Proof.
  unfold acquire_token_via_browser.
  destruct (_check_playwright_available w); [| intros [= _ <-] []].
  destruct (_try_acquire (headless_session w) true _ verbose fuel)
    as [[r1 ev1] |] eqn:H1; [| discriminate].
  assert (Hp : forall m l, In x (if verbose then [EvPrint m] else l) ->
                           In x l \/ exists m', x = EvPrint m').
  { intros m l Hin. destruct verbose; [| now left].
    destruct Hin as [<- | []]. right. eauto. }
  destruct r1 as [[t1 |] | e].
  - intros [= _ <-] Hin.
    apply in_app_or in Hin. destruct Hin as [Hin | Hin].
    { destruct (Hp _ [] Hin) as [[] | Hm]. now left. }
    apply in_app_or in Hin. destruct Hin as [Hin | Hin].
    + right. left. exists (Ok (Some t1)), ev1. repeat split; auto.
      intros y Hy. apply in_or_app. right. apply in_or_app. now left.
    + destruct (Hp _ [] Hin) as [[] | Hm]. now left.
  - destruct (_try_acquire (headed_session w) false _ verbose fuel)
      as [[r2 ev2] |] eqn:H2; [| discriminate].
    assert (Hcore : forall rest tl : list event,
              rest = (ev2 ++ tl)%list ->
              (forall y, In y tl -> exists m, y = EvPrint m) ->
              forall full,
              full = ((if verbose
                       then [EvPrint "Attempting headless token refresh..."]
                       else []) ++ ev1
                      ++ [EvPrint "Opening browser for BSA login. Please sign in..."]
                      ++ rest)%list ->
              In x full ->
              (exists m, x = EvPrint m)
              \/ (exists r1 ev1',
                    Some (@Ok (option string) None, ev1) = Some (r1, ev1')
                    /\ In x ev1' /\ incl ev1' full)
              \/ (exists r2' ev2',
                    Some (r2, ev2) = Some (r2', ev2')
                    /\ In x ev2' /\ incl ev2' full)).
    { intros rest tl -> Htl full -> Hin.
      apply in_app_or in Hin. destruct Hin as [Hin | Hin].
      { destruct (Hp _ [] Hin) as [[] | Hm]. now left. }
      apply in_app_or in Hin. destruct Hin as [Hin | Hin].
      { right. left. exists (Ok None), ev1. repeat split; auto.
        intros y Hy. apply in_or_app. right. apply in_or_app. now left. }
      apply in_app_or in Hin. destruct Hin as [[<- | []] | Hin].
      { left. eauto. }
      apply in_app_or in Hin. destruct Hin as [Hin | Hin].
      { right. right. exists r2, ev2. repeat split; auto.
        intros y Hy. apply in_or_app. right. apply in_or_app. right.
        apply in_or_app. right. apply in_or_app. now left. }
      left. now apply Htl. }
    intros H Hin.
    assert (Htr : exists tl,
              (forall y, In y tl -> exists m, y = EvPrint m)
              /\ tr = ((if verbose
                        then [EvPrint "Attempting headless token refresh..."]
                        else []) ++ ev1
                       ++ [EvPrint "Opening browser for BSA login. Please sign in..."]
                       ++ ev2 ++ tl)%list).
    { destruct r2 as [[t2 |] | e]; injection H as _ <-.
      - eexists. split; [| reflexivity]. intros y [<- | []]. eauto.
      - exists []. split; [intros y [] | now rewrite app_nil_r].
      - exists []. split; [intros y [] | now rewrite app_nil_r]. }
    destruct Htr as (tl & Htl & Htr).
    exact (Hcore _ tl eq_refl Htl tr Htr Hin).
  - intros [= _ <-] Hin.
    apply in_app_or in Hin. destruct Hin as [Hin | Hin].
    { destruct (Hp _ [] Hin) as [[] | Hm]. now left. }
    right. left. exists (Raise e), ev1. repeat split; auto.
    intros y Hy. apply in_or_app. now right.
Qed.

(** X11.  Every browser that [acquire_token_via_browser] launched
    successfully is closed before it returns or raises, in the headless
    and in the headed mode. *)
Theorem acquire_closes_every_browser (cfg : browser_config) (w : world)
    (verbose : bool) (fuel : nat) (r : result string) (tr : list event)
    (headless : bool) :
  acquire_token_via_browser cfg w verbose fuel = Some (r, tr) ->
  In (EvLaunch headless) tr ->
  launch_error (session_of w headless) = None ->
  In (EvClose headless) tr.
Proof.
  intros H Hin Hl.
  destruct (acquire_events _ _ _ _ _ _ _ H Hin)
    as [[m Hm] | [(r1 & ev1 & H1 & Hin1 & Hincl) | (r2 & ev2 & H2 & Hin2 & Hincl)]].
  - discriminate Hm.
  - rewrite (try_acquire_launch_mode _ _ _ _ _ _ _ _ H1 Hin1) in *.
    apply Hincl. exact (try_acquire_closes _ _ _ _ _ _ _ H1 Hl).
  - rewrite (try_acquire_launch_mode _ _ _ _ _ _ _ _ H2 Hin2) in *.
    apply Hincl. exact (try_acquire_closes _ _ _ _ _ _ _ H2 Hl).
Qed.

(** X12.  A run that is not verbose prints nothing but the two lines
    of the headed phase, and only when a headed browser was launched. *)
Theorem quiet_run_prints_only_the_login_prompt (cfg : browser_config)
    (w : world) (fuel : nat) (r : result string) (tr : list event)
    (line : string) :
  acquire_token_via_browser cfg w false fuel = Some (r, tr) ->
  In (EvPrint line) tr ->
  In (EvLaunch false) tr
  /\ (line = "Opening browser for BSA login. Please sign in..."
      \/ line = "Login successful. Token captured.").
Proof.
  unfold acquire_token_via_browser.
  destruct (_check_playwright_available w); [| intros [= _ <-] []].
  destruct (_try_acquire (headless_session w) true _ false fuel)
    as [[r1 ev1] |] eqn:H1; [| discriminate].
  pose proof (try_acquire_quiet _ _ _ _ _ _ line H1) as Hq1.
  destruct r1 as [[t1 |] | e].
  - intros [= _ <-] Hin. cbn in Hin. rewrite app_nil_r in Hin. contradiction.
  - destruct (_try_acquire (headed_session w) false _ false fuel)
      as [[r2 ev2] |] eqn:H2; [| discriminate].
    pose proof (try_acquire_quiet _ _ _ _ _ _ line H2) as Hq2.
    assert (Hlaunch : In (EvLaunch false) ev2).
    { destruct (try_acquire_shape _ _ _ _ _ _ _ H2)
        as [(e & _ & _ & ->) | (_ & printed & -> & _)]; now left. }
    assert (Hl : forall tl, In (EvLaunch false)
               ([] ++ ev1
                ++ [EvPrint "Opening browser for BSA login. Please sign in..."]
                ++ ev2 ++ tl)%list).
    { intros tl. cbn. apply in_or_app. right. right. apply in_or_app. now left. }
    destruct r2 as [[t2 |] | e]; intros [= _ <-] Hin.
    + split; [apply Hl|]. cbn in Hin.
      apply in_app_or in Hin. destruct Hin as [Hin | [Hin | Hin]];
        [contradiction | left; now injection Hin |].
      apply in_app_or in Hin. destruct Hin as [Hin | [Hin | []]];
        [contradiction | right; now injection Hin].
    + split; [rewrite <- (app_nil_r ev2); apply Hl|]. cbn in Hin.
      apply in_app_or in Hin. destruct Hin as [Hin | [Hin | Hin]];
        [contradiction | left; now injection Hin | contradiction].
    + split; [rewrite <- (app_nil_r ev2); apply Hl|]. cbn in Hin.
      apply in_app_or in Hin. destruct Hin as [Hin | [Hin | Hin]];
        [contradiction | left; now injection Hin | contradiction].
  - intros [= _ <-] Hin. cbn in Hin. contradiction.
Qed.

Lemma poll_loop_finds (s : session) (deadline : Z) (k : nat) (token : string) :
  _extract_token_from_page (storage s k) = Some token ->
  (forall i, (i < k)%nat -> _extract_token_from_page (storage s i) = None) ->
  (forall i, (1 <= i <= k)%nat -> clock s i < deadline) ->
  forall fuel j, (1 <= j <= k)%nat -> (k - j < fuel)%nat ->
  poll_loop s deadline j fuel = Some (Some token).
Proof.
  intros Hk Hnone Hclock. induction fuel as [| fuel IH]; intros j Hj Hf; [lia|].
  cbn. destruct (Z.ltb_spec (clock s j) deadline) as [_ | Hge].
  2:{ specialize (Hclock j Hj). lia. }
  destruct (Nat.eq_dec j k) as [-> | Hne].
  - now rewrite Hk.
  - rewrite Hnone by lia. apply IH; lia.
Qed.

(** X13.  When the token shows in the storage at the [k]-th reading,
    before the deadline, one launch returns it and closes the browser
    (given fuel for [k] turns of the polling loop). *)
Theorem try_acquire_finds_token (s : session) (headless verbose : bool)
    (timeout : Z) (k fuel : nat) (token : string) :
  shows_token_at s timeout k token -> (k <= fuel)%nat ->
  exists ev,
    _try_acquire s headless timeout verbose fuel = Some (Ok (Some token), ev)
    /\ In (EvClose headless) ev.
Proof.
  intros (Hl & Hg & Hc & Hnone & Hk & Hclock) Hf.
  unfold _try_acquire, _poll_for_token. rewrite Hl, Hg, Hc.
  destruct k as [| k].
  - rewrite Hk. eexists. split; [reflexivity|].
    apply in_or_app. right. apply in_or_app. right. apply in_or_app. right.
    now left.
  - rewrite (Hnone 0%nat) by lia.
    rewrite (poll_loop_finds s _ (S k) token Hk Hnone Hclock) by lia.
    eexists. split; [reflexivity|].
    apply in_or_app. right. apply in_or_app. right. apply in_or_app. right.
    now left.
Qed.

(** X14.  A headless browser that fails to launch ends the
    acquisition with that exception and no headed launch; a page that
    fails to load in the headless browser is passed over: the browser is
    closed and the headed phase follows. *)
Theorem headless_failure_modes (cfg : browser_config) (w : world)
    (verbose : bool) (fuel : nat) :
  playwright_installed w = true ->
  (forall e, launch_error (headless_session w) = Some e ->
     exists tr,
       acquire_token_via_browser cfg w verbose fuel = Some (Raise e, tr)
       /\ ~ In (EvLaunch false) tr)
  /\ (forall e r tr,
        launch_error (headless_session w) = None ->
        goto_error (headless_session w) = Some e ->
        close_error (headless_session w) = None ->
        acquire_token_via_browser cfg w verbose fuel = Some (r, tr) ->
        In (EvLaunch false) tr /\ In (EvClose true) tr).
Proof.
  intros Hp. unfold acquire_token_via_browser, _check_playwright_available.
  rewrite Hp. split.
  - intros e Hl. unfold _try_acquire at 1. rewrite Hl.
    eexists. split; [reflexivity|]. intros Hin.
    apply in_app_or in Hin. destruct Hin as [Hin | [Hin | []]];
      [| discriminate Hin].
    destruct verbose; [destruct Hin as [Hin | []]; discriminate Hin | destruct Hin].
  - intros e r tr Hl Hg Hc. unfold _try_acquire at 1. rewrite Hl, Hg, Hc.
    destruct (_try_acquire (headed_session w) false _ verbose fuel)
      as [[r2 ev2] |] eqn:H2; [| discriminate].
    assert (Hlaunch : In (EvLaunch false) ev2).
    { destruct (try_acquire_shape _ _ _ _ _ _ _ H2)
        as [(e2 & _ & _ & ->) | (_ & printed & -> & _)]; now left. }
    intros H.
    destruct r2 as [[t2 |] | e2]; injection H as _ <-; split; find_in.
Qed.

End BrowserMoreFacts.

Lemma acquired_token_has_jwt_prefix_witness :
  exists token tr,
    BrowserAuth.acquire_token_via_browser (L := Samples.stdlib)
      default_browser_config Samples.warm_world false 10 = Some (Ok token, tr)
    /\ startswith token "eyJ" = true.
Proof.
  do 2 eexists. split; [vm_compute; reflexivity|].
  eapply (acquired_token_has_jwt_prefix (L := Samples.stdlib)
            default_browser_config Samples.warm_world false 10).
  vm_compute. reflexivity.
Defined.

Lemma acquire_closes_every_browser_witness :
  exists r tr,
    BrowserAuth.acquire_token_via_browser (L := Samples.stdlib)
      default_browser_config Samples.warm_world false 10 = Some (r, tr)
    /\ In (BrowserAuth.EvClose true) tr.
Proof.
  do 2 eexists. split; [vm_compute; reflexivity|].
  apply (acquire_closes_every_browser (L := Samples.stdlib)
           default_browser_config Samples.warm_world false 10
           (Ok Samples.good_token)).
  - vm_compute. reflexivity.
  - simpl. left. reflexivity.
  - reflexivity.
Defined.

Lemma quiet_run_prints_only_the_login_prompt_witness :
  exists r tr,
    BrowserAuth.acquire_token_via_browser (L := Samples.stdlib)
      default_browser_config SamplesMore.offline_world false 10 = Some (r, tr)
    /\ In (BrowserAuth.EvLaunch false) tr
    /\ ("Login successful. Token captured."
        = "Opening browser for BSA login. Please sign in..."
        \/ "Login successful. Token captured."
           = "Login successful. Token captured.").
Proof.
  do 2 eexists. split; [vm_compute; reflexivity|].
  apply (quiet_run_prints_only_the_login_prompt (L := Samples.stdlib)
           default_browser_config SamplesMore.offline_world 10 (Ok Samples.good_token)).
  - vm_compute. reflexivity.
  - simpl. do 5 right. left. reflexivity.
Defined.

Lemma try_acquire_finds_token_witness :
  exists ev,
    BrowserAuth._try_acquire (L := Samples.stdlib) Samples.warm_session true
      15 false 3 = Some (Ok (Some Samples.good_token), ev)
    /\ In (BrowserAuth.EvClose true) ev.
Proof.
  apply (try_acquire_finds_token (L := Samples.stdlib) Samples.warm_session
           true false 15 3 3 Samples.good_token); [| lia].
  unfold SpecMore.shows_token_at. repeat split; try reflexivity.
  - intros i Hi.
    destruct i as [| [| [| i]]]; try reflexivity. lia.
  - intros i Hi. cbn -[Z.mul Z.of_nat]. lia.
Defined.

Lemma headless_failure_modes_witness :
  exists r tr,
    BrowserAuth.acquire_token_via_browser (L := Samples.stdlib)
      default_browser_config SamplesMore.offline_world false 10 = Some (r, tr)
    /\ In (BrowserAuth.EvLaunch false) tr /\ In (BrowserAuth.EvClose true) tr.
Proof.
  do 2 eexists. split; [vm_compute; reflexivity|].
  apply (proj2 (headless_failure_modes (L := Samples.stdlib)
                  default_browser_config SamplesMore.offline_world false 10 eq_refl)
           (builtin_error UpstreamError) (Ok Samples.good_token)).
  - reflexivity.
  - reflexivity.
  - reflexivity.
  - vm_compute. reflexivity.
Defined.

(** ** scouting_client.py and errors.py *)

Lemma prefix_app (a b : string) : String.prefix a (a ++ b) = true.
Proof.
  induction a as [| c a IH]; cbn; [now destruct b|].
  destruct (Ascii.ascii_dec c c) as [_ | Hne]; [exact IH | now destruct Hne].
Qed.

Lemma dict_get_set_other {A : Type} (k k0 : string) (v : A)
    (d : list (string * A)) :
  k <> k0 -> dict_get k0 (dict_set k v d) = dict_get k0 d.
Proof.
  intros Hne. induction d as [| [k' v'] d IH]; cbn [dict_get dict_set].
  - destruct (String.eqb_spec k0 k); [congruence | reflexivity].
  - destruct (String.eqb_spec k k') as [-> | Hk]; cbn [dict_get].
    + destruct (String.eqb_spec k0 k'); [congruence | reflexivity].
    + destruct (String.eqb_spec k0 k'); [reflexivity | exact IH].
Qed.

Lemma dict_get_set_same {A : Type} (k : string) (v : A)
    (d : list (string * A)) :
  dict_get k (dict_set k v d) = Some v.
Proof.
  induction d as [| [k' v'] d IH]; cbn [dict_get dict_set].
  - now rewrite String.eqb_refl.
  - destruct (String.eqb_spec k k') as [-> | Hk]; cbn [dict_get].
    + now rewrite String.eqb_refl.
    + destruct (String.eqb_spec k k'); [contradiction | exact IH].
Qed.

(** X27.  [_handle_response] returns a value exactly for the
    responses that are [ok]: the empty dictionary for an empty body, the
    body wrapped under ["raw"] when it is not JSON.  A response that is
    not [ok] whose body is JSON but not an object raises
    [AttributeError], not a [ScoutingError]. *)
Theorem handle_response_returns_iff_ok (r : Client.response) :
  ((exists v, Client._handle_response r = Client.Returned v)
   <-> Client.ok r = true)
  /\ (Client.ok r = true -> Client.content_empty r = true ->
      Client._handle_response r = Client.Returned (VDict []))
  /\ (Client.ok r = true -> Client.content_empty r = false ->
      Client.json r = None ->
      Client._handle_response r
      = Client.Returned (VDict [("raw", VStr (Client.text r))]))
  /\ (Client.ok r = false ->
      forall b, Client.json r = Some b -> (forall d, b <> VDict d) ->
      Client._handle_response r = Client.RaisedBuiltin AttributeError).
Proof.
  unfold Client._handle_response. destruct (Client.ok r).
  - repeat split; try discriminate.
    + destruct (Client.content_empty r); [eauto|].
      destruct (Client.json r); eauto.
    + intros _ ->. reflexivity.
    + intros _ -> ->. reflexivity.
  - repeat split; try discriminate.
    + intros [v H]. destruct (Client.json r) as [[] |]; discriminate H.
    + intros _ b -> Hb. destruct b; try reflexivity. now destruct (Hb d).
Qed.

Lemma to_dict_keeps_head (e : Client.scouting_error) :
  (forall k, In k (map fst (Client.err_metadata e)) ->
             k <> "error" /\ k <> "message") ->
  dict_get "error" (Client.to_dict e) = Some (VStr (Client.err_class e))
  /\ dict_get "message" (Client.to_dict e) = Some (VStr (Client.err_message e)).
Proof.
  unfold Client.to_dict, Client.dict_update.
  set (base := match Client.err_suggestion e with
               | Some s => _ | None => _ end).
  assert (Hb : dict_get "error" base = Some (VStr (Client.err_class e))
               /\ dict_get "message" base = Some (VStr (Client.err_message e))).
  { unfold base. destruct (Client.err_suggestion e) as [s |];
      [destruct (s =? "")%string |]; split; reflexivity. }
  clearbody base. revert base Hb.
  induction (Client.err_metadata e) as [| [k v] m IH]; cbn; intros base Hb Hk.
  - exact Hb.
  - apply IH.
    + destruct (Hk k (or_introl eq_refl)) as [Hk1 Hk2]. destruct Hb as [H1 H2].
      split; rewrite dict_get_set_other; auto.
    + intros k0 Hin. apply Hk. now right.
Qed.

Lemma error_map_metadata (status : Z) (msg : string) (k : string) :
  In k (map fst (Client.err_metadata (Client.ERROR_MAP status msg))) ->
  k <> "error" /\ k <> "message".
Proof.
  unfold Client.ERROR_MAP.
  repeat match goal with
         | |- context [if ?b then _ else _] => destruct b
         end; cbn; intros H;
    repeat (destruct H as [<- | H]; [split; discriminate|]); destruct H.
Qed.

Lemma error_map_message (status : Z) (msg : string) :
  Client.err_message (Client.ERROR_MAP status msg) = msg.
Proof.
  unfold Client.ERROR_MAP.
  repeat match goal with
         | |- context [if ?b then _ else _] => destruct b
         end; reflexivity.
Qed.

(** X28.  A [ScoutingError] raised by [_handle_response] comes from a
    response that is not [ok], has the class [ERROR_MAP] gives to the
    status, and a message that starts with the status code; [to_dict]
    keeps the class name and that message under ["error"] and
    ["message"], whatever the metadata. *)
Theorem handle_response_error_dict (r : Client.response)
    (e : Client.scouting_error) :
  Client._handle_response r = Client.Raised e ->
  Client.ok r = false
  /\ (exists msg,
        e = Client.ERROR_MAP (Client.status_code r)
              (str_of_Z (Client.status_code r) ++ ": " ++ msg))
  /\ dict_get "error" (Client.to_dict e) = Some (VStr (Client.err_class e))
  /\ (exists m,
        dict_get "message" (Client.to_dict e) = Some (VStr m)
        /\ String.prefix (str_of_Z (Client.status_code r) ++ ": ") m = true).
Proof.
  unfold Client._handle_response. destruct (Client.ok r).
  { destruct (Client.content_empty r); [discriminate|].
    destruct (Client.json r); discriminate. }
  intros H. split; [reflexivity|].
  assert (Hm : exists msg,
            e = Client.ERROR_MAP (Client.status_code r)
                  (str_of_Z (Client.status_code r) ++ ": " ++ msg)).
  { destruct (Client.json r) as [[] |]; try discriminate H;
      injection H as <-; eexists; reflexivity. }
  split; [exact Hm|]. clear H. destruct Hm as [msg ->].
  destruct (to_dict_keeps_head _
              (error_map_metadata (Client.status_code r)
                 (str_of_Z (Client.status_code r) ++ ": " ++ msg)))
    as [H1 H2].
  split; [exact H1|]. eexists. split; [exact H2|].
  rewrite error_map_message.
  replace (str_of_Z (Client.status_code r) ++ ": " ++ msg)
    with ((str_of_Z (Client.status_code r) ++ ": ") ++ msg).
  - apply prefix_app.
  - clear. induction (str_of_Z (Client.status_code r)) as [| c s IH]; cbn;
      [reflexivity | now rewrite IH].
Qed.

(** ** context.py *)

Import Context Spec Props ContextMore SpecMore.
Import ContextProofs.
Local Open Scope ctx_scope.

Section ContextMoreFacts.
Context `{L : Stdlib}.

(** X15.  On a loaded snapshot [is_stale] never raises, and it answers
    [False] exactly when [lastRefreshed] is a string that parses to an
    instant at most seven days old. *)
Theorem is_stale_fresh_iff (now : Z) (c : context) (d : list (string * val)) :
  fst (_load c) = VDict d ->
  (exists b, fst (is_stale now c) = Ok b)
  /\ (fst (is_stale now c) = Ok false
      <-> exists s t,
            dict_get "lastRefreshed" d = Some (VStr s)
            /\ fromisoformat s = Ok (Aware t)
            /\ now - t <= CONTEXT_MAX_AGE).
Proof.
  unfold is_stale. destruct (_load c) as [data c']. cbn [fst]. intros ->.
  destruct d as [| kv d0].
  { cbn. split; [eexists; reflexivity|]. split; [discriminate|].
    intros (s & t & H & _). discriminate H. }
  cbn [truthy negb fst]. generalize (kv :: d0). clear kv d0. intros d.
  unfold py_get, py_get_default, bind. cbn [fst].
  destruct (dict_get "lastRefreshed" d) as [refreshed |] eqn:Hd.
  2:{ cbn. split; [eexists; reflexivity|]. split; [discriminate|].
      intros (s & t & H & _). discriminate H. }
  destruct refreshed as [| b | z | s | l | d1]; cbn [truthy].
  4:{ destruct (String.eqb_spec s "") as [-> | Hne]; cbn [negb].
      - split; [eexists; reflexivity|]. split; [discriminate|].
        intros (s0 & t & [= <-] & Hf & _). exfalso.
        exact (fromisoformat_empty _ Hf).
      - destruct (fromisoformat s) as [[w | t] | e] eqn:Hf.
        + split; [eexists; reflexivity|]. split; [discriminate|].
          intros (s0 & t & [= <-] & Hf' & _). congruence.
        + split; [eexists; reflexivity|]. split.
          * intros [= H]. apply Z.ltb_ge in H. exists s, t. auto.
          * intros (s0 & t0 & [= <-] & Hf' & Hle).
            assert (t0 = t) by congruence. subst t0.
            f_equal. now apply Z.ltb_ge.
        + split; [eexists; reflexivity|]. split; [discriminate|].
          intros (s0 & t & [= <-] & Hf' & _). congruence. }
  all: split;
    [ repeat match goal with
             | |- context [if ?x then _ else _] => destruct x
             end; eauto
    | split;
      [ repeat match goal with
               | |- context [if ?x then _ else _] => destruct x
               end; discriminate
      | intros (s0 & t & H & _); discriminate H ] ].
Qed.

(** What [refresh] leaves in the object and on disk. *)
Lemma refresh_saves (cl : client) (now_info now_save : Z) (tf : Auth.file)
    (c c' : context) (snap : snapshot) (cs : list call) :
  refresh cl now_info now_save tf c = (Ok snap, c', cs) ->
  _data c' = snapshot_to_val snap
  /\ context_file c' = Auth.Content (snapshot_to_val snap)
  /\ snap_version snap = CONTEXT_VERSION
  /\ snap_lastRefreshed snap = isoformat (Aware now_save).
Proof.
  unfold refresh.
  destruct (Auth.get_token_info now_info tf) as [info | e]; [| discriminate].
  destruct (py_get info "uid") as [uid | e]; [| discriminate].
  destruct (py_get info "pgu") as [pgu | e]; [| discriminate].
  cbn. intros [= <- <- _]. cbn. repeat split.
Qed.

Lemma load_saved (c : context) (snap : snapshot) :
  _data c = snapshot_to_val snap ->
  context_file c = Auth.Content (snapshot_to_val snap) ->
  fst (_load c) = snapshot_to_val snap
  /\ fst (_load (reopened c)) = snapshot_to_val snap.
Proof.
  intros Hd Hf. unfold _load, reopened. cbn. rewrite Hd, Hf. split; reflexivity.
Qed.


Lemma saved_is_stale (now t : Z) (c : context) (snap : snapshot) :
  fst (_load c) = snapshot_to_val snap ->
  snap_lastRefreshed snap = isoformat (Aware t) ->
  iso_roundtrip t ->
  is_stale now c = (Ok (CONTEXT_MAX_AGE <? now - t), snd (_load c)).
Proof.
  intros Hl Hs Hr.
  assert (Hne : isoformat (Aware t) <> "").
  { intros He. unfold iso_roundtrip in Hr. rewrite He in Hr.
    exact (fromisoformat_empty _ Hr). }
  unfold is_stale.
  destruct (_load c) as [data c3]. cbn [fst snd] in *. subst data.
  cbn. rewrite Hs.
  destruct (String.eqb_spec (isoformat (Aware t)) "") as [He | _];
    [contradiction|]. cbn.
  unfold iso_roundtrip in Hr. now rewrite Hr.
Qed.

(** X17.  After [refresh] at the instant [now_save], [is_stale] at the
    instant [now] is [True] exactly when more than seven days have
    passed.  (The printed instant is assumed to parse back.) *)
Theorem refreshed_context_is_fresh (cl : client) (now_info now_save : Z)
    (tf : Auth.file) (c c' : context) (snap : snapshot) (cs : list call)
    (now : Z) :
  refresh cl now_info now_save tf c = (Ok snap, c', cs) ->
  iso_roundtrip now_save ->
  fst (is_stale now c') = Ok (CONTEXT_MAX_AGE <? now - now_save)
  /\ fst (is_stale now (reopened c')) = Ok (CONTEXT_MAX_AGE <? now - now_save).
Proof.
  intros H Hr.
  destruct (refresh_saves _ _ _ _ _ _ _ _ H) as (Hd & Hf & _ & Hs).
  destruct (load_saved c' snap Hd Hf) as [H1 H2].
  split; [rewrite (saved_is_stale now now_save c' snap H1 Hs Hr)
         | rewrite (saved_is_stale now now_save _ snap H2 Hs Hr)]; reflexivity.
Qed.

(** A step whose request fails changes nothing but the log of calls. *)
Lemma failed_request_passes {A : Type} (cl : client) (c : call)
    (k : val -> M A) (s : locals) (e : exn) :
  cl (calls s) c = Raise e ->
  snd (mbind (request cl c) k s)
  = {| user := user s; orgs := orgs s; seen := seen s; scouts := scouts s;
       calls := (calls s ++ [c])%list |}.
Proof.
  intros H. unfold mbind, request. now rewrite H.
Qed.

Lemma steps_with_failing_client (cl : client) (uid pgu : val) (s : locals) :
  (forall cs c, exists e, cl cs c = Raise e) ->
  same_data s (snd (step_user cl uid s))
  /\ same_data s (snd (step_orgs cl uid s))
  /\ same_data s (snd (step_scouts cl uid s))
  /\ same_data s (snd (step_roles cl pgu s)).
Proof.
  intros Hcl. unfold step_user, step_orgs, step_scouts, step_roles, when,
    try_pass, fetch_user_fields, fetch_profile_orgs, fetch_scouts, fetch_roles.
  repeat split; cbn [snd];
    match goal with
    | |- context [if ?b then _ else _] => destruct b
    end; try reflexivity;
    match goal with
    | |- context [request cl ?c] =>
        destruct (Hcl (calls s) c) as [e He];
        rewrite (failed_request_passes cl c _ s e He); reflexivity
    end.
Qed.

(** X18.  When every call of the client raises, [refresh] still
    returns and saves a snapshot: the user section has only the two
    identifiers of the token, and there are no organizations and no
    scouts. *)
Theorem refresh_overwrites_when_every_call_fails (cl : client)
    (now_info now_save : Z) (tf : Auth.file) (c : context)
    (info uid pgu : val) :
  (forall cs c, exists e, cl cs c = Raise e) ->
  Auth.get_token_info now_info tf = Ok info ->
  py_get info "uid" = Ok uid -> py_get info "pgu" = Ok pgu ->
  exists snap c' cs,
    refresh cl now_info now_save tf c = (Ok snap, c', cs)
    /\ snap_user snap = [("userId", uid); ("personGuid", pgu)]
    /\ snap_organizations snap = []
    /\ snap_scouts snap = []
    /\ context_file c' = Auth.Content (snapshot_to_val snap).
Proof.
  intros Hcl Hi Hu Hp. unfold refresh. rewrite Hi, Hu, Hp. cbn.
  do 3 eexists. split; [reflexivity|]. cbn.
  rewrite refresh_steps_unfold.
  set (s0 := initial uid pgu).
  destruct (steps_with_failing_client cl uid pgu s0 Hcl) as ((U1 & O1 & S1) & _).
  set (s1 := snd (step_user cl uid s0)) in *.
  destruct (steps_with_failing_client cl uid pgu s1 Hcl)
    as (_ & (U2 & O2 & S2) & _).
  set (s2 := snd (step_orgs cl uid s1)) in *.
  destruct (steps_with_failing_client cl uid pgu s2 Hcl)
    as (_ & _ & (U3 & O3 & S3) & _).
  set (s3 := snd (step_scouts cl uid s2)) in *.
  destruct (steps_with_failing_client cl uid pgu s3 Hcl)
    as (_ & _ & _ & (U4 & O4 & S4)).
  rewrite U4, U3, U2, U1, O4, O3, O2, O1, S4, S3, S2, S1.
  repeat split.
Qed.

(** X19.  With no cached token, [refresh] calls the client not once and
    saves a snapshot with both identifiers [None] and nothing else. *)
Theorem refresh_without_token_calls_nothing (cl : client)
    (now_info now_save : Z) (tf : Auth.file) (c : context) :
  truthy (Auth._load_cached_token tf) = false ->
  exists snap c',
    refresh cl now_info now_save tf c = (Ok snap, c', [])
    /\ snap_user snap = [("userId", VNone); ("personGuid", VNone)]
    /\ snap_organizations snap = []
    /\ snap_scouts snap = []
    /\ context_file c' = Auth.Content (snapshot_to_val snap).
Proof.
  intros Ht. unfold refresh, Auth.get_token_info. rewrite Ht. cbn.
  do 2 eexists. repeat split.
Qed.

End ContextMoreFacts.

(** * [resolve_scout] *)

Lemma resolve_loop_filters (ql : string) (items matches : list val) :
  resolve_loop ql items = Ok matches ->
  matches = filter (hit ql) items
  /\ Forall (fun x => exists b, matches_query ql x = Ok b) items.
Proof.
  revert matches. induction items as [| x items IH]; cbn; intros matches.
  - intros [= <-]. split; constructor.
  - unfold hit. destruct (matches_query ql x) as [b | e] eqn:Hx; [| discriminate].
    cbn. destruct (resolve_loop ql items) as [ms | e]; [| discriminate].
    cbn. intros [= <-]. destruct (IH ms eq_refl) as [-> Hall].
    split; [now destruct b | constructor; eauto].
Qed.

(** X23.  What [resolve_scout] returns is the cached scouts, in their
    order, for which the test is true; when it returns, the test has
    raised on no cached scout. *)
Theorem resolve_scout_filters (query : string) (c : context)
    (matches : list val) :
  fst (resolve_scout query c) = Ok matches ->
  exists scouts items,
    fst (get_scouts c) = Ok scouts /\ py_iter scouts = Ok items
    /\ matches = filter (hit (lower query)) items
    /\ Forall (fun x => exists b, matches_query (lower query) x = Ok b) items.
Proof.
  unfold resolve_scout. destruct (get_scouts c) as [[scouts | e] c1];
    cbn; [| discriminate].
  destruct (py_iter scouts) as [items | e] eqn:Hi; cbn; [| discriminate].
  intros H. exists scouts, items.
  destruct (resolve_loop_filters _ _ _ H) as [H1 H2]. auto.
Qed.

Lemma prefix_empty (s : string) : String.prefix "" s = true.
Proof. destruct s; reflexivity. Qed.

Lemma is_substring_empty (s : string) : is_substring "" s = true.
Proof. destruct s; reflexivity. Qed.

Lemma lowered_name (v : val) :
  is_name v = true -> exists s, lowered v = Ok s.
Proof.
  destruct v; try discriminate; intros _; unfold lowered, py_or; cbn.
  - eauto.
  - destruct (negb (s =? "")%string); eauto.
Qed.

Lemma matches_named (ql : string) (scout : val) :
  named_scout scout = true -> exists b, matches_query ql scout = Ok b.
Proof.
  destruct scout; try discriminate. unfold named_scout, field, matches_query.
  cbn. intros H. apply andb_true_iff in H. destruct H as [H H3].
  apply andb_true_iff in H. destruct H as [H1 H2].
  destruct (lowered_name _ H1) as [s1 ->].
  destruct (lowered_name _ H2) as [s2 ->].
  destruct (lowered_name _ H3) as [s3 ->]. cbn. eauto.
Qed.

Lemma resolve_loop_named (ql : string) (items : list val) :
  forallb named_scout items = true ->
  resolve_loop ql items = Ok (filter (hit ql) items).
Proof.
  induction items as [| x items IH]; cbn; [reflexivity|].
  intros H. apply andb_true_iff in H. destruct H as [Hx Hi].
  unfold hit at 1. destruct (matches_named ql x Hx) as [b ->].
  cbn. rewrite (IH Hi). cbn. now destruct b.
Qed.

(** X24.  On a cache whose scouts are dictionaries with names that are
    strings, [None] or missing, [resolve_scout] returns for every query,
    and the empty query returns all of them. *)
Theorem resolve_scout_total_on_named (query : string) (c : context)
    (items : list val) :
  fst (get_scouts c) = Ok (VList items) ->
  forallb named_scout items = true ->
  fst (resolve_scout query c) = Ok (filter (hit (lower query)) items)
  /\ fst (resolve_scout "" c) = Ok items.
Proof.
  intros Hg Hn. unfold resolve_scout.
  destruct (get_scouts c) as [r c1]. cbn [fst] in Hg. subst r. cbn.
  rewrite !resolve_loop_named by exact Hn. split; [reflexivity|].
  f_equal. clear - Hn. induction items as [| x items IH]; cbn; [reflexivity|].
  cbn in Hn. apply andb_true_iff in Hn. destruct Hn as [Hx Hi].
  assert (Hh : hit "" x = true).
  { unfold hit. destruct x; try discriminate.
    unfold matches_query. cbn.
    unfold named_scout, field in Hx. cbn in Hx.
    apply andb_true_iff in Hx. destruct Hx as [Hx H3].
    apply andb_true_iff in Hx. destruct Hx as [H1 H2].
    destruct (lowered_name _ H1) as [s1 ->].
    destruct (lowered_name _ H2) as [s2 ->].
    destruct (lowered_name _ H3) as [s3 ->]. cbn.
    now rewrite is_substring_empty. }
  rewrite Hh. now rewrite IH.
Qed.

Lemma lowered_raises (v : val) (e : exn) :
  lowered v = Raise e -> e = builtin_error AttributeError.
Proof.
  unfold lowered. destruct (py_or v (VStr "")); try discriminate;
    now intros [= <-].
Qed.

Lemma matches_query_raises (ql : string) (scout : val) (e : exn) :
  matches_query ql scout = Raise e -> e = builtin_error AttributeError.
Proof.
  unfold matches_query. destruct scout; cbn; try now intros [= <-].
  repeat match goal with
         | |- context [lowered ?v] =>
             let H := fresh "H" in
             destruct (lowered v) eqn:H; cbn;
             [| apply lowered_raises in H; subst; now intros [= <-]]
         end.
  discriminate.
Qed.

(** X25.  One cached scout that is not a dictionary, or has a name that
    is neither a string nor false, makes [resolve_scout] raise
    [AttributeError] for every query, the matches found before being
    lost. *)
Theorem resolve_scout_fails_on_a_bad_record (query : string) (c : context)
    (items : list val) (x : val) :
  fst (get_scouts c) = Ok (VList items) ->
  In x items -> hit "" x = false ->
  fst (resolve_scout query c) = Raise (builtin_error AttributeError).
Proof.
  intros Hg Hin Hx. unfold resolve_scout.
  destruct (get_scouts c) as [r c1]. cbn [fst] in Hg. subst r. cbn.
  assert (Hbad : forall ql, exists e, matches_query ql x = Raise e).
  { intros ql. unfold hit in Hx. unfold matches_query in *.
    destruct x; cbn in *; eauto.
    repeat match goal with
           | |- context [lowered ?v] =>
               destruct (lowered v); cbn in *; eauto
           end.
    rewrite is_substring_empty in Hx. discriminate Hx. }
  clear Hx. induction items as [| y items IH]; [destruct Hin|]. cbn.
  destruct (matches_query (lower query) y) as [b | e] eqn:Hy.
  - cbn. destruct Hin as [-> | Hin].
    + destruct (Hbad (lower query)) as [e He]. congruence.
    + rewrite (IH Hin). reflexivity.
  - cbn. now rewrite (matches_query_raises _ _ _ Hy).
Qed.

Section ShowFacts.
Context `{L : Stdlib}.


End ShowFacts.

(** * No role and no scout twice under an organization *)

Lemma neat_pure {A : Type} (m : M A) :
  (forall s, orgs (snd (m s)) = orgs s) -> neat m.
Proof. intros H s Hs. now rewrite H. Qed.

Lemma neat_bind {A B : Type} (m : M A) (k : A -> M B) :
  neat m -> (forall a, neat (k a)) -> neat (mbind m k).
Proof.
  intros Hm Hk s Hs. unfold mbind. specialize (Hm s Hs).
  destruct (m s) as [[a | e] s1]; cbn [snd] in *; [now apply Hk | exact Hm].
Qed.

Lemma neat_for_each {A : Type} (l : list A) (body : A -> M unit) :
  (forall x, neat (body x)) -> neat (for_each l body).
Proof.
  intros Hb. induction l as [| x l IH]; cbn.
  - now apply neat_pure.
  - apply neat_bind; [apply Hb | intros _; exact IH].
Qed.

Lemma neat_when (b : bool) (m : M unit) : neat m -> neat (when b m).
Proof. intros Hm. destruct b; [exact Hm | now apply neat_pure]. Qed.

Lemma neat_try_pass (m : M unit) : neat m -> neat (try_pass m).
Proof. intros Hm s Hs. exact (Hm s Hs). Qed.

Lemma neat_add (k : val) (o : org_entry) :
  org_ok o -> neat (set_orgs (od_add k o)).
Proof.
  intros Ho s Hs k' o' Hin. cbn in Hin. unfold od_add in Hin.
  apply in_app_or in Hin. destruct Hin as [Hin | [[= <- <-] | []]];
    [exact (Hs _ _ Hin) | exact Ho].
Qed.

(** [o = orgs[guid]], then a change of [orgs[guid]] under a test on [o]. *)
Lemma neat_guarded_update (guid : val) (cond : org_entry -> bool)
    (f : org_entry -> org_entry) :
  (forall o, cond o = true -> org_ok o -> org_ok (f o)) ->
  neat (o <- (fun s => (item guid (orgs s), s)) ;;
        when (cond o) (set_orgs (od_update guid f))).
Proof.
  intros Hf s Hs. unfold mbind, item.
  destruct (od_get guid (orgs s)) as [o |] eqn:Hg; [| exact Hs].
  unfold when. destruct (cond o) eqn:Hc; [| exact Hs].
  cbn. intros k v' Hin.
  destruct (od_update_In_get _ _ _ _ _ Hin) as [Hold | (v & Hv & Hin' & ->)].
  - exact (Hs _ _ Hold).
  - assert (v = o) by congruence. subst v.
    apply Hf; [exact Hc | exact (Hs _ _ Hin')].
Qed.

Ltac neat_step :=
  repeat first
    [ progress cbv zeta
    | match goal with
      | |- neat (mbind (fun s => (item _ (orgs s), s)) _) =>
          apply neat_guarded_update; intros ? ? [? ?]
      | |- neat (mbind _ _) => apply neat_bind; [| intros ?]
      | |- neat (for_each _ _) => apply neat_for_each; intros ?
      | |- neat (when _ _) => apply neat_when
      | |- neat (try_pass _) => apply neat_try_pass
      | |- neat (set_orgs (od_add _ _)) => apply neat_add
      | |- neat (if ?b then _ else _) => destruct b
      | |- neat (request _ _) => apply neat_pure; intros ?; reflexivity
      | |- neat (modify _) => apply neat_pure; intros ?; reflexivity
      | |- neat (lift _) => apply neat_pure; intros ?; reflexivity
      | |- neat (gets _) => apply neat_pure; intros ?; reflexivity
      | |- neat (ret _) => apply neat_pure; intros ?; reflexivity
      | |- neat (fun s => (_, s)) => apply neat_pure; intros ?; reflexivity
      end ].

Lemma add_role_neat (guid pos : val) : neat (add_role guid pos).
Proof.
  unfold add_role. neat_step. split; cbn; [| assumption].
  apply py_distinct_append; [assumption|].
  apply andb_true_iff in H. destruct H as [_ H]. now apply negb_true_iff.
Qed.

Lemma seed_org_neat (org : val) : neat (seed_org org).
Proof.
  unfold seed_org. neat_step.
  - split; constructor.
  - apply add_role_neat.
Qed.

Lemma enrich_org_neat (scout guid : val) : neat (enrich_org scout guid).
Proof.
  unfold enrich_org. neat_step.
  - split; [apply py_distinct_one | constructor].
  - split; cbn; [| assumption].
    apply py_distinct_append; [assumption | now apply negb_true_iff].
Qed.

Lemma merge_scout_neat (scout : val) : neat (merge_scout scout).
Proof.
  unfold merge_scout, add_position, set_seen. neat_step.
  apply enrich_org_neat.
Qed.

Lemma add_scout_ref_neat (scout : scout_entry) : neat (add_scout_ref scout).
Proof.
  unfold add_scout_ref. neat_step. split; cbn; [assumption|].
  unfold append. rewrite map_app. cbn.
  apply (py_distinct_append _ (sc_userId scout)); [assumption|].
  now apply negb_true_iff.
Qed.

Lemma backfill_program_neat (role : val) : neat (backfill_program role).
Proof.
  unfold backfill_program. neat_step. split; cbn; assumption.
Qed.

Lemma refresh_steps_neat (cl : client) (uid pgu : val) :
  neat (refresh_steps cl uid pgu).
Proof.
  unfold refresh_steps, step_user, step_orgs, step_scouts, step_roles,
    fetch_user_fields, fetch_profile_orgs, fetch_scouts, fetch_roles,
    set_user, set_seen, set_scouts.
  neat_step.
  - apply seed_org_neat.
  - apply merge_scout_neat.
  - apply add_scout_ref_neat.
  - apply backfill_program_neat.
Qed.

Section NeatFacts.
Context `{L : Stdlib}.

(** X21.  In every snapshot [refresh] returns, no organization lists a
    role twice, and none refers twice to a scout with the same user
    identifier. *)
Theorem refresh_lists_no_role_or_scout_twice (cl : client)
    (now_info now_save : Z) (tf : Auth.file) (c c' : context)
    (snap : snapshot) (cs : list call) :
  refresh cl now_info now_save tf c = (Ok snap, c', cs) ->
  forall o, In o (snap_organizations snap) ->
    py_distinct (org_roles o)
    /\ py_distinct (map ref_userId (org_scouts o)).
Proof.
  intros H o Hin. destruct (refresh_inv _ _ _ _ _ _ _ _ H)
    as (info & uid & pgu & _ & _ & _ & _ & Ho & _).
  rewrite Ho in Hin. unfold od_values in Hin. apply in_map_iff in Hin.
  destruct Hin as ([k o'] & <- & Hin).
  apply (refresh_steps_neat cl uid pgu (initial uid pgu)) with (k := k);
    [| exact Hin].
  intros k0 o0 [].
Qed.

End NeatFacts.

(** * Scouts are referred to under their organization *)

Lemma refs_le_refl (d : odict org_entry) : refs_le d d.
Proof. intros k o H. exists o. auto. Qed.

Lemma refs_le_trans (a b c : odict org_entry) :
  refs_le a b -> refs_le b c -> refs_le a c.
Proof.
  intros H1 H2 k o Ho. destruct (H1 _ _ Ho) as (o1 & Ho1 & Hi1).
  destruct (H2 _ _ Ho1) as (o2 & Ho2 & Hi2). exists o2. auto.
Qed.

Lemma listed_under_le (e : scout_entry) (d d' : odict org_entry) :
  refs_le d d' -> listed_under e d -> listed_under e d'.
Proof.
  intros Hle (o & Ho & Hin). destruct (Hle _ _ Ho) as (o' & Ho' & Hi).
  exists o'. auto.
Qed.

Lemma refs_le_add (d : odict org_entry) (k : val) (o : org_entry) :
  refs_le d (od_add k o d).
Proof.
  intros g o0 H. exists o0. rewrite od_get_add, H. auto.
Qed.

Lemma refs_le_update (d : odict org_entry) (k : val)
    (f : org_entry -> org_entry) :
  (forall o x, py_in x (map ref_userId (org_scouts o)) = true ->
               py_in x (map ref_userId (org_scouts (f o))) = true) ->
  refs_le d (od_update k f d).
Proof.
  intros Hf g o H.
  destruct (od_get_update g k f d o H) as (o' & Ho' & [-> | ->]);
    eexists; split; eauto.
Qed.

Lemma grows_pure {A : Type} (m : M A) :
  (forall s, orgs (snd (m s)) = orgs s) -> grows m.
Proof. intros H s. rewrite H. apply refs_le_refl. Qed.

Lemma grows_bind {A B : Type} (m : M A) (k : A -> M B) :
  grows m -> (forall a, grows (k a)) -> grows (mbind m k).
Proof.
  intros Hm Hk s. unfold mbind. specialize (Hm s).
  destruct (m s) as [[a | e] s1]; cbn [snd] in *; [| exact Hm].
  eapply refs_le_trans; [exact Hm | apply Hk].
Qed.

Lemma grows_for_each {A : Type} (l : list A) (body : A -> M unit) :
  (forall x, grows (body x)) -> grows (for_each l body).
Proof.
  intros Hb. induction l as [| x l IH]; cbn.
  - now apply grows_pure.
  - apply grows_bind; [apply Hb | intros _; exact IH].
Qed.

Lemma grows_when (b : bool) (m : M unit) : grows m -> grows (when b m).
Proof. intros Hm. destruct b; [exact Hm | now apply grows_pure]. Qed.

Lemma grows_try_pass (m : M unit) : grows m -> grows (try_pass m).
Proof. intros Hm s. exact (Hm s). Qed.

Lemma grows_update (k : val) (f : org_entry -> org_entry) :
  (forall o x, py_in x (map ref_userId (org_scouts o)) = true ->
               py_in x (map ref_userId (org_scouts (f o))) = true) ->
  grows (set_orgs (od_update k f)).
Proof. intros Hf s. cbn. now apply refs_le_update. Qed.

Ltac grows_step :=
  repeat first
    [ progress cbv zeta
    | match goal with
      | |- grows (mbind _ _) => apply grows_bind; [| intros ?]
      | |- grows (for_each _ _) => apply grows_for_each; intros ?
      | |- grows (when _ _) => apply grows_when
      | |- grows (try_pass _) => apply grows_try_pass
      | |- grows (set_orgs (od_update _ _)) => apply grows_update; intros ? ?
      | |- grows (if ?b then _ else _) => destruct b
      | |- grows (request _ _) => apply grows_pure; intros ?; reflexivity
      | |- grows (modify _) => apply grows_pure; intros ?; reflexivity
      | |- grows (lift _) => apply grows_pure; intros ?; reflexivity
      | |- grows (gets _) => apply grows_pure; intros ?; reflexivity
      | |- grows (ret _) => apply grows_pure; intros ?; reflexivity
      | |- grows (fun s => (_, s)) => apply grows_pure; intros ?; reflexivity
      end ].

Lemma py_in_app (x : val) (l1 l2 : list val) :
  py_in x (l1 ++ l2) = py_in x l1 || py_in x l2.
Proof. unfold py_in. apply existsb_app. Qed.

Lemma add_scout_ref_grows (e : scout_entry) : grows (add_scout_ref e).
Proof.
  unfold add_scout_ref. grows_step. cbn [org_scouts with_scouts].
  unfold append. rewrite map_app, py_in_app. intros ->. reflexivity.
Qed.

Lemma step_roles_grows (cl : client) (pgu : val) : grows (step_roles cl pgu).
Proof.
  unfold step_roles, fetch_roles, backfill_program. grows_step.
  cbn [org_scouts with_program]. auto.
Qed.

Lemma od_mem_hashable {A : Type} (d : odict A) (g : val) :
  keys_hashable d -> od_mem g d = true -> hashable g = true.
Proof.
  intros Hh Hm. unfold od_mem in Hm. apply existsb_exists in Hm.
  destruct Hm as ([k v] & Hin & He). cbn in He.
  assert (Hk : hashable k = true).
  { apply Hh. apply in_map_iff. now exists (k, v). }
  destruct k, g; cbn in *; try reflexivity; discriminate.
Qed.

(** One turn of the loop over the scouts, for a scout that has its
    organization. *)
Lemma add_scout_ref_lists (e : scout_entry) (s : locals) :
  OrgInv (orgs s) -> scout_ok (orgs s) e ->
  exists s',
    add_scout_ref e s = (Ok tt, s')
    /\ (truthy (sc_orgGuid e) = true -> hashable (sc_userId e) = true ->
        listed_under e (orgs s')).
Proof.
  intros (_ & Hh & _) (_ & Hm). unfold add_scout_ref. cbv zeta. unfold when.
  destruct (truthy (sc_orgGuid e)) eqn:Ht.
  2:{ eexists. split; [reflexivity | discriminate]. }
  specialize (Hm eq_refl).
  unfold mbind at 1, contains.
  rewrite (od_mem_hashable _ _ Hh Hm), Hm.
  unfold mbind, item. apply od_mem_get in Hm. destruct Hm as [o Ho]. rewrite Ho.
  destruct (py_in (sc_userId e) (map ref_userId (org_scouts o))) eqn:Hin;
    cbn [negb].
  - eexists. split; [reflexivity|]. intros _ _. exists o. auto.
  - eexists. split; [reflexivity|]. intros _ Hu. cbn [snd orgs set_orgs modify].
    eexists. split; [apply od_get_update_same; exact Ho|].
    cbn [org_scouts with_scouts]. unfold append. rewrite map_app, py_in_app.
    cbn [map ref_userId py_in existsb].
    rewrite (py_eq_refl _ Hu). now rewrite orb_true_r.
Qed.

Lemma add_scout_ref_loop (l : list scout_entry) (s : locals) :
  OrgInv (orgs s) -> (forall e, In e l -> scout_ok (orgs s) e) ->
  exists s',
    for_each l add_scout_ref s = (Ok tt, s')
    /\ forall e, In e l ->
         truthy (sc_orgGuid e) = true -> hashable (sc_userId e) = true ->
         listed_under e (orgs s').
Proof.
  revert s. induction l as [| x l IH]; intros s HO Hok; cbn.
  - eexists. split; [reflexivity | intros e []].
  - destruct (add_scout_ref_lists x s HO (Hok x (or_introl eq_refl)))
      as (s1 & H1 & Hx).
    unfold mbind. rewrite H1.
    destruct (add_scout_ref_tame x s HO) as (HO1 & Hle1 & _).
    rewrite H1 in HO1, Hle1. cbn [snd] in HO1, Hle1.
    destruct (IH s1 HO1) as (s' & Hl & Hall).
    { intros e He. eapply scout_ok_le; [exact Hle1 | apply Hok; now right]. }
    exists s'. split; [exact Hl|].
    intros e [<- | He] Ht Hu; [| now apply Hall].
    pose proof (grows_for_each l _ add_scout_ref_grows s1) as Hg.
    rewrite Hl in Hg. cbn [snd] in Hg.
    eapply listed_under_le; [exact Hg | now apply Hx].
Qed.

Lemma step_scouts_listed (cl : client) (uid : val) (s : locals) :
  PassInv s -> scouts s = [] -> Listed (snd (step_scouts cl uid s)).
Proof.
  intros HI Hs.
  assert (Hnil : forall s', scouts s' = [] -> Listed s').
  { intros s' H e Hin. rewrite H in Hin. destruct Hin. }
  unfold step_scouts, when. destruct (truthy uid); [| now apply Hnil].
  unfold try_pass, fetch_scouts. cbn [snd].
  unfold mbind at 1, request.
  destruct (cl (calls s) (GetMyScouts uid)) as [raw | e]; [| now apply Hnil].
  unfold mbind at 1, set_seen, modify.
  unfold mbind at 1, lift.
  destruct (py_iter raw) as [items | e]; [| now apply Hnil].
  unfold mbind at 1.
  match goal with
  | |- context [for_each items merge_scout ?st] =>
      set (s1 := st);
      assert (HL1 : LoopInv s1) by (split; [apply HI | apply SeenInv_nil]);
      assert (Hs1 : scouts s1 = []) by exact Hs
  end.
  destruct (tame_for_each items _ merge_scout_tame s1 (proj1 HL1))
    as (_ & _ & Hsc).
  destruct (for_each items merge_scout s1) as [[[] | e] s2] eqn:Hloop;
    cbn [snd] in Hsc.
  2:{ apply Hnil. cbn [snd]. rewrite Hsc. exact Hs1. }
  pose proof (for_each_ok_inv LoopInv merge_scout merge_scout_inv _ _ _ HL1 Hloop)
    as [HO2 HS2].
  unfold mbind at 1, gets. unfold mbind at 1, set_scouts, modify.
  match goal with
  | |- context [for_each ?l add_scout_ref ?st] => set (s3 := st)
  end.
  destruct (ScoutsInv_of_seen _ _ HS2) as [_ Hok].
  destruct (add_scout_ref_loop (od_values (seen s2)) s3 HO2 Hok)
    as (s4 & H4 & Hall).
  destruct (tame_for_each (od_values (seen s2)) _ add_scout_ref_tame s3 HO2)
    as (_ & _ & Hsc4).
  rewrite H4 in Hsc4 |- *. cbn [snd] in *.
  intros e Hin. rewrite Hsc4 in Hin. now apply Hall.
Qed.

Lemma refresh_steps_listed (cl : client) (uid pgu : val) :
  Listed (snd (refresh_steps cl uid pgu (initial uid pgu))).
Proof.
  rewrite refresh_steps_unfold.
  set (s0 := initial uid pgu).
  assert (HI0 : PassInv s0) by (split; cbn; [apply OrgInv_nil | apply ScoutsInv_nil]).
  pose proof (tame_inv _ s0 (step_user_tame cl uid) HI0) as HI1.
  destruct (step_user_tame cl uid s0 (proj1 HI0)) as (_ & _ & Hs1).
  set (s1 := snd (step_user cl uid s0)) in *.
  pose proof (tame_inv _ s1 (step_orgs_tame cl uid) HI1) as HI2.
  destruct (step_orgs_tame cl uid s1 (proj1 HI1)) as (_ & _ & Hs2).
  set (s2 := snd (step_orgs cl uid s1)) in *.
  assert (Hnil : scouts s2 = []) by (rewrite Hs2, Hs1; reflexivity).
  pose proof (step_scouts_listed cl uid s2 HI2 Hnil) as HL.
  pose proof (step_scouts_inv cl uid s2 HI2) as HI3.
  set (s3 := snd (step_scouts cl uid s2)) in *.
  destruct (step_roles_tame cl pgu s3 (proj1 HI3)) as (_ & _ & Hs4).
  intros e Hin Ht Hu. rewrite Hs4 in Hin.
  eapply listed_under_le; [apply step_roles_grows | now apply HL].
Qed.

Section ListedFacts.
Context `{L : Stdlib}.

(** X22.  In every snapshot [refresh] returns, each scout with an
    organization identifier (and a user identifier that is a number, a
    string, a boolean or [None]) is referred to, by that user identifier,
    in the scouts of the organization listed under it. *)
Theorem refresh_lists_scouts_under_their_organization (cl : client)
    (now_info now_save : Z) (tf : Auth.file) (c c' : context)
    (snap : snapshot) (cs : list call) :
  refresh cl now_info now_save tf c = (Ok snap, c', cs) ->
  forall e, In e (snap_scouts snap) ->
    truthy (sc_orgGuid e) = true -> hashable (sc_userId e) = true ->
    exists o,
      org_listed (sc_orgGuid e) o (snap_organizations snap)
      /\ py_in (sc_userId e) (map ref_userId (org_scouts o)) = true.
Proof.
  intros H e Hin Ht Hu. destruct (refresh_inv _ _ _ _ _ _ _ _ H)
    as (info & uid & pgu & _ & _ & _ & _ & Ho & Hs & _).
  rewrite Hs in Hin. rewrite Ho.
  destruct (refresh_steps_listed cl uid pgu e Hin Ht Hu) as (o & Hget & Hpy).
  destruct (refresh_steps_inv cl uid pgu) as [(_ & _ & Hkey) _].
  destruct (od_get_In _ _ _ Hget) as (k & Hk & He).
  exists o. split; [split|exact Hpy].
  - unfold od_values. apply in_map_iff. now exists (k, o).
  - now rewrite (Hkey _ _ Hk).
Qed.

End ListedFacts.

(** * The user section *)

Lemma step_orgs_keeps_user (cl : client) (uid : val) :
  keeps user (step_orgs cl uid).
Proof.
  unfold step_orgs, fetch_profile_orgs, seed_org, add_role, set_orgs. frame.
  unfold request. intros s. reflexivity.
Qed.

Lemma step_scouts_keeps_user (cl : client) (uid : val) :
  keeps user (step_scouts cl uid).
Proof.
  unfold step_scouts, fetch_scouts, merge_scout, add_position, enrich_org,
    add_scout_ref, set_orgs, set_seen, set_scouts. frame.
  unfold request. intros s. reflexivity.
Qed.

Lemma step_roles_keeps_user (cl : client) (pgu : val) :
  keeps user (step_roles cl pgu).
Proof.
  unfold step_roles, fetch_roles, backfill_program, set_orgs. frame.
  unfold request. intros s. reflexivity.
Qed.

Lemma refresh_steps_user (cl : client) (uid pgu : val) (s : locals) :
  user (snd (refresh_steps cl uid pgu s)) = user (snd (step_user cl uid s)).
Proof.
  rewrite refresh_steps_unfold.
  now rewrite step_roles_keeps_user, step_scouts_keeps_user,
    step_orgs_keeps_user.
Qed.

Section UserFacts.
Context `{L : Stdlib}.

(** X20.  When the profile is fetched and has the expected shape, the
    user section of the snapshot is, in this order: the two identifiers
    of the token, the member identifier and the three names of the
    profile, and the email of the first entry of [emails] (an entry
    without one gives [None]). *)
Theorem refresh_user_section (cl : client) (now_info now_save : Z)
    (tf : Auth.file) (c : context) (info uid pgu : val)
    (prof p m : list (string * val)) :
  Auth.get_token_info now_info tf = Ok info ->
  py_get info "uid" = Ok uid -> py_get info "pgu" = Ok pgu ->
  truthy uid = true ->
  cl [] (GetPersonProfile uid) = Ok (VDict prof) ->
  or_default (dict_get "profile" prof) (VDict []) = VDict p ->
  py_index_zero (py_or (or_default (dict_get "emails" prof) (VList [VDict []]))
                   (VList [VDict []])) = Ok (VDict m) ->
  exists snap c' cs,
    refresh cl now_info now_save tf c = (Ok snap, c', cs)
    /\ snap_user snap
       = [("userId", uid); ("personGuid", pgu);
          ("memberId", or_default (dict_get "memberId" p) VNone);
          ("firstName", or_default (dict_get "firstName" p) VNone);
          ("lastName", or_default (dict_get "lastName" p) VNone);
          ("fullName", or_default (dict_get "fullName" p) VNone);
          ("email", or_default (dict_get "email" m) VNone)].
Proof.
  intros Hi Hu Hp Ht Hcl Hprof Hem. unfold refresh. rewrite Hi, Hu, Hp. cbn.
  do 3 eexists. split; [reflexivity|]. cbn [snap_user].
  rewrite refresh_steps_user. unfold step_user, when. rewrite Ht.
  unfold try_pass, fetch_user_fields. cbn [snd].
  unfold mbind at 1, request. cbn [calls initial]. rewrite Hcl.
  unfold mbind at 1, lift. unfold py_get_default at 1.
  unfold or_default in Hprof. rewrite Hprof.
  unfold py_get_default in *. unfold or_default in Hem.
  unfold mbind, lift, py_get, py_get_default, set_user, modify.
  cbn [fst snd user]. rewrite Hem. cbn [fst snd user]. reflexivity.
Qed.

End UserFacts.

(** ** main.py *)

Section MainFacts.
Context `{L : Stdlib}.

(** X29.  For a cached record with a token, [scouts auth status]
    says [authenticated] exactly when [get_token], at the same time,
    returns that token from the cache. *)
Theorem auth_status_agrees_with_get_token (env : option string)
    (clk : Auth.clock) (acquire : result string)
    (d : list (string * val)) (v : val) :
  dict_get "token" d = Some v ->
  (exists st,
     Main.auth_status (Auth.t_check clk) (Auth.Content (VDict d))
     = Ok (VDict st)
     /\ dict_get "status" st = Some (VStr "authenticated"))
  <-> Auth.get_token env clk acquire (Auth.Content (VDict d))
      = (Ok v, Auth.Content (VDict d), []).
Proof.
  intros Hd.
  assert (Ht : truthy (VDict d) = true) by (destruct d; [discriminate | reflexivity]).
  unfold Main.auth_status, Auth.get_token_info, Auth.get_token, Auth.cached_and.
  cbn [Auth._load_cached_token]. rewrite Ht. cbn [negb].
  destruct (Auth._is_expired (Auth.t_check clk) (VDict d)) as [b | e]; cbn [bind].
  2:{ split; [intros (st & H & _); discriminate H | discriminate]. }
  assert (Hs : truthy (VDict (dict_set "is_expired" (VBool b) d)) = true).
  { destruct d as [| [k w] d]; cbn [dict_set truthy]; [reflexivity|].
    destruct ("is_expired" =? k)%string; reflexivity. }
  rewrite Hs. cbn [negb]. unfold py_get, py_get_default. cbn [bind].
  rewrite dict_get_set_same. cbn [truthy].
  destruct b; cbn [negb].
  - split.
    + intros (st & [= <-] & H). cbn in H. discriminate H.
    + destruct (Auth.no_browser env); [discriminate|].
      destruct acquire as [token | e]; [| discriminate].
      destruct (Auth.login_with_token _ _ _) as [[] ?]; discriminate.
  - split.
    + intros _. unfold py_index_str. now rewrite Hd.
    + intros _. eexists. split; reflexivity.
Qed.

Lemma exists_saved (c : context) (snap : snapshot) :
  fst (_load c) = snapshot_to_val snap ->
  snap_version snap = CONTEXT_VERSION ->
  fst (exists_ c) = Ok true.
Proof.
  intros Hl Hv. unfold exists_. destruct (_load c) as [data c1].
  cbn [fst] in Hl. subst data. cbn. now rewrite Hv.
Qed.

Lemma exists_state (c : context) : snd (exists_ c) = snd (_load c).
Proof.
  unfold exists_. destruct (_load c) as [data c1]. now destruct data.
Qed.

Lemma is_stale_state (now : Z) (c : context) :
  snd (is_stale now c) = snd (_load c).
Proof.
  unfold is_stale. destruct (_load c) as [data c1].
  now destruct (negb (truthy data)).
Qed.

Lemma exists_reload (c : context) :
  fst (exists_ (snd (_load c))) = fst (exists_ c).
Proof.
  unfold exists_. rewrite load_twice. destruct (_load c) as [data c1].
  cbn [fst snd]. now destruct data.
Qed.

(** X30.  When the context check before a command goes through, the
    context exists; either it existed and was not stale, and then
    nothing was called or printed, or it has just been refreshed, two
    lines were printed, and it stays fresh for seven days. *)
Theorem auto_refresh_leaves_a_fresh_context (cl : client)
    (now_stale now_info now_save : Z) (tf f : Auth.file) (c' : context)
    (cs : list call) (printed : list string) :
  Main.auto_refresh cl now_stale now_info now_save tf f
  = (Ok tt, c', cs, printed) ->
  fst (exists_ c') = Ok true
  /\ ((cs = [] /\ printed = [] /\ fst (is_stale now_stale c') = Ok false)
      \/ (exists snap c0,
            refresh cl now_info now_save tf c0 = (Ok snap, c', cs)
            /\ List.length printed = 2%nat
            /\ forall now,
                 iso_roundtrip now_save ->
                 fst (is_stale now c')
                 = Ok (CONTEXT_MAX_AGE <? now - now_save))).
Proof.
  unfold Main.auto_refresh.
  set (ctx := {| _data := VNone; context_file := f |}).
  assert (Hre : forall c0 before after,
            match refresh cl now_info now_save tf c0 with
            | (Ok _, c1, cs1) => (Ok tt, c1, cs1, [before; after])
            | (Raise e, c1, cs1) => (Raise e, c1, cs1, [before])
            end = (Ok tt, c', cs, printed) ->
            fst (exists_ c') = Ok true
            /\ ((cs = [] /\ printed = [] /\ fst (is_stale now_stale c') = Ok false)
                \/ (exists snap c0,
                      refresh cl now_info now_save tf c0 = (Ok snap, c', cs)
                      /\ List.length printed = 2%nat
                      /\ forall now,
                           iso_roundtrip now_save ->
                           fst (is_stale now c')
                           = Ok (CONTEXT_MAX_AGE <? now - now_save)))).
  { intros c0 before after.
    destruct (refresh cl now_info now_save tf c0) as [[[snap | e] c1] cs1] eqn:Hr;
      [| discriminate].
    intros [= <- <- <-].
    destruct (refresh_saves _ _ _ _ _ _ _ _ Hr) as (Hd & Hf & Hv & Hs).
    destruct (load_saved c1 snap Hd Hf) as [H1 _].
    split; [exact (exists_saved c1 snap H1 Hv)|].
    right. exists snap, c0. repeat split; auto.
    intros now Hrt. now rewrite (saved_is_stale now now_save c1 snap H1 Hs Hrt). }
  destruct (exists_ ctx) as [[[] | e] c1] eqn:He; try discriminate.
  - destruct (is_stale now_stale c1) as [[[] | e] c2] eqn:Hst; try discriminate.
    + apply Hre.
    + intros [= <- <- <-].
      assert (Hc1 : c1 = snd (_load ctx)).
      { rewrite <- (exists_state ctx). now rewrite He. }
      assert (Hc2 : c2 = c1).
      { replace c2 with (snd (is_stale now_stale c1)) by now rewrite Hst.
        rewrite is_stale_state, Hc1. now rewrite load_twice. }
      subst c2. split.
      * rewrite Hc1, exists_reload. now rewrite He.
      * left. repeat split. now rewrite Hst.
  - apply Hre.
Qed.

End MainFacts.

(** ** Instances *)

Lemma is_stale_fresh_iff_witness :
  (exists b, fst (is_stale (L := Samples.stdlib) Samples.now_2026
                    Samples.stale_version) = Ok b)
  /\ (fst (is_stale (L := Samples.stdlib) Samples.now_2026
             Samples.stale_version) = Ok false
      <-> exists s t,
            dict_get "lastRefreshed"
              [("user", VDict [("userId", VInt 7)]);
               ("organizations", VList []);
               ("scouts", VList [VDict [("firstName", VStr "Sam")]]);
               ("version", VInt 0);
               ("lastRefreshed", VStr "2001-01-01T00:00:00+00:00")]
            = Some (VStr s)
            /\ fromisoformat (Stdlib := Samples.stdlib) s = Ok (Aware t)
            /\ Samples.now_2026 - t <= CONTEXT_MAX_AGE).
Proof.
  apply (is_stale_fresh_iff (L := Samples.stdlib) Samples.now_2026
           Samples.stale_version).
  reflexivity.
Defined.


Lemma refreshed_context_is_fresh_witness :
  exists snap c' cs,
    refresh (L := Samples.stdlib) SamplesMore.sample_client Samples.now_2026 SamplesMore.t_2001
      Samples.valid_file Samples.empty_context = (Ok snap, c', cs)
    /\ fst (is_stale (L := Samples.stdlib) (SamplesMore.t_2001 + 1) c')
       = Ok (CONTEXT_MAX_AGE <? SamplesMore.t_2001 + 1 - SamplesMore.t_2001)
    /\ fst (is_stale (L := Samples.stdlib) (SamplesMore.t_2001 + 1) (reopened c'))
       = Ok (CONTEXT_MAX_AGE <? SamplesMore.t_2001 + 1 - SamplesMore.t_2001).
Proof.
  do 3 eexists. split; [vm_compute; reflexivity|].
  eapply (refreshed_context_is_fresh (L := Samples.stdlib) SamplesMore.sample_client
            Samples.now_2026 SamplesMore.t_2001 Samples.valid_file Samples.empty_context).
  - vm_compute. reflexivity.
  - reflexivity.
Defined.

Lemma refresh_overwrites_when_every_call_fails_witness :
  exists snap c' cs,
    refresh (L := Samples.stdlib) SamplesMore.failing_client Samples.now_2026 SamplesMore.t_2001
      Samples.valid_file Samples.empty_context = (Ok snap, c', cs)
    /\ snap_user snap = [("userId", VInt 7); ("personGuid", VStr "pg-0")]
    /\ snap_organizations snap = []
    /\ snap_scouts snap = []
    /\ context_file c' = Auth.Content (snapshot_to_val snap).
Proof.
  eapply (refresh_overwrites_when_every_call_fails (L := Samples.stdlib)
            SamplesMore.failing_client Samples.now_2026 SamplesMore.t_2001 Samples.valid_file
            Samples.empty_context).
  - intros cs c. exists (builtin_error UpstreamError). destruct c; reflexivity.
  - vm_compute. reflexivity.
  - reflexivity.
  - reflexivity.
Defined.

Lemma refresh_without_token_calls_nothing_witness :
  exists snap c',
    refresh (L := Samples.stdlib) SamplesMore.sample_client Samples.now_2026 SamplesMore.t_2001
      Auth.Missing Samples.empty_context = (Ok snap, c', [])
    /\ snap_user snap = [("userId", VNone); ("personGuid", VNone)]
    /\ snap_organizations snap = []
    /\ snap_scouts snap = []
    /\ context_file c' = Auth.Content (snapshot_to_val snap).
Proof.
  apply (refresh_without_token_calls_nothing (L := Samples.stdlib)
           SamplesMore.sample_client Samples.now_2026 SamplesMore.t_2001 Auth.Missing
           Samples.empty_context).
  reflexivity.
Defined.

Lemma resolve_scout_filters_witness :
  exists matches scouts items,
    fst (resolve_scout "JONES" SamplesMore.cached_scouts) = Ok matches
    /\ fst (get_scouts SamplesMore.cached_scouts) = Ok scouts
    /\ py_iter scouts = Ok items
    /\ matches = filter (hit (lower "JONES")) items
    /\ Forall (fun x => exists b, matches_query (lower "JONES") x = Ok b) items.
Proof.
  eexists.
  destruct (resolve_scout_filters "JONES" SamplesMore.cached_scouts _ eq_refl)
    as (scouts & items & H).
  exists scouts, items. split; [reflexivity | exact H].
Defined.

Lemma resolve_scout_total_on_named_witness :
  exists items,
    fst (get_scouts SamplesMore.cached_scouts) = Ok (VList items)
    /\ fst (resolve_scout "JONES" SamplesMore.cached_scouts)
       = Ok (filter (hit (lower "JONES")) items)
    /\ fst (resolve_scout "" SamplesMore.cached_scouts) = Ok items.
Proof.
  eexists. split; [reflexivity|].
  apply (resolve_scout_total_on_named "JONES" SamplesMore.cached_scouts); reflexivity.
Defined.

Lemma resolve_scout_fails_on_a_bad_record_witness :
  fst (resolve_scout "sam" SamplesMore.numbered_scout)
  = Raise (builtin_error AttributeError).
Proof.
  apply (resolve_scout_fails_on_a_bad_record "sam" SamplesMore.numbered_scout
           [VDict [("fullName", VInt 7)]] (VDict [("fullName", VInt 7)])).
  - reflexivity.
  - left. reflexivity.
  - reflexivity.
Defined.


Lemma refresh_lists_no_role_or_scout_twice_witness :
  exists snap c' cs,
    refresh (L := Samples.stdlib) SamplesMore.sample_client Samples.now_2026 SamplesMore.t_2001
      Samples.valid_file Samples.empty_context = (Ok snap, c', cs)
    /\ forall o, In o (snap_organizations snap) ->
         py_distinct (org_roles o)
         /\ py_distinct (map ref_userId (org_scouts o)).
Proof.
  do 3 eexists. split; [vm_compute; reflexivity|].
  eapply (refresh_lists_no_role_or_scout_twice (L := Samples.stdlib)
            SamplesMore.sample_client Samples.now_2026 SamplesMore.t_2001 Samples.valid_file
            Samples.empty_context).
  vm_compute. reflexivity.
Defined.

Lemma handle_response_returns_iff_ok_witness :
  Client._handle_response SamplesMore.unauthorized_text
  = Client.RaisedBuiltin AttributeError.
Proof.
  apply (proj2 (proj2 (proj2 (handle_response_returns_iff_ok
                                SamplesMore.unauthorized_text))) eq_refl
           (VStr "Unauthorized")).
  - reflexivity.
  - intros d H. discriminate H.
Defined.

Lemma handle_response_error_dict_witness :
  Client.ok SamplesMore.unauthorized = false
  /\ (exists msg,
        Client.AuthenticationError "401: Token expired"
        = Client.ERROR_MAP (Client.status_code SamplesMore.unauthorized)
            (str_of_Z (Client.status_code SamplesMore.unauthorized) ++ ": " ++ msg))
  /\ dict_get "error"
       (Client.to_dict (Client.AuthenticationError "401: Token expired"))
     = Some (VStr "AuthenticationError")
  /\ (exists m,
        dict_get "message"
          (Client.to_dict (Client.AuthenticationError "401: Token expired"))
        = Some (VStr m)
        /\ String.prefix (str_of_Z (Client.status_code SamplesMore.unauthorized) ++ ": ") m
           = true).
Proof.
  apply (handle_response_error_dict SamplesMore.unauthorized
           (Client.AuthenticationError "401: Token expired")).
  reflexivity.
Defined.

Lemma auth_status_agrees_with_get_token_witness :
  Auth.get_token (L := Samples.stdlib) None Samples.clock_2026
    (Raise (builtin_error UpstreamError)) Samples.valid_file
  = (Ok (VStr Samples.good_token), Samples.valid_file, []).
Proof.
  apply (proj1 (auth_status_agrees_with_get_token (L := Samples.stdlib) None
                  Samples.clock_2026 (Raise (builtin_error UpstreamError))
                  [("token", VStr Samples.good_token);
                   ("expires_at", VStr "2999-01-01T00:00:00+00:00");
                   ("uid", VInt 7); ("pgu", VStr "pg-0")]
                  (VStr Samples.good_token) eq_refl)).
  eexists. split; reflexivity.
Defined.

Lemma auto_refresh_leaves_a_fresh_context_witness :
  exists c' cs printed,
    Main.auto_refresh (L := Samples.stdlib) SamplesMore.sample_client Samples.now_2026
      Samples.now_2026 SamplesMore.t_2001 Samples.valid_file Auth.Missing
    = (Ok tt, c', cs, printed)
    /\ fst (exists_ c') = Ok true
    /\ ((cs = [] /\ printed = []
         /\ fst (is_stale (L := Samples.stdlib) Samples.now_2026 c') = Ok false)
        \/ (exists snap c0,
              refresh (L := Samples.stdlib) SamplesMore.sample_client Samples.now_2026
                SamplesMore.t_2001 Samples.valid_file c0 = (Ok snap, c', cs)
              /\ List.length printed = 2%nat
              /\ forall now,
                   iso_roundtrip (L := Samples.stdlib) SamplesMore.t_2001 ->
                   fst (is_stale (L := Samples.stdlib) now c')
                   = Ok (CONTEXT_MAX_AGE <? now - SamplesMore.t_2001))).
Proof.
  do 3 eexists. split; [vm_compute; reflexivity|].
  eapply (auto_refresh_leaves_a_fresh_context (L := Samples.stdlib)
            SamplesMore.sample_client Samples.now_2026 Samples.now_2026 SamplesMore.t_2001
            Samples.valid_file Auth.Missing).
  vm_compute. reflexivity.
Defined.

Lemma refresh_lists_scouts_under_their_organization_witness :
  exists snap c' cs,
    refresh (L := Samples.stdlib) SamplesMore.sample_client Samples.now_2026 SamplesMore.t_2001
      Samples.valid_file Samples.empty_context = (Ok snap, c', cs)
    /\ forall e, In e (snap_scouts snap) ->
         truthy (sc_orgGuid e) = true -> hashable (sc_userId e) = true ->
         exists o,
           org_listed (sc_orgGuid e) o (snap_organizations snap)
           /\ py_in (sc_userId e) (map ref_userId (org_scouts o)) = true.
Proof.
  do 3 eexists. split; [vm_compute; reflexivity|].
  eapply (refresh_lists_scouts_under_their_organization (L := Samples.stdlib)
            SamplesMore.sample_client Samples.now_2026 SamplesMore.t_2001 Samples.valid_file
            Samples.empty_context).
  vm_compute. reflexivity.
Defined.

Lemma refresh_user_section_witness :
  exists snap c' cs,
    refresh (L := Samples.stdlib) SamplesMore.sample_client Samples.now_2026 SamplesMore.t_2001
      Samples.valid_file Samples.empty_context = (Ok snap, c', cs)
    /\ snap_user snap
       = [("userId", VInt 7); ("personGuid", VStr "pg-0");
          ("memberId", VInt 100000001); ("firstName", VStr "Jane");
          ("lastName", VStr "Smith"); ("fullName", VStr "Jane Smith");
          ("email", VStr "jane@example.org")].
Proof.
  refine (refresh_user_section (L := Samples.stdlib) SamplesMore.sample_client
            Samples.now_2026 SamplesMore.t_2001 Samples.valid_file Samples.empty_context
            (VDict [("token", VStr Samples.good_token);
                    ("expires_at", VStr "2999-01-01T00:00:00+00:00");
                    ("uid", VInt 7); ("pgu", VStr "pg-0");
                    ("is_expired", VBool false)])
            (VInt 7) (VStr "pg-0")
            [("profile", VDict [("memberId", VInt 100000001);
                                ("firstName", VStr "Jane");
                                ("lastName", VStr "Smith");
                                ("fullName", VStr "Jane Smith")]);
             ("emails", VList [VDict [("email", VStr "jane@example.org")]]);
             ("organizationPositions",
              VList [VDict [("organizationGuid", VStr "org-1");
                            ("organizationName", VStr "Pack 1234");
                            ("unitType", VStr "Pack");
                            ("unitNumber", VStr "1234");
                            ("positions",
                             VList [VDict [("name", VStr "Den Leader")]])]])]
            [("memberId", VInt 100000001); ("firstName", VStr "Jane");
             ("lastName", VStr "Smith"); ("fullName", VStr "Jane Smith")]
            [("email", VStr "jane@example.org")]
            _ _ _ _ _ _ _); reflexivity.
Defined.

End MoreProofs.
